(** * Primorial Anchor Conjecture scripts: anchor search and classification

    A shallow embedding of the Python scripts under [Test_Scripts/]:
    the bidirectional nearest-prime search, the Law I decision and the
    aggregation loops that consume them.

    Python integers are [Z]; [%] and [//] with a positive divisor are
    [Z.modulo] and [Z.div] (both floor).  [prime_list] is a [list Z],
    [prime_set = set(prime_list)] a [gset Z], a [defaultdict(int)] a
    [gmap Z Z] read with default [0].  Printing and timing are left out.
    The run size [MAX_PRIME_PAIRS_TO_TEST], a constant at the top of each
    script, is the argument [n_pairs] of the run functions. *)

From Stdlib Require Import ZArith Zdivisibility Lia.
From stdpp Require Import base option list sorting gmap.

Local Open Scope Z_scope.

(** ** Python helpers *)

(** [l[i]] on a Python list: negative indices count from the end, anything
    else out of range raises [IndexError] (here [None]). *)
Definition py_index (l : list Z) (i : Z) : option Z :=
  let n := Z.of_nat (length l) in
  if 0 <=? i then l !! Z.to_nat i
  else if - n <=? i then l !! Z.to_nat (n + i)
  else None.

(** [len(l)] *)
Definition py_len (l : list Z) : Z := Z.of_nat (length l).

(** [x in prime_set] *)
Definition in_set (prime_set : gset Z) (x : Z) : bool :=
  bool_decide (x ∈ prime_set).

(** [d[k]] on a [defaultdict(int)] *)
Definition dd_get (d : gmap Z Z) (k : Z) : Z := default 0 (d !! k).

(** [d[k] += 1] on a [defaultdict(int)] *)
Definition dd_incr (d : gmap Z Z) (k : Z) : gmap Z Z :=
  <[k := dd_get d k + 1]> d.

(** [sum(d.values())] *)
Definition dd_sum (d : gmap Z Z) : Z :=
  map_fold (λ _ v acc, v + acc) 0 d.

(** How one pass through a loop body ends: fall through or [continue],
    [break], or [return] from the enclosing function. *)
Inductive flow (A : Type) : Type :=
  | Continue (a : A)
  | Break (a : A)
  | Return (a : A).
Arguments Continue {A} a.
Arguments Break {A} a.
Arguments Return {A} a.

(** [for i in range(start, start + n): body].  [None] is an uncaught
    exception raised by the body. *)
Fixpoint for_range {St : Type} (n : nat) (i : Z)
    (body : Z → St → option (flow St)) (st : St) : option (flow St) :=
  match n with
  | O => Some (Continue st)
  | S n' =>
      match body i st with
      | Some (Continue st') => for_range n' (i + 1) body st'
      | r => r
      end
  end.

(** ** The nearest-prime search *)

(** The values the search loop leaves in [min_distance_k] and in
    [found_prime] (called [q_prime] in tests 2 to 5). *)
Record SearchOutcome : Type := mkOutcome {
  min_distance_k : Z;
  found_prime : Z
}.

(** The [while True] loop shared by tests 2, 3, 4, 5 and 6:
<<
    while True:
        q_lower = anchor_S_n - search_dist
        q_upper = anchor_S_n + search_dist
        if <lo q_lower>: min_distance_k = search_dist; q_prime = q_lower; break
        if <hi q_upper>: min_distance_k = search_dist; q_prime = q_upper; break
        search_dist += 1
        if search_dist > cap: break
>>
    [lo] and [hi] are the two membership tests of the script at hand and
    [cap] its literal bound.  [fuel] bounds the number of iterations;
    [None] means the fuel ran out before the loop left. *)
Fixpoint search_loop (lo hi : Z → bool) (cap : Z) (fuel : nat)
    (anchor_S_n search_dist : Z) : option SearchOutcome :=
  match fuel with
  | O => None
  | S fuel' =>
      let q_lower := anchor_S_n - search_dist in
      let q_upper := anchor_S_n + search_dist in
      if lo q_lower then Some (mkOutcome search_dist q_lower)
      else if hi q_upper then Some (mkOutcome search_dist q_upper)
      else
        let search_dist := search_dist + 1 in
        if search_dist >? cap then Some (mkOutcome 0 0)
        else search_loop lo hi cap fuel' anchor_S_n search_dist
  end.

(** The loop entered with [min_distance_k = 0], [q_prime = 0] and
    [search_dist = 1]. *)
Definition nearest_prime (lo hi : Z → bool) (cap : Z) (anchor_S_n : Z)
    : option SearchOutcome :=
  search_loop lo hi cap (S (Z.to_nat cap)) anchor_S_n 1.

(** The loop of the non-perfect branch of test 4, which tests both
    candidates in one condition and records no neighbour:
<<
    while True:
        q_lower = anchor_S_n - search_dist
        q_upper = anchor_S_n + search_dist
        if q_lower in prime_set or q_upper in prime_set:
            min_distance_k = search_dist
            break
        search_dist += 1
        if search_dist > 2000: break
>> *)
Fixpoint search_either_loop (prime_set : gset Z) (fuel : nat)
    (anchor_S_n search_dist : Z) : option Z :=
  match fuel with
  | O => None
  | S fuel' =>
      let q_lower := anchor_S_n - search_dist in
      let q_upper := anchor_S_n + search_dist in
      if in_set prime_set q_lower || in_set prime_set q_upper
      then Some search_dist
      else
        let search_dist := search_dist + 1 in
        if search_dist >? 2000 then Some 0
        else search_either_loop prime_set fuel' anchor_S_n search_dist
  end.

Definition search_either (prime_set : gset Z) (anchor_S_n : Z) : option Z :=
  search_either_loop prime_set 2001 anchor_S_n 1.

(** [is_k_composite = (min_distance_k > 1) and (min_distance_k not in prime_set)] *)
Definition is_k_composite (prime_set : gset Z) (min_distance_k : Z) : bool :=
  (min_distance_k >? 1) && negb (in_set prime_set min_distance_k).

(** The [failure_event] dictionary of tests 2 and 4. *)
Record failure_event : Type := mkEvent {
  n_index : Z;
  S_n : Z;
  q_prime : Z;
  k_composite : Z
}.

(** What a script leaves behind: it returned before its report on a fatal
    error, it printed its report from the final state, or it died on an
    uncaught exception. *)
Inductive verdict (St : Type) : Type :=
  | Aborted
  | Reported (st : St)
  | Crashed.
Arguments Aborted {St}.
Arguments Reported {St} st.
Arguments Crashed {St}.

(** The state a pass or a loop ends in. *)
Definition flow_state {St : Type} (r : flow St) : St :=
  match r with
  | Continue st | Break st | Return st => st
  end.

Definition after_loop {St : Type} (r : option (flow St)) : verdict St :=
  match r with
  | Some (Continue st) | Some (Break st) => Reported st
  | Some (Return _) => Aborted
  | None => Crashed
  end.

(** [START_INDEX] of tests 2 to 6. *)
Definition START_INDEX : Z := 10.


(** ** analyze_composite_k_distribution.py: the frequency tally *)
Module KDist.

Definition is_prime (num : Z) (prime_set : gset Z) : bool :=
  if num <? 2 then false else in_set prime_set num.

(** The search loop of this script, with the bound tested on entry:
<<
  while True:
      if search_dist > 2000: min_distance_k = 0; break
      q_lower = anchor_sum - search_dist
      q_upper = anchor_sum + search_dist
      if is_prime(q_lower, prime_set):
          min_distance_k = search_dist; found_prime = q_lower
          if is_prime(q_upper, prime_set): pass
          break
      if is_prime(q_upper, prime_set):
          min_distance_k = search_dist; found_prime = q_upper
          break
      search_dist += 1
>> *)
Fixpoint find_k_min (prime_set : gset Z) (fuel : nat)
    (anchor_sum search_dist : Z) : option SearchOutcome :=
  match fuel with
  | O => None
  | S fuel' =>
      if search_dist >? 2000 then Some (mkOutcome 0 0)
      else
        let q_lower := anchor_sum - search_dist in
        let q_upper := anchor_sum + search_dist in
        if is_prime q_lower prime_set then
          Some (mkOutcome search_dist q_lower)
        else if is_prime q_upper prime_set then
          Some (mkOutcome search_dist q_upper)
        else find_k_min prime_set fuel' anchor_sum (search_dist + 1)
  end.

Record state : Type := mkState {
  total_law_I_failures : Z;
  composite_k_counts : gmap Z Z
}.

Definition init : state := mkState 0 ∅.

Definition is_law_I_success (prime_set : gset Z) (min_distance_k : Z) : bool :=
  (min_distance_k =? 1) || is_prime min_distance_k prime_set.

(** One pass through the body of the main [for] loop. *)
Definition body (prime_list : list Z) (prime_set : gset Z)
    (max_prime_in_set : Z) (i : Z) (st : state) : option (flow state) :=
  p_n ← py_index prime_list i;
  p_n_plus_1 ← py_index prime_list (i + 1);
  let anchor_sum := p_n + p_n_plus_1 in
  let max_lookup_needed := anchor_sum + 2000 in
  if max_lookup_needed >? max_prime_in_set then Some (Return st)
  else
    o ← find_k_min prime_set 2001 anchor_sum 1;
    if min_distance_k o =? 0 then Some (Continue st)
    else if negb (is_law_I_success prime_set (min_distance_k o)) then
      Some (Continue
              (mkState (total_law_I_failures st + 1)
                       (dd_incr (composite_k_counts st) (min_distance_k o))))
    else Some (Continue st).

(** [max(prime_list) if prime_list else 0] *)
Definition max_prime (prime_list : list Z) : Z :=
  match prime_list with
  | [] => 0
  | p :: ps => foldl Z.max p ps
  end.

Definition analyze_k_distribution (n_pairs : Z) (prime_list : list Z)
    : verdict state :=
  let required_primes_count := n_pairs + 2 in
  if py_len prime_list <? required_primes_count then Aborted
  else if bool_decide (prime_list = []) then Aborted
  else
    let prime_set : gset Z := list_to_set prime_list in
    let max_prime_in_set := max_prime prime_list in
    let start_index := 1 in
    after_loop
      (for_range (Z.to_nat (n_pairs + 1 - start_index)) start_index
         (body prime_list prime_set max_prime_in_set) init).

End KDist.

(** [for x in l: body], the state threaded through; [None] is an uncaught
    exception raised by the body. *)
Fixpoint for_each {St : Type} (body : Z → St → option St) (l : list Z)
    (st : St) : option St :=
  match l with
  | [] => Some st
  | x :: l' =>
      match body x st with
      | Some st' => for_each body l' st'
      | None => None
      end
  end.

(** [d[k] += 1] on a plain [dict]: [KeyError] (here [None]) when the key
    is missing. *)
Definition dict_incr (d : gmap Z Z) (k : Z) : option (gmap Z Z) :=
  n ← d !! k; Some (<[k := n + 1]> d).

(** ** test-1-pac-cfr.py: nearest multiple of a primorial *)
Module CFR.

Definition get_closest_anchor (q primorial : Z) : Z :=
  let A_below := (q / primorial) * primorial in
  let A_above := A_below + primorial in
  if (q - A_below) <? (A_above - q) then A_below else A_above.

(** The test made on each of the three grids:
    [k = abs(A - q)], failure when [(k > 1) and (k not in prime_set)]. *)
Definition grid_fails (prime_set : gset Z) (q primorial : Z) : bool :=
  let A := get_closest_anchor q primorial in
  let k := Z.abs (A - q) in
  (k >? 1) && negb (in_set prime_set k).

(** [load_primes_from_file(filename, max_count)]: the first [max_count]
    lines of the file. *)
Definition load_primes_from_file (max_count : Z) (file : list Z)
    : list Z * gset Z :=
  let prime_list := take (Z.to_nat max_count) file in
  (prime_list, list_to_set prime_list).

(** [failure_counts = {6: 0, 30: 0, 210: 0}] *)
Definition failure_counts_init : gmap Z Z :=
  <[6 := 0]> (<[30 := 0]> (<[210 := 0]> ∅)).

(** One pass of the loop over [primes_to_test]: the three grids in turn. *)
Definition body (prime_set : gset Z) (q : Z) (failure_counts : gmap Z Z)
    : option (gmap Z Z) :=
  let A_6 := get_closest_anchor q 6 in
  let k_6 := Z.abs (A_6 - q) in
  failure_counts ←
    (if (k_6 >? 1) && negb (in_set prime_set k_6)
     then dict_incr failure_counts 6 else Some failure_counts);
  let A_30 := get_closest_anchor q 30 in
  let k_30 := Z.abs (A_30 - q) in
  failure_counts ←
    (if (k_30 >? 1) && negb (in_set prime_set k_30)
     then dict_incr failure_counts 30 else Some failure_counts);
  let A_210 := get_closest_anchor q 210 in
  let k_210 := Z.abs (A_210 - q) in
  if (k_210 >? 1) && negb (in_set prime_set k_210)
  then dict_incr failure_counts 210 else Some failure_counts.

(** What the report is made from: the three counts and the number of
    primes tested.  The percentages, which are floating-point, are left
    out; computing them divides by [total_primes_tested]. *)
Record report : Type := mkReport {
  failures_6 : Z;
  failures_30 : Z;
  failures_210 : Z;
  total_primes_tested : Z
}.

Definition run_PAC_CFR_test (max_primes : Z) (file : list Z)
    : verdict report :=
  let '(prime_list, prime_set) := load_primes_from_file max_primes file in
  let primes_to_test := filter (λ p, 7 < p) prime_list in
  let total_primes_tested := py_len primes_to_test in
  match for_each (body prime_set) primes_to_test failure_counts_init with
  | None => Crashed
  | Some failure_counts =>
      match failure_counts !! 6, failure_counts !! 30, failure_counts !! 210
      with
      | Some c6, Some c30, Some c210 =>
          if total_primes_tested =? 0 then Crashed
          else Reported (mkReport c6 c30 c210 total_primes_tested)
      | _, _, _ => Crashed
      end
  end.

End CFR.

(** ** test-2-pac-classifier.py: the violation detector for 6, 30 and 210 *)
Module Classifier.

(** [load_primes_from_file], from the lines of the file already parsed. *)
Definition load_primes_from_file (n_pairs : Z) (file : list Z)
    : option (list Z * gset Z) :=
  let prime_list := file in
  let prime_set : gset Z := list_to_set prime_list in
  let required_primes := n_pairs + START_INDEX + 10 in
  if py_len prime_list <? required_primes then None
  else Some (prime_list, prime_set).

Record state : Type := mkState {
  total_law_I_failures : Z;
  violations_p2 : list failure_event;
  violations_p3 : list failure_event;
  violations_p4 : list failure_event;
  p2_failures_by_k : gmap Z Z;
  p3_failures_by_k : gmap Z Z;
  p4_failures_by_k : gmap Z Z
}.

Definition init : state := mkState 0 [] [] [] ∅ ∅ ∅.

(** Step 3 of the loop body, the three filters applied to one failure. *)
Definition classify (anchor_S_n min_distance_k : Z)
    (failure_event : failure_event) (st : state) : state :=
  let k_mod_3 := min_distance_k mod 3 =? 0 in
  let k_mod_5 := min_distance_k mod 5 =? 0 in
  let k_mod_7 := min_distance_k mod 7 =? 0 in
  let st :=
    if anchor_S_n mod 6 =? 0 then
      mkState (total_law_I_failures st)
        (if k_mod_3 then violations_p2 st ++ [failure_event]
         else violations_p2 st)
        (violations_p3 st) (violations_p4 st)
        (dd_incr (p2_failures_by_k st) min_distance_k)
        (p3_failures_by_k st) (p4_failures_by_k st)
    else st in
  let st :=
    if anchor_S_n mod 30 =? 0 then
      mkState (total_law_I_failures st)
        (violations_p2 st)
        (if k_mod_3 || k_mod_5 then violations_p3 st ++ [failure_event]
         else violations_p3 st)
        (violations_p4 st)
        (p2_failures_by_k st)
        (dd_incr (p3_failures_by_k st) min_distance_k)
        (p4_failures_by_k st)
    else st in
  if anchor_S_n mod 210 =? 0 then
    mkState (total_law_I_failures st)
      (violations_p2 st) (violations_p3 st)
      (if k_mod_3 || k_mod_5 || k_mod_7
       then violations_p4 st ++ [failure_event]
       else violations_p4 st)
      (p2_failures_by_k st) (p3_failures_by_k st)
      (dd_incr (p4_failures_by_k st) min_distance_k)
  else st.

Definition count_failure (st : state) : state :=
  mkState (total_law_I_failures st + 1)
    (violations_p2 st) (violations_p3 st) (violations_p4 st)
    (p2_failures_by_k st) (p3_failures_by_k st) (p4_failures_by_k st).

Definition body (prime_list : list Z) (prime_set : gset Z)
    (i : Z) (st : state) : option (flow state) :=
  p_n ← py_index prime_list i;
  p_n_plus_1 ← py_index prime_list (i + 1);
  let anchor_S_n := p_n + p_n_plus_1 in
  o ← nearest_prime (in_set prime_set) (in_set prime_set) 2000 anchor_S_n;
  if min_distance_k o =? 0 then Some (Continue st)
  else if is_k_composite prime_set (min_distance_k o) then
    let failure_event :=
      mkEvent i anchor_S_n (found_prime o) (min_distance_k o) in
    Some (Continue
            (classify anchor_S_n (min_distance_k o) failure_event
               (count_failure st)))
  else Some (Continue st).

Definition run_PAC_classifier_suite (n_pairs : Z) (file : list Z)
    : verdict state :=
  match load_primes_from_file n_pairs file with
  | None => Aborted
  | Some (prime_list, prime_set) =>
      let loop_end_index := n_pairs + START_INDEX in
      after_loop
        (for_range (Z.to_nat (loop_end_index - START_INDEX)) START_INDEX
           (body prime_list prime_set) init)
  end.

End Classifier.

(** ** test-4-p5-classifier.py: the violation detector for 2310 *)
Module P5.

Record state : Type := mkState {
  total_law_I_failures : Z;
  perfect_mod2310_anchors_found : Z;
  failures_from_perfect_mod2310 : gmap Z Z;
  violations_p5 : list failure_event
}.

Definition init : state := mkState 0 0 ∅ [].

Definition body (prime_list : list Z) (prime_set : gset Z)
    (i : Z) (st : state) : option (flow state) :=
  p_n ← py_index prime_list i;
  p_n_plus_1 ← py_index prime_list (i + 1);
  let anchor_S_n := p_n + p_n_plus_1 in
  let is_perfect_anchor := anchor_S_n mod 2310 =? 0 in
  if is_perfect_anchor then
    let st := mkState (total_law_I_failures st)
                (perfect_mod2310_anchors_found st + 1)
                (failures_from_perfect_mod2310 st) (violations_p5 st) in
    o ← nearest_prime (in_set prime_set) (in_set prime_set) 3000 anchor_S_n;
    let min_distance_k := min_distance_k o in
    if min_distance_k =? 0 then Some (Continue st)
    else if is_k_composite prime_set min_distance_k then
      let failure_event :=
        mkEvent i anchor_S_n (found_prime o) min_distance_k in
      Some (Continue
              (mkState (total_law_I_failures st + 1)
                 (perfect_mod2310_anchors_found st)
                 (dd_incr (failures_from_perfect_mod2310 st) min_distance_k)
                 (if (min_distance_k mod 3 =? 0) || (min_distance_k mod 5 =? 0)
                     || (min_distance_k mod 7 =? 0)
                     || (min_distance_k mod 11 =? 0)
                  then violations_p5 st ++ [failure_event]
                  else violations_p5 st)))
    else Some (Continue st)
  else
    min_distance_k ← search_either prime_set anchor_S_n;
    if min_distance_k >? 0 then
      if is_k_composite prime_set min_distance_k then
        Some (Continue
                (mkState (total_law_I_failures st + 1)
                   (perfect_mod2310_anchors_found st)
                   (failures_from_perfect_mod2310 st) (violations_p5 st)))
      else Some (Continue st)
    else Some (Continue st).

Definition load_primes_from_file (n_pairs : Z) (file : list Z)
    : option (list Z * gset Z) :=
  let prime_list := file in
  let prime_set : gset Z := list_to_set prime_list in
  let required_primes := n_pairs + START_INDEX + 10 in
  if py_len prime_list <? required_primes then None
  else Some (prime_list, prime_set).

Definition run_PAC_mod2310_verification (n_pairs : Z) (file : list Z)
    : verdict state :=
  match load_primes_from_file n_pairs file with
  | None => Aborted
  | Some (prime_list, prime_set) =>
      let loop_end_index := n_pairs + START_INDEX in
      after_loop
        (for_range (Z.to_nat (loop_end_index - START_INDEX)) START_INDEX
           (body prime_list prime_set) init)
  end.

End P5.

(** ** test-5-data.py: the Law III correction-radius search *)
Module Law3.

Definition MAX_LAW_III_RADIUS : Z := 30.

Definition load_primes_from_file (n_pairs : Z) (file : list Z)
    : option (list Z * gset Z) :=
  let prime_list := file in
  let prime_set : gset Z := list_to_set prime_list in
  let required_primes := n_pairs + START_INDEX + MAX_LAW_III_RADIUS + 2 in
  if py_len prime_list <? required_primes then None
  else Some (prime_list, prime_set).

Definition is_clean_k (k_val : Z) (prime_set : gset Z) : bool :=
  if k_val =? 1 then true
  else if k_val <? 2 then false
  else in_set prime_set k_val.

(** The variables the correction search sets. *)
Record fix_result : Type := mkFix {
  fix_found : bool;
  fixing_radius_r : Z;
  S_fix : Z
}.

(** [for r in range(r, r + n)]: the anchor below is tried first, then the
    anchor above; the first clean distance to [q_prime] ends the loop. *)
Fixpoint law3_loop (prime_list : list Z) (prime_set : gset Z)
    (i q_prime : Z) (n : nat) (r : Z) : option fix_result :=
  match n with
  | O => Some (mkFix false 0 0)
  | S n' =>
      a ← py_index prime_list (i - r);
      b ← py_index prime_list (i - r + 1);
      let S_prev := a + b in
      let k_prev := Z.abs (S_prev - q_prime) in
      if is_clean_k k_prev prime_set then Some (mkFix true r S_prev)
      else
        c ← py_index prime_list (i + r);
        d ← py_index prime_list (i + r + 1);
        let S_next := c + d in
        let k_next := Z.abs (S_next - q_prime) in
        if is_clean_k k_next prime_set then Some (mkFix true r S_next)
        else law3_loop prime_list prime_set i q_prime n' (r + 1)
  end.

(** [for r in range(1, MAX_LAW_III_RADIUS + 1)] *)
Definition law3_search (prime_list : list Z) (prime_set : gset Z)
    (i q_prime : Z) : option fix_result :=
  law3_loop prime_list prime_set i q_prime
    (Z.to_nat (MAX_LAW_III_RADIUS + 1 - 1)) 1.

(** A row of [correlation_data], also written to the CSV file. *)
Record event_data : Type := mkRow {
  n_index : Z;
  Sn : Z;
  q_prime : Z;
  k_composite : Z;
  Sn_mod6 : Z;
  Sn_mod30 : Z;
  Sn_mod210 : Z;
  fix_radius_r : Z;
  row_S_fix : Z;
  Sfix_mod6 : Z;
  Sfix_mod30 : Z;
  Sfix_mod210 : Z
}.

Record state : Type := mkState {
  total_law_I_failures : Z;
  max_r_observed : Z;
  law_III_failures : list Z;
  correlation_data : list event_data
}.

Definition init : state := mkState 0 0 [] [].

Definition body (prime_list : list Z) (prime_set : gset Z)
    (i : Z) (st : state) : option (flow state) :=
  p_n ← py_index prime_list i;
  p_n_plus_1 ← py_index prime_list (i + 1);
  let anchor_S_n := p_n + p_n_plus_1 in
  o ← nearest_prime (λ q_lower, (q_lower >? 1) && in_set prime_set q_lower)
        (in_set prime_set) 3000 anchor_S_n;
  let min_distance_k := min_distance_k o in
  let q_prime := found_prime o in
  if min_distance_k =? 0 then Some (Continue st)
  else if is_k_composite prime_set min_distance_k then
    let total := total_law_I_failures st + 1 in
    let Sn_mod6 := anchor_S_n mod 6 in
    let Sn_mod30 := anchor_S_n mod 30 in
    let Sn_mod210 := anchor_S_n mod 210 in
    f ← law3_search prime_list prime_set i q_prime;
    if fix_found f then
      let max_r :=
        if fixing_radius_r f >? max_r_observed st then fixing_radius_r f
        else max_r_observed st in
      let event_data :=
        mkRow i anchor_S_n q_prime min_distance_k
          Sn_mod6 Sn_mod30 Sn_mod210
          (fixing_radius_r f) (S_fix f)
          (S_fix f mod 6) (S_fix f mod 30) (S_fix f mod 210) in
      Some (Continue
              (mkState total max_r (law_III_failures st)
                 (correlation_data st ++ [event_data])))
    else
      Some (Break
              (mkState total (max_r_observed st)
                 (law_III_failures st ++ [i]) (correlation_data st)))
  else Some (Continue st).

Definition run_PAC_Law3_correlation_test (n_pairs : Z) (file : list Z)
    : verdict state :=
  match load_primes_from_file n_pairs file with
  | None => Aborted
  | Some (prime_list, prime_set) =>
      let loop_start_index := START_INDEX + MAX_LAW_III_RADIUS in
      let loop_end_index := n_pairs + loop_start_index in
      if loop_end_index >=? py_len prime_list - MAX_LAW_III_RADIUS - 1
      then Aborted
      else
        after_loop
          (for_range (Z.to_nat (loop_end_index - loop_start_index))
             loop_start_index (body prime_list prime_set) init)
  end.

End Law3.

(** ** test-6-gap-failure-correlation.py: gap statistics per failure type *)
Module GapCorr.

(** An entry of [gap_stats_by_k]. *)
Record gap_stat : Type := mkStat {
  count : Z;
  gap_sum : Z
}.

Record state : Type := mkState {
  total_law_I_failures : Z;
  gap_stats_by_k : gmap Z gap_stat;
  total_gap_sum_overall : Z;
  total_anchors_analyzed : Z
}.

Definition init : state := mkState 0 ∅ 0 0.

(** [gap_stats_by_k[k]['count'] += 1; gap_stats_by_k[k]['gap_sum'] += g]
    on a [defaultdict] whose default entry is [{count: 0, gap_sum: 0}]. *)
Definition record_gap (d : gmap Z gap_stat) (k g : Z) : gmap Z gap_stat :=
  let e := default (mkStat 0 0) (d !! k) in
  <[k := mkStat (count e + 1) (gap_sum e + g)]> d.

Definition body (prime_list : list Z) (prime_set : gset Z)
    (i : Z) (st : state) : option (flow state) :=
  p_n ← py_index prime_list i;
  p_n_plus_1 ← py_index prime_list (i + 1);
  let anchor_S_n := p_n + p_n_plus_1 in
  let gap_g_n := p_n_plus_1 - p_n in
  let st := mkState (total_law_I_failures st) (gap_stats_by_k st)
              (total_gap_sum_overall st + gap_g_n)
              (total_anchors_analyzed st + 1) in
  o ← nearest_prime (in_set prime_set) (in_set prime_set) 2000 anchor_S_n;
  let min_distance_k := min_distance_k o in
  if min_distance_k =? 0 then Some (Continue st)
  else if is_k_composite prime_set min_distance_k then
    Some (Continue
            (mkState (total_law_I_failures st + 1)
               (record_gap (gap_stats_by_k st) min_distance_k gap_g_n)
               (total_gap_sum_overall st) (total_anchors_analyzed st)))
  else Some (Continue st).

Definition load_primes_from_file (n_pairs : Z) (file : list Z)
    : option (list Z * gset Z) :=
  let prime_list := file in
  let prime_set : gset Z := list_to_set prime_list in
  let required_primes := n_pairs + START_INDEX + 10 in
  if py_len prime_list <? required_primes then None
  else Some (prime_list, prime_set).

Definition run_PAC_failure_gap_correlation (n_pairs : Z) (file : list Z)
    : verdict state :=
  match load_primes_from_file n_pairs file with
  | None => Aborted
  | Some (prime_list, prime_set) =>
      let loop_end_index := n_pairs + START_INDEX in
      after_loop
        (for_range (Z.to_nat (loop_end_index - START_INDEX)) START_INDEX
           (body prime_list prime_set) init)
  end.

End GapCorr.

(** ** test-3-residue-analysis.py: failures per residue class mod 30 *)
Module Residue.

Definition load_primes_from_file (n_pairs : Z) (file : list Z)
    : option (list Z * gset Z) :=
  let prime_list := file in
  let prime_set : gset Z := list_to_set prime_list in
  let required_primes := n_pairs + START_INDEX + 10 in
  if py_len prime_list <? required_primes then None
  else Some (prime_list, prime_set).

Record state : Type := mkState {
  total_law_I_failures : Z;
  failures_by_residue : gmap Z (gmap Z Z)
}.

(** [failures_by_residue = {i: defaultdict(int) for i in range(30)}] *)
Definition init : state :=
  mkState 0 (list_to_map ((λ i, (i, ∅)) <$> seqZ 0 30)).

(** [failures_by_residue] is a plain [dict]: reading a missing residue
    raises [KeyError] (here [None]); the inner tables are
    [defaultdict(int)]. *)
Definition body (prime_list : list Z) (prime_set : gset Z)
    (i : Z) (st : state) : option (flow state) :=
  p_n ← py_index prime_list i;
  p_n_plus_1 ← py_index prime_list (i + 1);
  let anchor_S_n := p_n + p_n_plus_1 in
  o ← nearest_prime (in_set prime_set) (in_set prime_set) 2000 anchor_S_n;
  let min_distance_k := min_distance_k o in
  if min_distance_k =? 0 then Some (Continue st)
  else if is_k_composite prime_set min_distance_k then
    let residue_mod_30 := anchor_S_n mod 30 in
    failure_data ← failures_by_residue st !! residue_mod_30;
    Some (Continue
            (mkState (total_law_I_failures st + 1)
               (<[residue_mod_30 := dd_incr failure_data min_distance_k]>
                  (failures_by_residue st))))
  else Some (Continue st).

Definition run_PAC_residue_analysis_mod30 (n_pairs : Z) (file : list Z)
    : verdict state :=
  match load_primes_from_file n_pairs file with
  | None => Aborted
  | Some (prime_list, prime_set) =>
      let loop_end_index := n_pairs + START_INDEX in
      after_loop
        (for_range (Z.to_nat (loop_end_index - START_INDEX)) START_INDEX
           (body prime_list prime_set) init)
  end.

(** [prime_residues = {1, 7, 11, 13, 17, 19, 23, 29}], listed in
    increasing order; the report uses it only through the sorted set
    below. *)
Definition prime_residues : list Z := [1; 7; 11; 13; 17; 19; 23; 29].

(** The residues the report expects of an anchor:
<<
  for r1 in prime_residues:
      for r2 in prime_residues:
          possible_S_n_residues.append((r1 + r2) % 30)
  possible_S_n_residues = sorted(list(set(possible_S_n_residues)))
>> *)
Definition possible_S_n_residues : list Z :=
  merge_sort Z.le
    (remove_dups
       (r1 ← prime_residues; r2 ← prime_residues; [(r1 + r2) mod 30])).

(** The report's check on residue 0:
    [{k for k in failure_data if k % 3 == 0 or k % 5 == 0}]. *)
Definition forbidden_k_found (failure_data : gmap Z Z) : gset Z :=
  dom (filter (λ kc : Z * Z, kc.1 mod 3 = 0 ∨ kc.1 mod 5 = 0) failure_data).

End Residue.

(** ** test-5-gap-residue-correlation.py: gap statistics per residue *)
Module GapResidue.

Definition load_primes_from_file (n_pairs : Z) (file : list Z)
    : option (list Z) :=
  let prime_list := file in
  let required_primes := n_pairs + START_INDEX + 1 in
  if py_len prime_list <? required_primes then None
  else Some prime_list.

Record state : Type := mkState {
  gap_stats_mod6 : gmap Z GapCorr.gap_stat;
  gap_stats_mod30 : gmap Z GapCorr.gap_stat;
  gap_stats_mod210 : gmap Z GapCorr.gap_stat;
  total_anchors_analyzed : Z
}.

(** [{i: {'count': 0, 'gap_sum': 0} for i in range(modulus)}] *)
Definition empty_stats (modulus : Z) : gmap Z GapCorr.gap_stat :=
  list_to_map ((λ i, (i, GapCorr.mkStat 0 0)) <$> seqZ 0 modulus).

Definition init : state :=
  mkState (empty_stats 6) (empty_stats 30) (empty_stats 210) 0.

(** [gap_stats[residue]['count'] += 1; gap_stats[residue]['gap_sum'] += g]
    on a plain [dict]: [KeyError] (here [None]) for a missing residue. *)
Definition add_gap (gap_stats : gmap Z GapCorr.gap_stat) (residue g : Z)
    : option (gmap Z GapCorr.gap_stat) :=
  e ← gap_stats !! residue;
  Some (<[residue := GapCorr.mkStat (GapCorr.count e + 1)
                       (GapCorr.gap_sum e + g)]> gap_stats).

Definition body (prime_list : list Z) (i : Z) (st : state)
    : option (flow state) :=
  p_n ← py_index prime_list i;
  p_n_plus_1 ← py_index prime_list (i + 1);
  let anchor_S_n := p_n + p_n_plus_1 in
  let gap_g_n := p_n_plus_1 - p_n in
  let total := total_anchors_analyzed st + 1 in
  let residue_mod6 := anchor_S_n mod 6 in
  let residue_mod30 := anchor_S_n mod 30 in
  let residue_mod210 := anchor_S_n mod 210 in
  s6 ← add_gap (gap_stats_mod6 st) residue_mod6 gap_g_n;
  s30 ← add_gap (gap_stats_mod30 st) residue_mod30 gap_g_n;
  s210 ← add_gap (gap_stats_mod210 st) residue_mod210 gap_g_n;
  Some (Continue (mkState s6 s30 s210 total)).

Definition run_PAC_gap_residue_correlation (n_pairs : Z) (file : list Z)
    : verdict state :=
  match load_primes_from_file n_pairs file with
  | None => Aborted
  | Some prime_list =>
      let loop_end_index := n_pairs + START_INDEX in
      after_loop
        (for_range (Z.to_nat (loop_end_index - START_INDEX)) START_INDEX
           (body prime_list) init)
  end.

End GapResidue.

(** [sum(stats[field] for stats in gap_stats.values())] *)
Definition stat_total (field : GapCorr.gap_stat → Z)
    (gap_stats : gmap Z GapCorr.gap_stat) : Z :=
  map_fold (λ _ e acc, field e + acc) 0 gap_stats.

(** ** What the searches are meant to find *)

(** Distance [d] from the anchor reaches no accepted candidate. *)
Definition miss (lo hi : Z → bool) (anchor d : Z) : Prop :=
  lo (anchor - d) = false ∧ hi (anchor + d) = false.

(** Distance [d] from the anchor reaches an accepted candidate. *)
Definition hit (lo hi : Z → bool) (anchor d : Z) : Prop :=
  lo (anchor - d) = true ∨ hi (anchor + d) = true.

(** [k] is the least distance in [1..cap] reaching an accepted candidate. *)
Definition least_hit (lo hi : Z → bool) (cap anchor k : Z) : Prop :=
  1 ≤ k ≤ cap ∧ hit lo hi anchor k ∧ ∀ d, 1 ≤ d < k → miss lo hi anchor d.

(** The anchor [S_n = p_n + p_{n+1}] every loop body builds. *)
Definition anchor_at (prime_list : list Z) (n : Z) : option Z :=
  p_n ← py_index prime_list n;
  p_n_plus_1 ← py_index prime_list (n + 1);
  Some (p_n + p_n_plus_1).

(** A violation list [new] holds what [old] held, plus the event [ev] at its
    end exactly when [P] holds. *)
Definition recorded_iff (old new : list failure_event) (ev : failure_event)
    (P : Prop) : Prop :=
  (new = old ++ [ev] ↔ P) ∧ (¬ P → new = old).

(** No member of the prime set lies within [cap] of the anchor. *)
Definition no_prime_within (prime_set : gset Z) (cap anchor : Z) : Prop :=
  ∀ d, 1 ≤ d ≤ cap → (anchor - d ∉ prime_set) ∧ (anchor + d ∉ prime_set).

(** The pass of [body] at index [i] from [st] ends by falling through or by
    [continue] in state [st'], and the loop goes on with index [i + 1]. *)
Definition moves_on {St : Type} (body : Z → St → option (flow St))
    (i : Z) (st st' : St) : Prop :=
  body i st = Some (Continue st')
  ∧ ∀ n, for_range (S n) i body st = for_range n (i + 1) body st'.

(** A distance that is 1 or prime, as [is_clean_k] reads it. *)
Definition clean_distance (prime_set : gset Z) (k : Z) : Prop :=
  k = 1 ∨ (2 ≤ k ∧ k ∈ prime_set).

(** The anchor at index [j] lies at a clean distance from [q_prime]. *)
Definition fixes (prime_list : list Z) (prime_set : gset Z)
    (q_prime j : Z) : Prop :=
  ∃ S_j, anchor_at prime_list j = Some S_j
         ∧ clean_distance prime_set (Z.abs (S_j - q_prime)).

(** The prime list reaches every value a search around [anchor] may look
    up: [anchor + cap] does not exceed its largest entry. *)
Definition covers (prime_list : list Z) (anchor cap : Z) : Prop :=
  anchor + cap ≤ KDist.max_prime prime_list.

(** ** A test fixture *)

(** The primes below 2600, in the order of the prime file. *)
Definition primes_below_2600 : list Z :=
  [
  2; 3; 5; 7; 11; 13; 17; 19; 23; 29; 31; 37; 41; 43;
   47; 53; 59; 61; 67; 71; 73; 79; 83; 89; 97; 101; 103; 107;
   109; 113; 127; 131; 137; 139; 149; 151; 157; 163; 167; 173; 179; 181;
   191; 193; 197; 199; 211; 223; 227; 229; 233; 239; 241; 251; 257; 263;
   269; 271; 277; 281; 283; 293; 307; 311; 313; 317; 331; 337; 347; 349;
   353; 359; 367; 373; 379; 383; 389; 397; 401; 409; 419; 421; 431; 433;
   439; 443; 449; 457; 461; 463; 467; 479; 487; 491; 499; 503; 509; 521;
   523; 541; 547; 557; 563; 569; 571; 577; 587; 593; 599; 601; 607; 613;
   617; 619; 631; 641; 643; 647; 653; 659; 661; 673; 677; 683; 691; 701;
   709; 719; 727; 733; 739; 743; 751; 757; 761; 769; 773; 787; 797; 809;
   811; 821; 823; 827; 829; 839; 853; 857; 859; 863; 877; 881; 883; 887;
   907; 911; 919; 929; 937; 941; 947; 953; 967; 971; 977; 983; 991; 997;
   1009; 1013; 1019; 1021; 1031; 1033; 1039; 1049; 1051; 1061; 1063; 1069; 1087; 1091;
   1093; 1097; 1103; 1109; 1117; 1123; 1129; 1151; 1153; 1163; 1171; 1181; 1187; 1193;
   1201; 1213; 1217; 1223; 1229; 1231; 1237; 1249; 1259; 1277; 1279; 1283; 1289; 1291;
   1297; 1301; 1303; 1307; 1319; 1321; 1327; 1361; 1367; 1373; 1381; 1399; 1409; 1423;
   1427; 1429; 1433; 1439; 1447; 1451; 1453; 1459; 1471; 1481; 1483; 1487; 1489; 1493;
   1499; 1511; 1523; 1531; 1543; 1549; 1553; 1559; 1567; 1571; 1579; 1583; 1597; 1601;
   1607; 1609; 1613; 1619; 1621; 1627; 1637; 1657; 1663; 1667; 1669; 1693; 1697; 1699;
   1709; 1721; 1723; 1733; 1741; 1747; 1753; 1759; 1777; 1783; 1787; 1789; 1801; 1811;
   1823; 1831; 1847; 1861; 1867; 1871; 1873; 1877; 1879; 1889; 1901; 1907; 1913; 1931;
   1933; 1949; 1951; 1973; 1979; 1987; 1993; 1997; 1999; 2003; 2011; 2017; 2027; 2029;
   2039; 2053; 2063; 2069; 2081; 2083; 2087; 2089; 2099; 2111; 2113; 2129; 2131; 2137;
   2141; 2143; 2153; 2161; 2179; 2203; 2207; 2213; 2221; 2237; 2239; 2243; 2251; 2267;
   2269; 2273; 2281; 2287; 2293; 2297; 2309; 2311; 2333; 2339; 2341; 2347; 2351; 2357;
   2371; 2377; 2381; 2383; 2389; 2393; 2399; 2411; 2417; 2423; 2437; 2441; 2447; 2459;
   2467; 2473; 2477; 2503; 2521; 2531; 2539; 2543; 2549; 2551; 2557; 2579; 2591; 2593
  ].

Definition prime_set_below_2600 : gset Z := list_to_set primes_below_2600.

(** A prime file with holes: no entry lies within 3000 of the anchor
    10007 + 10009 = 20016 at index 2, and the largest entry is beyond
    20016 + 2000. *)
Definition sparse_primes : list Z := [2; 3; 10007; 10009; 30011].

Definition sparse_prime_set : gset Z := list_to_set sparse_primes.

(** A prime file with a hole between 1000829 and 2000699: the anchor
    1000393 + 1000397 = 2000790 at index 30 has its only neighbour 2000699
    at the composite distance 91, and none of the thirty anchors on either
    side is at a listed distance from that neighbour. *)
Definition uncorrectable_primes : list Z :=
  [
  1000003; 1000033; 1000037; 1000039; 1000081; 1000099; 1000117; 1000121;
  1000133; 1000151; 1000159; 1000171; 1000183; 1000187; 1000193; 1000199;
  1000211; 1000213; 1000231; 1000249; 1000253; 1000273; 1000289; 1000291;
  1000303; 1000313; 1000333; 1000357; 1000367; 1000381; 1000393; 1000397;
  1000403; 1000409; 1000423; 1000427; 1000429; 1000453; 1000457; 1000507;
  1000537; 1000541; 1000547; 1000577; 1000579; 1000589; 1000609; 1000619;
  1000621; 1000639; 1000651; 1000667; 1000669; 1000679; 1000691; 1000697;
  1000721; 1000723; 1000763; 1000777; 1000793; 1000829; 2000699
  ].

Definition uncorrectable_prime_set : gset Z :=
  list_to_set uncorrectable_primes.

(** Two prime files with a hole around an anchor at index 2 whose only
    neighbour within 3000 lies more than 2000 away at a composite
    distance: 3463 + 3467 = 6930 = 3 * 2310 with 9431 at distance 2501,
    and 3467 + 3469 = 6936 with 8941 at distance 2005. *)
Definition perfect_hole_primes : list Z := [2; 3; 3463; 3467; 9431].

Definition imperfect_hole_primes : list Z := [2; 3; 3467; 3469; 8941].

(** The first 27 primes: enough entries for a run of test 2 over 6 pairs,
    yet the last anchor, 53 + 59 = 112, lies above the largest entry. *)
Definition first_27_primes : list Z :=
  [2; 3; 5; 7; 11; 13; 17; 19; 23; 29; 31; 37; 41; 43; 47; 53; 59; 61; 67;
   71; 73; 79; 83; 89; 97; 101; 103].

(** Trial division, to decide primality of the entries of a fixture. *)
Definition trial_division (n : Z) : bool :=
  (1 <? n) && forallb (λ d, negb (n mod d =? 0)) (seqZ 2 (n - 2)).

(** The number of entries of [l] that fail the test of test 1 on the grid
    of [primorial]. *)
Definition grid_failures (prime_set : gset Z) (primorial : Z) (l : list Z)
    : Z :=
  py_len (filter (λ q, CFR.grid_fails prime_set q primorial = true) l).

(** Every entry of a tally sits under a distance from 2 to 2000 outside
    the prime set and counts at least one failure. *)
Definition composite_keys {A : Type} (prime_set : gset Z) (count : A → Z)
    (d : gmap Z A) : Prop :=
  ∀ k e, d !! k = Some e → 2 ≤ k ≤ 2000 ∧ (k ∉ prime_set) ∧ 1 ≤ count e.

(** ** Invariants of the main loops *)

(** The residue tables keep the keys they start with. *)
Definition has_residues {A : Type} (modulus : Z) (d : gmap Z A) : Prop :=
  ∀ r, is_Some (d !! r) ↔ 0 ≤ r < modulus.

Definition gap_tables_keyed (st : GapResidue.state) : Prop :=
  has_residues 6 (GapResidue.gap_stats_mod6 st)
  ∧ has_residues 30 (GapResidue.gap_stats_mod30 st)
  ∧ has_residues 210 (GapResidue.gap_stats_mod210 st).

(** What the three tables hold after the passes up to index [i]. *)
Definition gap_tables_sum (prime_list : list Z) (i : Z)
    (st : GapResidue.state) : Prop :=
  GapResidue.total_anchors_analyzed st = i - START_INDEX
  ∧ stat_total GapCorr.count (GapResidue.gap_stats_mod6 st) = i - START_INDEX
  ∧ stat_total GapCorr.count (GapResidue.gap_stats_mod30 st) = i - START_INDEX
  ∧ stat_total GapCorr.count (GapResidue.gap_stats_mod210 st) = i - START_INDEX
  ∧ ∀ first last,
      py_index prime_list START_INDEX = Some first →
      py_index prime_list i = Some last →
      stat_total GapCorr.gap_sum (GapResidue.gap_stats_mod6 st) = last - first
      ∧ stat_total GapCorr.gap_sum (GapResidue.gap_stats_mod30 st)
        = last - first
      ∧ stat_total GapCorr.gap_sum (GapResidue.gap_stats_mod210 st)
        = last - first.

(** What test 6 holds after the passes up to index [i]. *)
Definition gap_corr_sum (prime_list : list Z) (i : Z) (st : GapCorr.state)
    : Prop :=
  GapCorr.total_anchors_analyzed st = i - START_INDEX
  ∧ stat_total GapCorr.count (GapCorr.gap_stats_by_k st)
    = GapCorr.total_law_I_failures st
  ∧ 0 ≤ GapCorr.total_law_I_failures st ≤ i - START_INDEX
  ∧ ∀ first last,
      py_index prime_list START_INDEX = Some first →
      py_index prime_list i = Some last →
      GapCorr.total_gap_sum_overall st = last - first.

(** The counts of test 2 after the passes up to index [i]. *)
Definition classifier_counts (i : Z) (st : Classifier.state) : Prop :=
  Z.of_nat (length (Classifier.violations_p2 st))
    ≤ dd_sum (Classifier.p2_failures_by_k st)
  ∧ Z.of_nat (length (Classifier.violations_p3 st))
    ≤ dd_sum (Classifier.p3_failures_by_k st)
  ∧ Z.of_nat (length (Classifier.violations_p4 st))
    ≤ dd_sum (Classifier.p4_failures_by_k st)
  ∧ dd_sum (Classifier.p4_failures_by_k st)
    ≤ dd_sum (Classifier.p3_failures_by_k st)
  ∧ dd_sum (Classifier.p3_failures_by_k st)
    ≤ dd_sum (Classifier.p2_failures_by_k st)
  ∧ dd_sum (Classifier.p2_failures_by_k st)
    ≤ Classifier.total_law_I_failures st
  ∧ Classifier.total_law_I_failures st ≤ i - START_INDEX.

(** The anchor at index [i] is [S], its nearest member of the prime set
    lies at distance [k] within the cap, and [k] is composite for the
    script. *)
Definition failure_at (prime_list : list Z) (prime_set : gset Z)
    (cap i S k : Z) : Prop :=
  anchor_at prime_list i = Some S
  ∧ least_hit (in_set prime_set) (in_set prime_set) cap S k
  ∧ is_k_composite prime_set k = true.

(** The event describes the failure at its index, with the neighbour the
    search records. *)
Definition records_failure (prime_list : list Z) (prime_set : gset Z)
    (cap : Z) (ev : failure_event) : Prop :=
  failure_at prime_list prime_set cap (n_index ev) (S_n ev) (k_composite ev)
  ∧ q_prime ev =
    if in_set prime_set (S_n ev - k_composite ev)
    then S_n ev - k_composite ev else S_n ev + k_composite ev.

(** The list holds exactly the failures below index [i] that meet the
    filter's condition. *)
Definition exact_upto (prime_list : list Z) (prime_set : gset Z)
    (viol : Classifier.state → list failure_event) (c : Z → Z → bool)
    (i : Z) (st : Classifier.state) : Prop :=
  ∀ ev, ev ∈ viol st
        ↔ START_INDEX ≤ n_index ev < i
          ∧ records_failure prime_list prime_set 2000 ev
          ∧ c (S_n ev) (k_composite ev) = true.

(** The keys of the 30-table that 3 or 5 divides are the distances of the
    events in [violations_p3]. *)
Definition forbidden_keys_logged (st : Classifier.state) : Prop :=
  ∀ k, is_Some (Classifier.p3_failures_by_k st !! k)
       ∧ (k mod 3 = 0 ∨ k mod 5 = 0)
       ↔ ∃ ev, ev ∈ Classifier.violations_p3 st ∧ k_composite ev = k.

(** The failures held by all residue classes together:
    [sum(sum(failure_data.values()) for failure_data in
    failures_by_residue.values())]. *)
Definition class_totals (failures_by_residue : gmap Z (gmap Z Z)) : Z :=
  map_fold (λ _ failure_data acc, dd_sum failure_data + acc) 0
    failures_by_residue.

Definition residue_tables_sum (i : Z) (st : Residue.state) : Prop :=
  has_residues 30 (Residue.failures_by_residue st)
  ∧ class_totals (Residue.failures_by_residue st)
    = Residue.total_law_I_failures st
  ∧ 0 ≤ Residue.total_law_I_failures st ≤ i - START_INDEX.

(** A row as the loop body builds it: radius within the cap, residues
    computed from its own anchors. *)
Definition row_well_formed (row : Law3.event_data) : Prop :=
  1 ≤ Law3.fix_radius_r row ≤ Law3.MAX_LAW_III_RADIUS
  ∧ Law3.Sn_mod6 row = Law3.Sn row mod 6
  ∧ Law3.Sn_mod30 row = Law3.Sn row mod 30
  ∧ Law3.Sn_mod210 row = Law3.Sn row mod 210
  ∧ Law3.Sfix_mod6 row = Law3.row_S_fix row mod 6
  ∧ Law3.Sfix_mod30 row = Law3.row_S_fix row mod 30
  ∧ Law3.Sfix_mod210 row = Law3.row_S_fix row mod 210.

Definition law3_consistent (st : Law3.state) : Prop :=
  Z.of_nat (length (Law3.correlation_data st))
  + Z.of_nat (length (Law3.law_III_failures st))
  = Law3.total_law_I_failures st
  ∧ 0 ≤ Law3.max_r_observed st ≤ Law3.MAX_LAW_III_RADIUS
  ∧ Forall (λ row, row_well_formed row
                   ∧ Law3.fix_radius_r row ≤ Law3.max_r_observed st)
      (Law3.correlation_data st)
  ∧ (Law3.correlation_data st = [] → Law3.max_r_observed st = 0)
  ∧ (Law3.correlation_data st ≠ [] →
     ∃ row, row ∈ Law3.correlation_data st
            ∧ Law3.fix_radius_r row = Law3.max_r_observed st).

Definition p5_counts (i : Z) (st : P5.state) : Prop :=
  Z.of_nat (length (P5.violations_p5 st))
    ≤ dd_sum (P5.failures_from_perfect_mod2310 st)
  ∧ dd_sum (P5.failures_from_perfect_mod2310 st)
    ≤ P5.perfect_mod2310_anchors_found st
  ∧ dd_sum (P5.failures_from_perfect_mod2310 st)
    ≤ P5.total_law_I_failures st
  ∧ P5.total_law_I_failures st ≤ i - START_INDEX
  ∧ P5.perfect_mod2310_anchors_found st ≤ i - START_INDEX.

(** Every residue class that holds a failure is one the report expects. *)
Definition classes_expected (failures_by_residue : gmap Z (gmap Z Z))
    : Prop :=
  ∀ r failure_data,
    failures_by_residue !! r = Some failure_data →
    failure_data ≠ ∅ →
    r ∈ Residue.possible_S_n_residues.

(** * Properties *)

(** The loops run on a literal fuel; they are unfolded by hand only. *)
Arguments search_loop : simpl never.
Arguments search_either_loop : simpl never.
Arguments KDist.find_k_min : simpl never.
Arguments nearest_prime : simpl never.
Arguments search_either : simpl never.

(** ** The search loops *)

Lemma search_loop_step lo hi cap fuel anchor d :
  search_loop lo hi cap (S fuel) anchor d =
  if lo (anchor - d) then Some (mkOutcome d (anchor - d))
  else if hi (anchor + d) then Some (mkOutcome d (anchor + d))
  else if d + 1 >? cap then Some (mkOutcome 0 0)
  else search_loop lo hi cap fuel anchor (d + 1).
Proof. done. Qed.

Lemma search_either_loop_step prime_set fuel anchor d :
  search_either_loop prime_set (S fuel) anchor d =
  if in_set prime_set (anchor - d) || in_set prime_set (anchor + d)
  then Some d
  else if d + 1 >? 2000 then Some 0
  else search_either_loop prime_set fuel anchor (d + 1).
Proof. done. Qed.

Section search_facts.
Context (lo hi : Z → bool) (cap : Z).

Lemma miss_not_hit anchor d : miss lo hi anchor d → hit lo hi anchor d → False.
Proof. intros [H1 H2] [H|H]; congruence. Qed.

(** The loop always leaves, given as many iterations as there are
    distances left to try. *)
Lemma search_loop_total fuel anchor d :
  (0 < fuel)%nat → cap - d < Z.of_nat fuel →
  is_Some (search_loop lo hi cap fuel anchor d).
Proof.
  revert d. induction fuel as [|fuel IH]; intros d Hpos Hfuel; [lia|].
  rewrite search_loop_step. destruct (lo (anchor - d)); [eauto|].
  destruct (hi (anchor + d)); [eauto|].
  destruct (Z.gtb_spec (d + 1) cap); [eauto|].
  apply IH; lia.
Qed.

(** What the loop returns, whatever the fuel: either the skip value after
    missing at every distance tried, or the first distance that hits,
    with the lower candidate preferred. *)
Lemma search_loop_spec fuel anchor d o :
  search_loop lo hi cap fuel anchor d = Some o →
  (o = mkOutcome 0 0 ∧
   ∀ d', d ≤ d' → d' ≤ cap ∨ d' = d → miss lo hi anchor d') ∨
  (d ≤ min_distance_k o ∧
   (min_distance_k o ≤ cap ∨ min_distance_k o = d) ∧
   (∀ d', d ≤ d' < min_distance_k o → miss lo hi anchor d') ∧
   ((lo (anchor - min_distance_k o) = true ∧
     found_prime o = anchor - min_distance_k o) ∨
    (lo (anchor - min_distance_k o) = false ∧
     hi (anchor + min_distance_k o) = true ∧
     found_prime o = anchor + min_distance_k o))).
Proof.
  revert d. induction fuel as [|fuel IH]; intros d; [done|].
  rewrite search_loop_step.
  destruct (lo (anchor - d)) eqn:Hlo.
  { intros [= <-]. right. simpl. repeat split; auto; lia. }
  destruct (hi (anchor + d)) eqn:Hhi.
  { intros [= <-]. right. simpl. repeat split; auto; lia. }
  destruct (Z.gtb_spec (d + 1) cap) as [Hcap|Hcap].
  { intros [= <-]. left. split; [done|].
    intros d' Hd [? | ->]; [|by split].
    assert (d' = d) as -> by lia. by split. }
  intros Hrec. destruct (IH _ Hrec) as [[-> Hmiss]|(Hle & Hk & Hmiss & Hfound)].
  - left. split; [done|]. intros d' Hd Hd'.
    destruct (decide (d' = d)) as [-> |]; [by split|].
    apply Hmiss; lia.
  - right. split; [lia|]. split; [lia|]. split; [|done].
    intros d' Hd'. destruct (decide (d' = d)) as [-> |]; [by split|].
    apply Hmiss; lia.
Qed.

(** The fuel [nearest_prime] passes is always enough. *)
Lemma nearest_prime_total anchor : is_Some (nearest_prime lo hi cap anchor).
Proof. apply search_loop_total; lia. Qed.

(** Started at distance 1, the skip value [0] and a found distance cannot
    be confused. *)
Lemma nearest_prime_spec anchor o :
  1 ≤ cap →
  nearest_prime lo hi cap anchor = Some o →
  (o = mkOutcome 0 0 ∧ ∀ d, 1 ≤ d ≤ cap → miss lo hi anchor d) ∨
  (least_hit lo hi cap anchor (min_distance_k o) ∧
   found_prime o =
     if lo (anchor - min_distance_k o) then anchor - min_distance_k o
     else anchor + min_distance_k o).
Proof.
  intros Hcap Hrun. apply search_loop_spec in Hrun.
  destruct Hrun as [[-> Hmiss]|(Hle & Hk & Hmiss & Hfound)].
  - left. split; [done|]. intros d Hd. apply Hmiss; lia.
  - right. split.
    + split; [lia|]. split; [|done].
      destruct Hfound as [[? _]|(_ & ? & _)]; [by left|by right].
    + destruct Hfound as [[-> ->]|(-> & _ & ->)]; done.
Qed.

Lemma least_hit_unique anchor k k' :
  least_hit lo hi cap anchor k → least_hit lo hi cap anchor k' → k = k'.
Proof.
  intros (Hk & Hhit & Hmiss) (Hk' & Hhit' & Hmiss').
  destruct (Z.lt_trichotomy k k') as [?|[?|?]]; [|done|].
  - exfalso. eapply miss_not_hit; [apply (Hmiss' k)|done]. lia.
  - exfalso. eapply miss_not_hit; [apply (Hmiss k')|done]. lia.
Qed.

(** No candidate within the cap: the search returns the skip value. *)
Lemma nearest_prime_skip anchor :
  1 ≤ cap → (∀ d, 1 ≤ d ≤ cap → miss lo hi anchor d) →
  nearest_prime lo hi cap anchor = Some (mkOutcome 0 0).
Proof.
  intros Hcap Hmiss.
  destruct (nearest_prime_total anchor) as [o Ho]. rewrite Ho. f_equal.
  destruct (nearest_prime_spec _ _ Hcap Ho) as [[-> _]|[(Hk & Hhit & _) _]];
    [done|].
  exfalso. eapply miss_not_hit; [apply (Hmiss (min_distance_k o))|]; done.
Qed.

(** A least hit within the cap: the search returns it, with the lower
    candidate when that one is accepted. *)
Lemma nearest_prime_found anchor k :
  least_hit lo hi cap anchor k →
  nearest_prime lo hi cap anchor =
    Some (mkOutcome k (if lo (anchor - k) then anchor - k else anchor + k)).
Proof.
  intros Hk.
  assert (1 ≤ cap) as Hcap by (destruct Hk as [? _]; lia).
  destruct (nearest_prime_total anchor) as [o Ho]. rewrite Ho. f_equal.
  destruct (nearest_prime_spec _ _ Hcap Ho) as [[-> Hmiss]|[Hk' Hfound]].
  - exfalso. destruct Hk as (? & Hhit & _).
    eapply miss_not_hit; [apply (Hmiss k)|]; done.
  - destruct o as [k' q]; simpl in *.
    rewrite (least_hit_unique _ _ _ Hk Hk'). by rewrite Hfound.
Qed.

End search_facts.

Lemma search_loop_fuel_mono lo hi cap fuel anchor d o :
  search_loop lo hi cap fuel anchor d = Some o →
  search_loop lo hi cap (S fuel) anchor d = Some o.
Proof.
  revert d. induction fuel as [|fuel IH]; intros d; [done|].
  intros H. rewrite search_loop_step in H. rewrite search_loop_step.
  destruct (lo (anchor - d)); [done|].
  destruct (hi (anchor + d)); [done|].
  destruct (d + 1 >? cap); [done|].
  by apply IH.
Qed.

Lemma find_k_min_step prime_set fuel anchor d :
  KDist.find_k_min prime_set (S fuel) anchor d =
  if d >? 2000 then Some (mkOutcome 0 0)
  else if KDist.is_prime (anchor - d) prime_set then
    Some (mkOutcome d (anchor - d))
  else if KDist.is_prime (anchor + d) prime_set then
    Some (mkOutcome d (anchor + d))
  else KDist.find_k_min prime_set fuel anchor (d + 1).
Proof. done. Qed.

(** The distribution script tests its bound on entry instead of after the
    increment; it needs one more iteration and returns the same. *)
Lemma find_k_min_search_loop prime_set fuel anchor d o :
  d ≤ 2000 →
  search_loop (λ q, KDist.is_prime q prime_set) (λ q, KDist.is_prime q prime_set)
    2000 fuel anchor d = Some o →
  KDist.find_k_min prime_set (S fuel) anchor d = Some o.
Proof.
  revert d. induction fuel as [|fuel IH]; intros d Hd; [done|].
  intros H. rewrite search_loop_step in H. rewrite find_k_min_step.
  destruct (Z.gtb_spec d 2000); [lia|].
  destruct (KDist.is_prime (anchor - d) prime_set); [done|].
  destruct (KDist.is_prime (anchor + d) prime_set); [done|].
  destruct (Z.gtb_spec (d + 1) 2000) as [Hcap|Hcap].
  - rewrite find_k_min_step.
    destruct (Z.gtb_spec (d + 1) 2000); [done|lia].
  - apply IH; [lia|done].
Qed.

Lemma find_k_min_nearest prime_set anchor :
  KDist.find_k_min prime_set 2001 anchor 1 =
  nearest_prime (λ q, KDist.is_prime q prime_set)
    (λ q, KDist.is_prime q prime_set) 2000 anchor.
Proof.
  set (isp := λ q, KDist.is_prime q prime_set).
  destruct (search_loop_total isp isp 2000 2000 anchor 1) as [o Ho]; [lia..|].
  unfold nearest_prime.
  change (S (Z.to_nat 2000)) with (S 2000).
  rewrite (search_loop_fuel_mono _ _ _ _ _ _ _ Ho).
  change 2001%nat with (S 2000).
  by apply find_k_min_search_loop.
Qed.

(** The loop of test 4 that tests both candidates at once finds the same
    distance as the ordered loop. *)
Lemma search_either_loop_eq prime_set fuel anchor d :
  search_either_loop prime_set fuel anchor d =
  min_distance_k <$>
    search_loop (in_set prime_set) (in_set prime_set) 2000 fuel anchor d.
Proof.
  revert d. induction fuel as [|fuel IH]; intros d; [done|].
  rewrite search_either_loop_step, search_loop_step.
  destruct (in_set prime_set (anchor - d)); [done|].
  destruct (in_set prime_set (anchor + d)); [done|].
  cbn [orb]. destruct (d + 1 >? 2000); [done|]. apply IH.
Qed.

Lemma search_either_eq prime_set anchor :
  search_either prime_set anchor =
  min_distance_k <$>
    nearest_prime (in_set prime_set) (in_set prime_set) 2000 anchor.
Proof.
  unfold search_either, nearest_prime.
  change (S (Z.to_nat 2000)) with 2001%nat.
  apply search_either_loop_eq.
Qed.

(** ** Membership tests *)

Lemma in_set_true prime_set x : in_set prime_set x = true ↔ x ∈ prime_set.
Proof. apply bool_decide_eq_true. Qed.

Lemma in_set_false prime_set x : in_set prime_set x = false ↔ x ∉ prime_set.
Proof. apply bool_decide_eq_false. Qed.

Lemma is_prime_true prime_set x :
  KDist.is_prime x prime_set = true ↔ 2 ≤ x ∧ x ∈ prime_set.
Proof.
  unfold KDist.is_prime. destruct (Z.ltb_spec x 2).
  - split; [done|lia].
  - rewrite in_set_true. split; [done|]. by intros [_ ?].
Qed.

Lemma is_k_composite_true prime_set k :
  is_k_composite prime_set k = true ↔ 1 < k ∧ k ∉ prime_set.
Proof.
  unfold is_k_composite.
  rewrite andb_true_iff, negb_true_iff, in_set_false.
  destruct (Z.gtb_spec k 1); split; intros [? ?]; (done || lia).
Qed.

Lemma is_clean_k_true prime_set k :
  Law3.is_clean_k k prime_set = true ↔ clean_distance prime_set k.
Proof.
  unfold Law3.is_clean_k, clean_distance. destruct (Z.eqb_spec k 1) as [->|Hne].
  - split; auto.
  - destruct (Z.ltb_spec k 2).
    + split; [done|]. intros [?|[? _]]; lia.
    + rewrite in_set_true. split; [auto|]. intros [?|[_ ?]]; [lia|done].
Qed.

(** ** Law I *)

(** C2.  Law I classifier dichotomy.  Whenever a search (the shared loop
    with any tests and cap, or the loop of the distribution script)
    leaves a non-zero [min_distance_k], that distance is at least 1; the
    success test of the distribution script holds exactly when the distance
    is 1 or a member of the prime set; the composite-failure test of the
    other scripts is its negation, so exactly one of the two holds; and a
    composite failure has a distance outside the prime set and
    different from 1. *)
Theorem law_I_dichotomy (prime_set : gset Z) (lo hi : Z → bool)
    (cap anchor : Z) (o : SearchOutcome) :
  nearest_prime lo hi cap anchor = Some o
  ∨ KDist.find_k_min prime_set 2001 anchor 1 = Some o →
  min_distance_k o ≠ 0 →
  1 ≤ min_distance_k o
  ∧ (KDist.is_law_I_success prime_set (min_distance_k o) = true
     ↔ min_distance_k o = 1 ∨ min_distance_k o ∈ prime_set)
  ∧ is_k_composite prime_set (min_distance_k o)
    = negb (KDist.is_law_I_success prime_set (min_distance_k o))
  ∧ (is_k_composite prime_set (min_distance_k o) = true
     → (min_distance_k o ∉ prime_set) ∧ min_distance_k o ≠ 1).
Proof.
  intros Hrun Hfound.
  assert (1 ≤ min_distance_k o) as Hk.
  { assert (∃ lo' hi' cap',
              search_loop lo' hi' cap' (S (Z.to_nat cap')) anchor 1 = Some o)
      as (lo' & hi' & cap' & Hloop).
    { destruct Hrun as [H|H]; [by exists lo, hi, cap|].
      rewrite find_k_min_nearest in H. do 3 eexists. exact H. }
    apply search_loop_spec in Hloop.
    destruct Hloop as [[-> _]|(? & _)]; [done|lia]. }
  split; [done|].
  assert (KDist.is_law_I_success prime_set (min_distance_k o) = true
          ↔ min_distance_k o = 1 ∨ min_distance_k o ∈ prime_set) as Hsucc.
  { unfold KDist.is_law_I_success.
    rewrite orb_true_iff, Z.eqb_eq, is_prime_true.
    split; [intros [?|[_ ?]]; [by left|by right]|].
    intros [?|?]; [by left|].
    destruct (decide (min_distance_k o = 1)); [by left|].
    right. split; [lia|done]. }
  split; [done|].
  assert (is_k_composite prime_set (min_distance_k o)
          = negb (KDist.is_law_I_success prime_set (min_distance_k o))) as Hneg.
  { apply eq_true_iff_eq.
    rewrite negb_true_iff, <- not_true_iff_false, Hsucc, is_k_composite_true.
    split.
    - intros [? ?] [?|?]; [lia|done].
    - intros Hn. split; [|by intros ?; apply Hn; right].
      destruct (decide (min_distance_k o = 1)); [|lia].
      exfalso. apply Hn. by left. }
  split; [done|].
  rewrite is_k_composite_true. intros [? ?]. split; [done|lia].
Qed.

Lemma law_I_dichotomy_witness :
  let o := mkOutcome 9 523 in
  let prime_set := prime_set_below_2600 in
  (nearest_prime (in_set prime_set) (in_set prime_set) 2000 532 = Some o
   ∨ KDist.find_k_min prime_set 2001 532 1 = Some o)
  ∧ min_distance_k o ≠ 0
  ∧ 1 ≤ min_distance_k o
  ∧ is_k_composite prime_set (min_distance_k o)
    = negb (KDist.is_law_I_success prime_set (min_distance_k o)).
Proof.
  intros o prime_set.
  assert (nearest_prime (in_set prime_set) (in_set prime_set) 2000 532 = Some o
          ∨ KDist.find_k_min prime_set 2001 532 1 = Some o) as Hrun
    by (left; vm_compute; reflexivity).
  assert (min_distance_k o ≠ 0) as Hfound by (simpl; lia).
  split; [exact Hrun|]. split; [exact Hfound|].
  pose proof (law_I_dichotomy prime_set _ _ _ _ _ Hrun Hfound)
    as (Hk & _ & Hneg & _).
  split; [exact Hk|exact Hneg].
Defined.

(** ** Tie-break *)

(** Testing the upper candidate first is the same loop run on the tests
    reflected through the anchor. *)
Lemma hit_reflect lo hi anchor d :
  hit (λ q, hi (2 * anchor - q)) (λ q, lo (2 * anchor - q)) anchor d
  ↔ hit lo hi anchor d.
Proof.
  unfold hit.
  replace (2 * anchor - (anchor - d)) with (anchor + d) by lia.
  replace (2 * anchor - (anchor + d)) with (anchor - d) by lia.
  tauto.
Qed.

Lemma miss_reflect lo hi anchor d :
  miss (λ q, hi (2 * anchor - q)) (λ q, lo (2 * anchor - q)) anchor d
  ↔ miss lo hi anchor d.
Proof.
  unfold miss.
  replace (2 * anchor - (anchor - d)) with (anchor + d) by lia.
  replace (2 * anchor - (anchor + d)) with (anchor - d) by lia.
  tauto.
Qed.

Lemma least_hit_reflect lo hi cap anchor k :
  least_hit (λ q, hi (2 * anchor - q)) (λ q, lo (2 * anchor - q)) cap anchor k
  ↔ least_hit lo hi cap anchor k.
Proof.
  unfold least_hit. rewrite hit_reflect.
  split; intros (? & ? & Hmiss); (split; [done|]); (split; [done|]);
    intros d Hd; apply miss_reflect, Hmiss, Hd.
Qed.

Lemma nearest_prime_order_blind lo hi cap anchor :
  1 ≤ cap →
  min_distance_k <$> nearest_prime lo hi cap anchor =
  min_distance_k <$>
    nearest_prime (λ q, hi (2 * anchor - q)) (λ q, lo (2 * anchor - q))
      cap anchor.
Proof.
  intros Hcap.
  destruct (nearest_prime_total lo hi cap anchor) as [o Ho].
  destruct (nearest_prime_spec _ _ _ _ _ Hcap Ho) as [[-> Hmiss]|[Hk _]].
  - rewrite Ho, nearest_prime_skip; [done..|].
    intros d Hd. by apply miss_reflect, Hmiss.
  - rewrite Ho, (nearest_prime_found _ _ _ _ (min_distance_k o)); [done|].
    by apply least_hit_reflect.
Qed.

(** C3.  Tie-break determinism.  When a search with cap at least 1 finds
    a distance [k], then [k] is the least distance in [1..cap] at which
    the lower or the upper candidate passes its test; the recorded
    neighbour is the lower candidate [anchor - k] whenever that one passes
    (so also when both pass), and the upper candidate only when the lower
    one fails.  The distance does not depend on the order of the two
    tests: the same loop with the upper candidate tested first, and the
    loop of test 4 that tests both at once, leave the same distance.  The
    loop of the distribution script is the shared loop on [is_prime]. *)
Theorem tie_break_prefers_lower (prime_set : gset Z) (lo hi : Z → bool)
    (cap anchor : Z) (o : SearchOutcome) :
  1 ≤ cap →
  nearest_prime lo hi cap anchor = Some o →
  min_distance_k o ≠ 0 →
  least_hit lo hi cap anchor (min_distance_k o)
  ∧ (lo (anchor - min_distance_k o) = true →
     hi (anchor + min_distance_k o) = true →
     found_prime o = anchor - min_distance_k o)
  ∧ (lo (anchor - min_distance_k o) = true →
     found_prime o = anchor - min_distance_k o)
  ∧ (lo (anchor - min_distance_k o) = false →
     found_prime o = anchor + min_distance_k o)
  ∧ min_distance_k <$>
      nearest_prime (λ q, hi (2 * anchor - q)) (λ q, lo (2 * anchor - q))
        cap anchor
    = Some (min_distance_k o)
  ∧ search_either prime_set anchor =
    min_distance_k <$>
      nearest_prime (in_set prime_set) (in_set prime_set) 2000 anchor
  ∧ KDist.find_k_min prime_set 2001 anchor 1 =
    nearest_prime (λ q, KDist.is_prime q prime_set)
      (λ q, KDist.is_prime q prime_set) 2000 anchor.
Proof.
  intros Hcap Hrun Hfound.
  destruct (nearest_prime_spec _ _ _ _ _ Hcap Hrun) as [[-> _]|[Hk Hq]];
    [done|].
  split; [done|].
  split; [by intros Hlo _; rewrite Hq, Hlo|].
  split; [by intros Hlo; rewrite Hq, Hlo|].
  split; [by intros Hlo; rewrite Hq, Hlo|].
  split; [by rewrite <- nearest_prime_order_blind, Hrun|].
  split; [apply search_either_eq|apply find_k_min_nearest].
Qed.

(** Anchor 12 = 5 + 7 has the primes 11 and 13 at distance 1 on both
    sides; the lower one is recorded. *)
Lemma tie_break_prefers_lower_witness :
  let prime_set := prime_set_below_2600 in
  let o := mkOutcome 1 11 in
  1 ≤ 2000
  ∧ nearest_prime (in_set prime_set) (in_set prime_set) 2000 12 = Some o
  ∧ min_distance_k o ≠ 0
  ∧ in_set prime_set (12 - 1) = true
  ∧ in_set prime_set (12 + 1) = true
  ∧ found_prime o = 12 - min_distance_k o.
Proof.
  intros prime_set o.
  assert (1 ≤ 2000) as Hcap by lia.
  assert (nearest_prime (in_set prime_set) (in_set prime_set) 2000 12 = Some o)
    as Hrun by (vm_compute; reflexivity).
  assert (min_distance_k o ≠ 0) as Hfound by (simpl; lia).
  assert (in_set prime_set (12 - 1) = true) as Hlo by (vm_compute; reflexivity).
  assert (in_set prime_set (12 + 1) = true) as Hhi by (vm_compute; reflexivity).
  repeat (split; [assumption|]).
  pose proof (tie_break_prefers_lower prime_set _ _ _ _ _ Hcap Hrun Hfound)
    as (_ & Htie & _).
  exact (Htie Hlo Hhi).
Defined.

(** ** The violation detector *)

Lemma mod_eqb_divide m k : m ≠ 0 → (k mod m =? 0) = true ↔ (m | k).
Proof. intros Hm. rewrite Z.eqb_eq. by apply Z.mod_divide. Qed.

(** A list that a guarded [append] may have grown by one event. *)
Lemma appended_iff {A} (b : bool) (P : Prop) (old new : list A) (x : A) :
  new = (if b then old ++ [x] else old) →
  (b = true ↔ P) →
  (new = old ++ [x] ↔ P) ∧ (¬ P → new = old).
Proof.
  intros -> Hb. destruct b.
  - split; [|by intros Hn; destruct Hn; apply Hb].
    split; [by intros _; apply Hb|done].
  - split; [|done]. split; [|by intros HP%Hb].
    intros H. apply (f_equal length) in H.
    rewrite length_app in H. simpl in H. lia.
Qed.

Lemma classify_violations_p2 anchor k ev st :
  Classifier.violations_p2 (Classifier.classify anchor k ev st) =
  if (anchor mod 6 =? 0) && (k mod 3 =? 0)
  then Classifier.violations_p2 st ++ [ev] else Classifier.violations_p2 st.
Proof.
  unfold Classifier.classify.
  destruct (anchor mod 6 =? 0), (anchor mod 30 =? 0), (anchor mod 210 =? 0);
    done.
Qed.

Lemma classify_violations_p3 anchor k ev st :
  Classifier.violations_p3 (Classifier.classify anchor k ev st) =
  if (anchor mod 30 =? 0) && ((k mod 3 =? 0) || (k mod 5 =? 0))
  then Classifier.violations_p3 st ++ [ev] else Classifier.violations_p3 st.
Proof.
  unfold Classifier.classify.
  destruct (anchor mod 6 =? 0), (anchor mod 30 =? 0), (anchor mod 210 =? 0);
    done.
Qed.

Lemma classify_violations_p4 anchor k ev st :
  Classifier.violations_p4 (Classifier.classify anchor k ev st) =
  if (anchor mod 210 =? 0)
     && ((k mod 3 =? 0) || (k mod 5 =? 0) || (k mod 7 =? 0))
  then Classifier.violations_p4 st ++ [ev] else Classifier.violations_p4 st.
Proof.
  unfold Classifier.classify.
  destruct (anchor mod 6 =? 0), (anchor mod 30 =? 0), (anchor mod 210 =? 0);
    done.
Qed.

(** The body of test 2 on an anchor whose search found a composite
    distance. *)
Lemma classifier_body_failure prime_list prime_set i p_n p_n_plus_1 o st :
  py_index prime_list i = Some p_n →
  py_index prime_list (i + 1) = Some p_n_plus_1 →
  nearest_prime (in_set prime_set) (in_set prime_set) 2000
    (p_n + p_n_plus_1) = Some o →
  min_distance_k o ≠ 0 →
  is_k_composite prime_set (min_distance_k o) = true →
  Classifier.body prime_list prime_set i st =
  Some (Continue
          (Classifier.classify (p_n + p_n_plus_1) (min_distance_k o)
             (mkEvent i (p_n + p_n_plus_1) (found_prime o) (min_distance_k o))
             (Classifier.count_failure st))).
Proof.
  intros Hp Hq Hrun Hk Hcomp. unfold Classifier.body.
  rewrite Hp, Hq. simpl. rewrite Hrun. simpl.
  destruct (Z.eqb_spec (min_distance_k o) 0); [done|].
  by rewrite Hcomp.
Qed.

(** The body of test 4 on a perfect anchor whose search found a composite
    distance. *)
Lemma p5_body_failure prime_list prime_set i p_n p_n_plus_1 o st :
  py_index prime_list i = Some p_n →
  py_index prime_list (i + 1) = Some p_n_plus_1 →
  (p_n + p_n_plus_1) mod 2310 = 0 →
  nearest_prime (in_set prime_set) (in_set prime_set) 3000
    (p_n + p_n_plus_1) = Some o →
  min_distance_k o ≠ 0 →
  is_k_composite prime_set (min_distance_k o) = true →
  ∃ st',
    P5.body prime_list prime_set i st = Some (Continue st')
    ∧ P5.total_law_I_failures st' = P5.total_law_I_failures st + 1
    ∧ P5.perfect_mod2310_anchors_found st'
      = P5.perfect_mod2310_anchors_found st + 1
    ∧ P5.failures_from_perfect_mod2310 st'
      = dd_incr (P5.failures_from_perfect_mod2310 st) (min_distance_k o)
    ∧ P5.violations_p5 st' =
      if (min_distance_k o mod 3 =? 0) || (min_distance_k o mod 5 =? 0)
         || (min_distance_k o mod 7 =? 0) || (min_distance_k o mod 11 =? 0)
      then P5.violations_p5 st
             ++ [mkEvent i (p_n + p_n_plus_1) (found_prime o) (min_distance_k o)]
      else P5.violations_p5 st.
Proof.
  intros Hp Hq Hperfect Hrun Hk Hcomp. unfold P5.body.
  rewrite Hp, Hq. simpl. rewrite Hperfect. simpl. rewrite Hrun. simpl.
  destruct (Z.eqb_spec (min_distance_k o) 0); [done|].
  rewrite Hcomp. eexists. split; [done|]. done.
Qed.

(** The body of test 4 on an anchor that is not perfect: only the overall
    failure count can change. *)
Lemma p5_body_imperfect prime_list prime_set i p_n p_n_plus_1 st :
  py_index prime_list i = Some p_n →
  py_index prime_list (i + 1) = Some p_n_plus_1 →
  (p_n + p_n_plus_1) mod 2310 ≠ 0 →
  ∃ k,
    search_either prime_set (p_n + p_n_plus_1) = Some k
    ∧ P5.body prime_list prime_set i st =
      Some (Continue
              (P5.mkState
                 (if (k >? 0) && is_k_composite prime_set k
                  then P5.total_law_I_failures st + 1
                  else P5.total_law_I_failures st)
                 (P5.perfect_mod2310_anchors_found st)
                 (P5.failures_from_perfect_mod2310 st)
                 (P5.violations_p5 st))).
Proof.
  intros Hp Hq Himperfect. unfold P5.body.
  rewrite Hp, Hq. simpl.
  destruct (Z.eqb_spec ((p_n + p_n_plus_1) mod 2310) 0); [done|].
  destruct (nearest_prime_total (in_set prime_set) (in_set prime_set) 2000
              (p_n + p_n_plus_1)) as [o Ho].
  rewrite search_either_eq, Ho. simpl. exists (min_distance_k o).
  split; [done|].
  destruct (min_distance_k o >? 0); simpl; [|by destruct st].
  destruct (is_k_composite prime_set (min_distance_k o)); [done|by destruct st].
Qed.

(** C1.  Violation detector.  For a composite-failure event at index [i]
    with anchor [S_n = p_n + p_{n+1}] and minimal distance [k], test 2
    appends the event to its violation list for 6 exactly when 6 divides
    [S_n] and 3 divides [k]; for 30 exactly when 30 divides [S_n] and 3 or
    5 divides [k]; for 210 exactly when 210 divides [S_n] and 3, 5 or 7
    divides [k].  Test 4 appends it to its list for 2310 exactly when 2310
    divides [S_n] and 3, 5, 7 or 11 divides [k], and an anchor that 2310
    does not divide never reaches that list.  Otherwise the lists are left
    as they were; divisibility by 2 is tested nowhere. *)
Theorem violation_detector_iff (prime_list : list Z) (prime_set : gset Z)
    (i p_n p_n_plus_1 : Z) :
  py_index prime_list i = Some p_n →
  py_index prime_list (i + 1) = Some p_n_plus_1 →
  let anchor_S_n := p_n + p_n_plus_1 in
  (∀ o st,
     nearest_prime (in_set prime_set) (in_set prime_set) 2000 anchor_S_n
       = Some o →
     min_distance_k o ≠ 0 →
     is_k_composite prime_set (min_distance_k o) = true →
     let k := min_distance_k o in
     let ev := mkEvent i anchor_S_n (found_prime o) k in
     ∃ st',
       Classifier.body prime_list prime_set i st = Some (Continue st')
       ∧ recorded_iff (Classifier.violations_p2 st)
           (Classifier.violations_p2 st') ev
           (anchor_S_n mod 6 = 0 ∧ (3 | k))
       ∧ recorded_iff (Classifier.violations_p3 st)
           (Classifier.violations_p3 st') ev
           (anchor_S_n mod 30 = 0 ∧ ((3 | k) ∨ (5 | k)))
       ∧ recorded_iff (Classifier.violations_p4 st)
           (Classifier.violations_p4 st') ev
           (anchor_S_n mod 210 = 0 ∧ ((3 | k) ∨ (5 | k) ∨ (7 | k))))
  ∧ (∀ o st,
       anchor_S_n mod 2310 = 0 →
       nearest_prime (in_set prime_set) (in_set prime_set) 3000 anchor_S_n
         = Some o →
       min_distance_k o ≠ 0 →
       is_k_composite prime_set (min_distance_k o) = true →
       let k := min_distance_k o in
       let ev := mkEvent i anchor_S_n (found_prime o) k in
       ∃ st',
         P5.body prime_list prime_set i st = Some (Continue st')
         ∧ recorded_iff (P5.violations_p5 st) (P5.violations_p5 st') ev
             (anchor_S_n mod 2310 = 0
              ∧ ((3 | k) ∨ (5 | k) ∨ (7 | k) ∨ (11 | k))))
  ∧ (∀ st,
       anchor_S_n mod 2310 ≠ 0 →
       ∃ st',
         P5.body prime_list prime_set i st = Some (Continue st')
         ∧ P5.violations_p5 st' = P5.violations_p5 st).
Proof.
  intros Hp Hq anchor_S_n. split; [|split].
  - intros o st Hrun Hk Hcomp k ev. eexists. split.
    { by apply (classifier_body_failure _ _ _ p_n p_n_plus_1 o). }
    fold anchor_S_n k ev.
    split; [|split]; eapply appended_iff.
    + rewrite classify_violations_p2. reflexivity.
    + rewrite andb_true_iff, Z.eqb_eq, mod_eqb_divide; done.
    + rewrite classify_violations_p3. reflexivity.
    + rewrite andb_true_iff, orb_true_iff, Z.eqb_eq, !mod_eqb_divide; done.
    + rewrite classify_violations_p4. reflexivity.
    + rewrite andb_true_iff, !orb_true_iff, Z.eqb_eq, !mod_eqb_divide by done.
      tauto.
  - intros o st Hperfect Hrun Hk Hcomp k ev.
    destruct (p5_body_failure _ _ _ _ _ o st Hp Hq Hperfect Hrun Hk Hcomp)
      as (st' & Hbody & _ & _ & _ & Hviol).
    exists st'. split; [done|].
    eapply appended_iff; [exact Hviol|].
    rewrite !orb_true_iff, !mod_eqb_divide by done.
    fold anchor_S_n k. tauto.
  - intros st Himperfect.
    destruct (p5_body_imperfect _ prime_set _ _ _ st Hp Hq Himperfect)
      as (k & _ & Hbody).
    eexists. split; [exact Hbody|done].
Qed.

(** Anchor 532 = 263 + 269 at index 55 is the first composite failure
    (distance 9 to 523); 6 does not divide 532, so no list grows. *)
Lemma violation_detector_iff_witness :
  py_index primes_below_2600 55 = Some 263
  ∧ py_index primes_below_2600 (55 + 1) = Some 269
  ∧ ∃ st',
      Classifier.body primes_below_2600 prime_set_below_2600 55
        Classifier.init = Some (Continue st')
      ∧ Classifier.violations_p2 st' = [].
Proof.
  assert (py_index primes_below_2600 55 = Some 263) as Hp by reflexivity.
  assert (py_index primes_below_2600 (55 + 1) = Some 269) as Hq
    by reflexivity.
  split; [exact Hp|]. split; [exact Hq|].
  destruct (violation_detector_iff primes_below_2600 prime_set_below_2600
              55 263 269 Hp Hq) as [Hclassifier _].
  destruct (Hclassifier (mkOutcome 9 523) Classifier.init)
    as (st' & Hbody & [_ Hp2] & _).
  - vm_compute; reflexivity.
  - simpl; lia.
  - vm_compute; reflexivity.
  - exists st'. split; [exact Hbody|].
    apply Hp2. intros [H _]. vm_compute in H. discriminate H.
Defined.

Example classify_records_violation :
  let ev := mkEvent 7 36 25 9 in
  Classifier.violations_p2 (Classifier.classify 36 9 ev Classifier.init) = [ev]
  ∧ Classifier.violations_p3 (Classifier.classify 36 9 ev Classifier.init) = [].
Proof. done. Qed.

Example classify_ignores_factor_2 :
  let ev := mkEvent 7 210 214 4 in
  Classifier.violations_p2 (Classifier.classify 210 4 ev Classifier.init) = []
  ∧ Classifier.violations_p3 (Classifier.classify 210 4 ev Classifier.init) = []
  ∧ Classifier.violations_p4 (Classifier.classify 210 4 ev Classifier.init) = []
  ∧ dd_get (Classifier.p4_failures_by_k
              (Classifier.classify 210 4 ev Classifier.init)) 4 = 1.
Proof. done. Qed.

(** ** Skipping at the cap *)

Lemma for_range_moves_on {St : Type} (body : Z → St → option (flow St))
    i st st' :
  body i st = Some (Continue st') → moves_on body i st st'.
Proof. intros H. split; [done|]. intros n. simpl. by rewrite H. Qed.

Lemma no_prime_miss prime_set cap anchor :
  no_prime_within prime_set cap anchor →
  ∀ d, 1 ≤ d ≤ cap → miss (in_set prime_set) (in_set prime_set) anchor d.
Proof.
  intros H d Hd. destruct (H d Hd). split; by apply in_set_false.
Qed.

Lemma no_prime_miss_is_prime prime_set cap anchor :
  no_prime_within prime_set cap anchor →
  ∀ d, 1 ≤ d ≤ cap →
    miss (λ q, KDist.is_prime q prime_set) (λ q, KDist.is_prime q prime_set)
      anchor d.
Proof.
  intros H d Hd. destruct (H d Hd).
  split; apply not_true_iff_false; rewrite is_prime_true; by intros [_ ?].
Qed.

Lemma no_prime_miss_law3 prime_set cap anchor :
  no_prime_within prime_set cap anchor →
  ∀ d, 1 ≤ d ≤ cap →
    miss (λ q_lower, (q_lower >? 1) && in_set prime_set q_lower)
      (in_set prime_set) anchor d.
Proof.
  intros H d Hd. destruct (H d Hd). split; simpl.
  - apply andb_false_iff. right. by apply in_set_false.
  - by apply in_set_false.
Qed.

Section skip_facts.
Context (prime_list : list Z) (prime_set : gset Z) (i p_n p_n_plus_1 : Z).
Context (Hp : py_index prime_list i = Some p_n).
Context (Hq : py_index prime_list (i + 1) = Some p_n_plus_1).

Lemma classifier_body_skip st :
  no_prime_within prime_set 2000 (p_n + p_n_plus_1) →
  Classifier.body prime_list prime_set i st = Some (Continue st).
Proof.
  intros Hnone. unfold Classifier.body. rewrite Hp, Hq. simpl.
  rewrite nearest_prime_skip; [done|lia|]. by eapply no_prime_miss.
Qed.

Lemma gapcorr_body_skip st :
  no_prime_within prime_set 2000 (p_n + p_n_plus_1) →
  GapCorr.body prime_list prime_set i st =
  Some (Continue
          (GapCorr.mkState (GapCorr.total_law_I_failures st)
             (GapCorr.gap_stats_by_k st)
             (GapCorr.total_gap_sum_overall st + (p_n_plus_1 - p_n))
             (GapCorr.total_anchors_analyzed st + 1))).
Proof.
  intros Hnone. unfold GapCorr.body. rewrite Hp, Hq. simpl.
  rewrite nearest_prime_skip; [done|lia|]. by eapply no_prime_miss.
Qed.

Lemma kdist_body_skip max_prime_in_set st :
  p_n + p_n_plus_1 + 2000 ≤ max_prime_in_set →
  no_prime_within prime_set 2000 (p_n + p_n_plus_1) →
  KDist.body prime_list prime_set max_prime_in_set i st = Some (Continue st).
Proof.
  intros Hcover Hnone. unfold KDist.body. rewrite Hp, Hq. simpl.
  destruct (Z.gtb_spec (p_n + p_n_plus_1 + 2000) max_prime_in_set); [lia|].
  rewrite find_k_min_nearest, nearest_prime_skip; [done|lia|].
  by eapply no_prime_miss_is_prime.
Qed.

Lemma p5_body_skip_imperfect st :
  (p_n + p_n_plus_1) mod 2310 ≠ 0 →
  no_prime_within prime_set 2000 (p_n + p_n_plus_1) →
  P5.body prime_list prime_set i st = Some (Continue st).
Proof.
  intros Himperfect Hnone. unfold P5.body. rewrite Hp, Hq. simpl.
  destruct (Z.eqb_spec ((p_n + p_n_plus_1) mod 2310) 0); [done|].
  rewrite search_either_eq, nearest_prime_skip; [done|lia|].
  by eapply no_prime_miss.
Qed.

Lemma p5_body_skip_perfect st :
  (p_n + p_n_plus_1) mod 2310 = 0 →
  no_prime_within prime_set 3000 (p_n + p_n_plus_1) →
  P5.body prime_list prime_set i st =
  Some (Continue
          (P5.mkState (P5.total_law_I_failures st)
             (P5.perfect_mod2310_anchors_found st + 1)
             (P5.failures_from_perfect_mod2310 st) (P5.violations_p5 st))).
Proof.
  intros Hperfect Hnone. unfold P5.body. rewrite Hp, Hq. simpl.
  rewrite Hperfect. simpl.
  rewrite nearest_prime_skip; [done|lia|]. by eapply no_prime_miss.
Qed.

Lemma law3_body_skip st :
  no_prime_within prime_set 3000 (p_n + p_n_plus_1) →
  Law3.body prime_list prime_set i st = Some (Continue st).
Proof.
  intros Hnone. unfold Law3.body. rewrite Hp, Hq. simpl.
  rewrite nearest_prime_skip; [done|lia|]. by eapply no_prime_miss_law3.
Qed.

End skip_facts.

(** C4.  Cap-skip semantics.  For an anchor [S_n = p_n + p_{n+1}] with no
    member of the prime set within 2000, the search with cap 2000 returns
    distance 0 (nothing found); the pass of tests 2 and 6, of the
    distribution script (once its coverage test has let the anchor through)
    and of the non-perfect branch of test 4 ends in [continue] with the
    failure count and every bucket as they were, and the loop goes on
    with the next index.  The same holds with cap 3000 for the perfect
    branch of test 4 and for test 5 when no member lies within 3000.
    The only fields a skipped anchor has changed are those updated before
    the search: the anchor count and overall gap sum of test 6 and the
    count of perfect anchors of test 4. *)
Theorem cap_skip (prime_list : list Z) (prime_set : gset Z)
    (i p_n p_n_plus_1 : Z) :
  py_index prime_list i = Some p_n →
  py_index prime_list (i + 1) = Some p_n_plus_1 →
  let anchor := p_n + p_n_plus_1 in
  no_prime_within prime_set 2000 anchor →
  nearest_prime (in_set prime_set) (in_set prime_set) 2000 anchor
    = Some (mkOutcome 0 0)
  ∧ KDist.find_k_min prime_set 2001 anchor 1 = Some (mkOutcome 0 0)
  ∧ search_either prime_set anchor = Some 0
  ∧ (∀ st max_prime_in_set,
       anchor + 2000 ≤ max_prime_in_set →
       moves_on (KDist.body prime_list prime_set max_prime_in_set) i st st)
  ∧ (∀ st, moves_on (Classifier.body prime_list prime_set) i st st)
  ∧ (∀ st,
       moves_on (GapCorr.body prime_list prime_set) i st
         (GapCorr.mkState (GapCorr.total_law_I_failures st)
            (GapCorr.gap_stats_by_k st)
            (GapCorr.total_gap_sum_overall st + (p_n_plus_1 - p_n))
            (GapCorr.total_anchors_analyzed st + 1)))
  ∧ (∀ st, anchor mod 2310 ≠ 0 →
       moves_on (P5.body prime_list prime_set) i st st)
  ∧ (no_prime_within prime_set 3000 anchor →
     nearest_prime (in_set prime_set) (in_set prime_set) 3000 anchor
       = Some (mkOutcome 0 0)
     ∧ (∀ st, anchor mod 2310 = 0 →
          moves_on (P5.body prime_list prime_set) i st
            (P5.mkState (P5.total_law_I_failures st)
               (P5.perfect_mod2310_anchors_found st + 1)
               (P5.failures_from_perfect_mod2310 st) (P5.violations_p5 st)))
     ∧ (∀ st, moves_on (Law3.body prime_list prime_set) i st st)).
Proof.
  intros Hp Hq anchor Hnone.
  split. { apply nearest_prime_skip; [lia|]. by eapply no_prime_miss. }
  split.
  { rewrite find_k_min_nearest. apply nearest_prime_skip; [lia|].
    by eapply no_prime_miss_is_prime. }
  split.
  { rewrite search_either_eq, nearest_prime_skip; [done|lia|].
    by eapply no_prime_miss. }
  split.
  { intros st m Hm. apply for_range_moves_on.
    by apply (kdist_body_skip _ _ _ p_n p_n_plus_1). }
  split.
  { intros st. apply for_range_moves_on.
    by apply (classifier_body_skip _ _ _ p_n p_n_plus_1). }
  split.
  { intros st. apply for_range_moves_on.
    by apply (gapcorr_body_skip _ _ _ p_n p_n_plus_1). }
  split.
  { intros st Himperfect. apply for_range_moves_on.
    by apply (p5_body_skip_imperfect _ _ _ p_n p_n_plus_1). }
  intros Hnone3. split.
  { apply nearest_prime_skip; [lia|]. by eapply no_prime_miss. }
  split.
  - intros st Hperfect. apply for_range_moves_on.
    by apply (p5_body_skip_perfect _ _ _ p_n p_n_plus_1).
  - intros st. apply for_range_moves_on.
    by apply (law3_body_skip _ _ _ p_n p_n_plus_1).
Qed.

Lemma sparse_primes_hole cap :
  cap ≤ 3000 → no_prime_within sparse_prime_set cap (10007 + 10009).
Proof.
  intros Hcap d Hd. unfold sparse_prime_set, sparse_primes.
  split; rewrite elem_of_list_to_set, !elem_of_cons, elem_of_nil; lia.
Qed.

Lemma cap_skip_witness :
  py_index sparse_primes 2 = Some 10007
  ∧ py_index sparse_primes (2 + 1) = Some 10009
  ∧ no_prime_within sparse_prime_set 2000 (10007 + 10009)
  ∧ nearest_prime (in_set sparse_prime_set) (in_set sparse_prime_set) 2000
      (10007 + 10009) = Some (mkOutcome 0 0)
  ∧ KDist.body sparse_primes sparse_prime_set (KDist.max_prime sparse_primes)
      2 KDist.init
    = Some (Continue KDist.init).
Proof.
  assert (py_index sparse_primes 2 = Some 10007) as Hp by reflexivity.
  assert (py_index sparse_primes (2 + 1) = Some 10009) as Hq by reflexivity.
  assert (no_prime_within sparse_prime_set 2000 (10007 + 10009)) as Hnone
    by (apply sparse_primes_hole; lia).
  split; [exact Hp|]. split; [exact Hq|]. split; [exact Hnone|].
  destruct (cap_skip sparse_primes sparse_prime_set 2 10007 10009 Hp Hq Hnone)
    as (Hsearch & _ & _ & Hkdist & _).
  split; [exact Hsearch|].
  destruct (Hkdist KDist.init (KDist.max_prime sparse_primes)) as [Hbody _];
    [vm_compute; discriminate|exact Hbody].
Defined.

(** The whole run over that list: index 1 succeeds at distance 3, index 2
    is skipped, and the report shows no failure. *)
Example sparse_run_reports :
  KDist.analyze_k_distribution 2 sparse_primes = Reported KDist.init.
Proof. vm_compute; reflexivity. Qed.

(** ** The Law III search *)

Lemma py_index_in_range (l : list Z) j :
  0 ≤ j < py_len l → is_Some (py_index l j).
Proof.
  intros Hj. unfold py_index, py_len in *.
  destruct (Z.leb_spec 0 j); [|lia].
  apply lookup_lt_is_Some_2. lia.
Qed.

Lemma not_fixes prime_list prime_set q a b j :
  py_index prime_list j = Some a →
  py_index prime_list (j + 1) = Some b →
  Law3.is_clean_k (Z.abs (a + b - q)) prime_set = false →
  ¬ fixes prime_list prime_set q j.
Proof.
  intros Ha Hb Hclean (S_j & HS & Hc). unfold anchor_at in HS.
  rewrite Ha, Hb in HS. simpl in HS. injection HS as <-.
  apply is_clean_k_true in Hc. congruence.
Qed.

Lemma does_fix prime_list prime_set q a b j :
  py_index prime_list j = Some a →
  py_index prime_list (j + 1) = Some b →
  Law3.is_clean_k (Z.abs (a + b - q)) prime_set = true →
  anchor_at prime_list j = Some (a + b) ∧ fixes prime_list prime_set q j.
Proof.
  intros Ha Hb Hclean.
  assert (anchor_at prime_list j = Some (a + b)) as HS.
  { unfold anchor_at. by rewrite Ha, Hb. }
  split; [done|]. exists (a + b). split; [done|]. by apply is_clean_k_true.
Qed.

(** What the radius loop returns when it returns: no fix at any radius
    tried, or the first radius with a fix, the anchor below preferred. *)
Lemma law3_loop_spec prime_list prime_set i q n r f :
  Law3.law3_loop prime_list prime_set i q n r = Some f →
  (f = Law3.mkFix false 0 0
   ∧ ∀ r', r ≤ r' < r + Z.of_nat n →
       ¬ fixes prime_list prime_set q (i - r')
       ∧ ¬ fixes prime_list prime_set q (i + r'))
  ∨ (Law3.fix_found f = true
     ∧ r ≤ Law3.fixing_radius_r f < r + Z.of_nat n
     ∧ (∀ r', r ≤ r' < Law3.fixing_radius_r f →
          ¬ fixes prime_list prime_set q (i - r')
          ∧ ¬ fixes prime_list prime_set q (i + r'))
     ∧ ((fixes prime_list prime_set q (i - Law3.fixing_radius_r f)
         ∧ anchor_at prime_list (i - Law3.fixing_radius_r f)
           = Some (Law3.S_fix f))
        ∨ (¬ fixes prime_list prime_set q (i - Law3.fixing_radius_r f)
           ∧ fixes prime_list prime_set q (i + Law3.fixing_radius_r f)
           ∧ anchor_at prime_list (i + Law3.fixing_radius_r f)
             = Some (Law3.S_fix f)))).
Proof.
  revert r. induction n as [|n IH]; intros r; cbn [Law3.law3_loop].
  { intros [= <-]. left. split; [done|]. lia. }
  destruct (py_index prime_list (i - r)) as [a|] eqn:Ha; [|done].
  destruct (py_index prime_list (i - r + 1)) as [b|] eqn:Hb; [|done].
  cbn [mbind option_bind].
  destruct (Law3.is_clean_k (Z.abs (a + b - q)) prime_set) eqn:Hprev.
  { intros [= <-]. right. cbn.
    destruct (does_fix _ _ _ _ _ _ Ha Hb Hprev) as [HS Hfix].
    split; [done|]. split; [lia|]. split; [lia|]. by left. }
  destruct (py_index prime_list (i + r)) as [c|] eqn:Hc; [|done].
  destruct (py_index prime_list (i + r + 1)) as [d|] eqn:Hd; [|done].
  cbn [mbind option_bind].
  pose proof (not_fixes _ _ _ _ _ _ Ha Hb Hprev) as Hnprev.
  destruct (Law3.is_clean_k (Z.abs (c + d - q)) prime_set) eqn:Hnext.
  { intros [= <-]. right. cbn.
    destruct (does_fix _ _ _ _ _ _ Hc Hd Hnext) as [HS Hfix].
    split; [done|]. split; [lia|]. split; [lia|]. by right. }
  pose proof (not_fixes _ _ _ _ _ _ Hc Hd Hnext) as Hnnext.
  intros Hrec. destruct (IH _ Hrec) as [[-> Hnone]|(Hf & Hr & Hnone & Hfix)].
  - left. split; [done|]. intros r' Hr'.
    destruct (decide (r' = r)) as [-> |]; [done|]. apply Hnone. lia.
  - right. split; [done|]. split; [lia|]. split; [|done].
    intros r' Hr'.
    destruct (decide (r' = r)) as [-> |]; [done|]. apply Hnone. lia.
Qed.

(** With every index read in range the radius loop returns. *)
Lemma law3_loop_total prime_list prime_set i q n r :
  0 ≤ r → r + Z.of_nat n - 1 ≤ i →
  i + (r + Z.of_nat n - 1) + 1 < py_len prime_list →
  is_Some (Law3.law3_loop prime_list prime_set i q n r).
Proof.
  revert r. induction n as [|n IH]; intros r Hr Hlow Hhigh;
    cbn [Law3.law3_loop]; [by eexists|].
  destruct (py_index_in_range prime_list (i - r)) as [a ->]; [lia|].
  destruct (py_index_in_range prime_list (i - r + 1)) as [b ->]; [lia|].
  cbn [mbind option_bind].
  destruct (Law3.is_clean_k (Z.abs (a + b - q)) prime_set); [by eexists|].
  destruct (py_index_in_range prime_list (i + r)) as [c ->]; [lia|].
  destruct (py_index_in_range prime_list (i + r + 1)) as [d ->]; [lia|].
  cbn [mbind option_bind].
  destruct (Law3.is_clean_k (Z.abs (c + d - q)) prime_set); [by eexists|].
  apply IH; lia.
Qed.

(** The body of test 5 on an anchor whose search found a composite
    distance: a row when the correction search succeeds, [break]
    otherwise. *)
Lemma law3_body_failure prime_list prime_set i p_n p_n_plus_1 o f st :
  py_index prime_list i = Some p_n →
  py_index prime_list (i + 1) = Some p_n_plus_1 →
  nearest_prime (λ q_lower, (q_lower >? 1) && in_set prime_set q_lower)
    (in_set prime_set) 3000 (p_n + p_n_plus_1) = Some o →
  min_distance_k o ≠ 0 →
  is_k_composite prime_set (min_distance_k o) = true →
  Law3.law3_search prime_list prime_set i (found_prime o) = Some f →
  let anchor_S_n := p_n + p_n_plus_1 in
  Law3.body prime_list prime_set i st =
  Some
    (if Law3.fix_found f then
       Continue
         (Law3.mkState (Law3.total_law_I_failures st + 1)
            (if Law3.fixing_radius_r f >? Law3.max_r_observed st
             then Law3.fixing_radius_r f else Law3.max_r_observed st)
            (Law3.law_III_failures st)
            (Law3.correlation_data st ++
               [Law3.mkRow i anchor_S_n (found_prime o) (min_distance_k o)
                  (anchor_S_n mod 6) (anchor_S_n mod 30) (anchor_S_n mod 210)
                  (Law3.fixing_radius_r f) (Law3.S_fix f)
                  (Law3.S_fix f mod 6) (Law3.S_fix f mod 30)
                  (Law3.S_fix f mod 210)]))
     else
       Break
         (Law3.mkState (Law3.total_law_I_failures st + 1)
            (Law3.max_r_observed st)
            (Law3.law_III_failures st ++ [i])
            (Law3.correlation_data st))).
Proof.
  intros Hp Hq Hrun Hk Hcomp Hsearch anchor_S_n. unfold Law3.body.
  rewrite Hp, Hq. cbn [mbind option_bind]. rewrite Hrun.
  cbn [mbind option_bind].
  destruct (Z.eqb_spec (min_distance_k o) 0); [done|].
  rewrite Hcomp, Hsearch. cbn [mbind option_bind].
  by destruct (Law3.fix_found f).
Qed.

(** C5.  Correction-radius search: order and minimality.  For an index
    [i] with 30 anchors on either side, the search for a neighbour prime
    [q] returns.  When it reports a fix at radius [R], then [1 ≤ R ≤ 30],
    no anchor [S_{i-r}] or [S_{i+r}] with [r < R] lies at a distance from
    [q] that is 1 or prime, and the recorded anchor is [S_{i-R}] when that
    one is at such a distance, otherwise [S_{i+R}], which then is.  When
    it reports no fix, no radius in [1..30] has one.  On a composite
    failure with neighbour [q] the row appended by the loop body carries
    that radius and that anchor. *)
Theorem law3_search_minimal (prime_list : list Z) (prime_set : gset Z)
    (i q : Z) :
  Law3.MAX_LAW_III_RADIUS ≤ i →
  i + Law3.MAX_LAW_III_RADIUS + 1 < py_len prime_list →
  ∃ f,
    Law3.law3_search prime_list prime_set i q = Some f
    ∧ ((Law3.fix_found f = false
        ∧ ∀ r, 1 ≤ r ≤ 30 →
            ¬ fixes prime_list prime_set q (i - r)
            ∧ ¬ fixes prime_list prime_set q (i + r))
       ∨ (Law3.fix_found f = true
          ∧ 1 ≤ Law3.fixing_radius_r f ≤ 30
          ∧ (∀ r, 1 ≤ r < Law3.fixing_radius_r f →
               ¬ fixes prime_list prime_set q (i - r)
               ∧ ¬ fixes prime_list prime_set q (i + r))
          ∧ ((fixes prime_list prime_set q (i - Law3.fixing_radius_r f)
              ∧ anchor_at prime_list (i - Law3.fixing_radius_r f)
                = Some (Law3.S_fix f))
             ∨ (¬ fixes prime_list prime_set q (i - Law3.fixing_radius_r f)
                ∧ fixes prime_list prime_set q (i + Law3.fixing_radius_r f)
                ∧ anchor_at prime_list (i + Law3.fixing_radius_r f)
                  = Some (Law3.S_fix f)))))
    ∧ (∀ p_n p_n_plus_1 o st,
         py_index prime_list i = Some p_n →
         py_index prime_list (i + 1) = Some p_n_plus_1 →
         nearest_prime (λ q_lower, (q_lower >? 1) && in_set prime_set q_lower)
           (in_set prime_set) 3000 (p_n + p_n_plus_1) = Some o →
         found_prime o = q →
         min_distance_k o ≠ 0 →
         is_k_composite prime_set (min_distance_k o) = true →
         Law3.fix_found f = true →
         ∃ st' row,
           Law3.body prime_list prime_set i st = Some (Continue st')
           ∧ Law3.correlation_data st' = Law3.correlation_data st ++ [row]
           ∧ Law3.n_index row = i
           ∧ Law3.q_prime row = q
           ∧ Law3.fix_radius_r row = Law3.fixing_radius_r f
           ∧ Law3.row_S_fix row = Law3.S_fix f).
Proof.
  unfold Law3.MAX_LAW_III_RADIUS. intros Hlow Hhigh.
  destruct (law3_loop_total prime_list prime_set i q 30 1) as [f Hf];
    [lia..|].
  exists f. split; [exact Hf|]. split.
  - destruct (law3_loop_spec _ _ _ _ _ _ _ Hf)
      as [[-> Hnone]|(Hfound & Hr & Hnone & Hfix)].
    + left. split; [done|]. intros r Hr. apply Hnone. lia.
    + right. split; [done|]. split; [lia|]. split; [|done].
      intros r Hr'. apply Hnone. lia.
  - intros p_n p_n_plus_1 o st Hp Hq Hrun <- Hk Hcomp Hfound.
    pose proof (law3_body_failure _ _ _ _ _ _ _ st Hp Hq Hrun Hk Hcomp Hf)
      as Hbody.
    rewrite Hfound in Hbody. cbn zeta in Hbody.
    do 2 eexists. split; [exact Hbody|]. done.
Qed.

(** Index 55 of the fixture: anchor 532, neighbour 523 at distance 9.
    The anchor below, 257 + 263 = 520, is 3 away from 523. *)
Lemma law3_search_minimal_witness :
  Law3.MAX_LAW_III_RADIUS ≤ 55
  ∧ 55 + Law3.MAX_LAW_III_RADIUS + 1 < py_len primes_below_2600
  ∧ ∃ f,
      Law3.law3_search primes_below_2600 prime_set_below_2600 55 523 = Some f
      ∧ f = Law3.mkFix true 1 520.
Proof.
  assert (Law3.MAX_LAW_III_RADIUS ≤ 55) as Hlow by (vm_compute; discriminate).
  assert (55 + Law3.MAX_LAW_III_RADIUS + 1 < py_len primes_below_2600)
    as Hhigh by (vm_compute; reflexivity).
  split; [exact Hlow|]. split; [exact Hhigh|].
  destruct (law3_search_minimal primes_below_2600 prime_set_below_2600
              55 523 Hlow Hhigh) as (f & Hf & _).
  exists f. split; [exact Hf|].
  assert (Law3.law3_search primes_below_2600 prime_set_below_2600 55 523
          = Some (Law3.mkFix true 1 520)) as Hrun by (vm_compute; reflexivity).
  congruence.
Defined.

(** ** Leaving the main loop *)

Lemma for_range_app {St : Type} (body : Z → St → option (flow St))
    m n start st :
  for_range (m + n) start body st =
  match for_range m start body st with
  | Some (Continue st1) => for_range n (start + Z.of_nat m) body st1
  | r => r
  end.
Proof.
  revert start st. induction m as [|m IH]; intros start st.
  - simpl. by rewrite Z.add_0_r.
  - cbn [Nat.add for_range].
    destruct (body start st) as [[st1|st1|st1]|]; [|done..].
    rewrite IH. by replace (start + 1 + Z.of_nat m) with (start + Z.of_nat (S m))
      by lia.
Qed.

(** Once a pass ends in [break], the indices still to come are never
    visited. *)
Lemma for_range_break {St : Type} (body : Z → St → option (flow St))
    m n start st0 st st' :
  for_range m start body st0 = Some (Continue st) →
  body (start + Z.of_nat m) st = Some (Break st') →
  for_range (m + S n) start body st0 = Some (Break st').
Proof.
  intros Hprefix Hbody. rewrite for_range_app, Hprefix. simpl.
  by rewrite Hbody.
Qed.


(** C6.  The correction-radius cap is fatal.  When the correction search
    for a composite failure at index [i] reports no fix within radius 30,
    the pass ends in [break] with [i] appended to [law_III_failures];
    the main loop then stops there however many indices were left, none of
    them is visited, and the final report is made from that state.  By
    contrast an anchor whose main search meets its cap of 3000 only ends
    its own pass, and the loop goes on with the next index. *)
Theorem law3_cap_is_fatal (prime_list : list Z) (prime_set : gset Z)
    (i p_n p_n_plus_1 : Z) (o : SearchOutcome) (f : Law3.fix_result)
    (st : Law3.state) :
  py_index prime_list i = Some p_n →
  py_index prime_list (i + 1) = Some p_n_plus_1 →
  nearest_prime (λ q_lower, (q_lower >? 1) && in_set prime_set q_lower)
    (in_set prime_set) 3000 (p_n + p_n_plus_1) = Some o →
  min_distance_k o ≠ 0 →
  is_k_composite prime_set (min_distance_k o) = true →
  Law3.law3_search prime_list prime_set i (found_prime o) = Some f →
  Law3.fix_found f = false →
  let st' :=
    Law3.mkState (Law3.total_law_I_failures st + 1) (Law3.max_r_observed st)
      (Law3.law_III_failures st ++ [i]) (Law3.correlation_data st) in
  Law3.body prime_list prime_set i st = Some (Break st')
  ∧ (∀ m n start st0,
       start + Z.of_nat m = i →
       for_range m start (Law3.body prime_list prime_set) st0
         = Some (Continue st) →
       for_range (m + S n) start (Law3.body prime_list prime_set) st0
         = Some (Break st'))
  ∧ after_loop (Some (Break st')) = Reported st'
  ∧ (∀ j a b st1,
       py_index prime_list j = Some a →
       py_index prime_list (j + 1) = Some b →
       no_prime_within prime_set 3000 (a + b) →
       moves_on (Law3.body prime_list prime_set) j st1 st1).
Proof.
  intros Hp Hq Hrun Hk Hcomp Hsearch Hnofix st'.
  assert (Law3.body prime_list prime_set i st = Some (Break st')) as Hbody.
  { rewrite (law3_body_failure _ _ _ _ _ _ _ st Hp Hq Hrun Hk Hcomp Hsearch).
    by rewrite Hnofix. }
  split; [exact Hbody|]. split; [|split; [done|]].
  - intros m n start st0 <- Hprefix. by eapply for_range_break.
  - intros j a b st1 Ha Hb Hnone. apply for_range_moves_on.
    by apply (law3_body_skip _ _ _ a b).
Qed.

Lemma law3_cap_is_fatal_witness :
  let prime_list := uncorrectable_primes in
  let prime_set := uncorrectable_prime_set in
  let o := mkOutcome 91 2000699 in
  let f := Law3.mkFix false 0 0 in
  py_index prime_list 30 = Some 1000393
  ∧ py_index prime_list (30 + 1) = Some 1000397
  ∧ nearest_prime (λ q_lower, (q_lower >? 1) && in_set prime_set q_lower)
      (in_set prime_set) 3000 (1000393 + 1000397) = Some o
  ∧ min_distance_k o ≠ 0
  ∧ is_k_composite prime_set (min_distance_k o) = true
  ∧ Law3.law3_search prime_list prime_set 30 (found_prime o) = Some f
  ∧ Law3.fix_found f = false
  ∧ Law3.body prime_list prime_set 30 Law3.init
    = Some (Break (Law3.mkState 1 0 [30] [])).
Proof.
  intros prime_list prime_set o f.
  assert (py_index prime_list 30 = Some 1000393) as Hp by reflexivity.
  assert (py_index prime_list (30 + 1) = Some 1000397) as Hq by reflexivity.
  assert (nearest_prime
            (λ q_lower, (q_lower >? 1) && in_set prime_set q_lower)
            (in_set prime_set) 3000 (1000393 + 1000397) = Some o) as Hrun
    by (vm_compute; reflexivity).
  assert (min_distance_k o ≠ 0) as Hk by (simpl; lia).
  assert (is_k_composite prime_set (min_distance_k o) = true) as Hcomp
    by (vm_compute; reflexivity).
  assert (Law3.law3_search prime_list prime_set 30 (found_prime o) = Some f)
    as Hsearch by (vm_compute; reflexivity).
  assert (Law3.fix_found f = false) as Hnofix by reflexivity.
  repeat (split; [assumption|]).
  exact (proj1 (law3_cap_is_fatal prime_list prime_set 30 1000393 1000397
                  o f Law3.init Hp Hq Hrun Hk Hcomp Hsearch Hnofix)).
Defined.

(** ** The nearest multiple of a primorial *)

(** The quotient and remainder [get_closest_anchor] works with. *)
Lemma get_closest_anchor_cases q P :
  0 < P →
  ∃ t r, q = t * P + r ∧ 0 ≤ r < P
         ∧ CFR.get_closest_anchor q P = if r <? P - r then t * P else t * P + P.
Proof.
  intros HP. exists (q / P), (q mod P).
  pose proof (Z.div_mod q P ltac:(lia)) as Hdiv.
  pose proof (Z.mod_pos_bound q P HP) as Hmod.
  split; [lia|]. split; [done|].
  unfold CFR.get_closest_anchor.
  replace (q - q / P * P) with (q mod P) by lia.
  by replace (q / P * P + P - q) with (P - q mod P) by lia.
Qed.

Lemma multiple_position m t P :
  0 < P →
  m * P ≤ t * P - P ∨ m * P = t * P ∨ m * P = t * P + P
  ∨ t * P + 2 * P ≤ m * P.
Proof.
  intros HP.
  assert (m ≤ t - 1 ∨ m = t ∨ m = t + 1 ∨ t + 2 ≤ m) as Hm by lia.
  destruct Hm as [Hm|[-> |[-> |Hm]]].
  - left. nia.
  - right. by left.
  - right. right. left. lia.
  - right. right. right. nia.
Qed.

(** For any integer [q] and positive modulus the result is a multiple of
    the modulus and no multiple is nearer to [q]. *)
Lemma get_closest_anchor_nearest q P :
  0 < P →
  (P | CFR.get_closest_anchor q P)
  ∧ ∀ m, Z.abs (CFR.get_closest_anchor q P - q) ≤ Z.abs (m * P - q).
Proof.
  intros HP.
  destruct (get_closest_anchor_cases q P HP) as (t & r & -> & Hr & ->).
  split.
  - destruct (r <? P - r); [by exists t|exists (t + 1); lia].
  - intros m. pose proof (multiple_position m t P HP).
    destruct (Z.ltb_spec r (P - r)); lia.
Qed.

(** A tie between the multiple below and the multiple above needs [q] to
    sit half a modulus above a multiple, which makes it a multiple of 3. *)
Lemma get_closest_anchor_unique q P :
  P = 6 ∨ P = 30 ∨ P = 210 →
  ¬ (3 | q) →
  ∀ m, m * P ≠ CFR.get_closest_anchor q P →
       Z.abs (CFR.get_closest_anchor q P - q) < Z.abs (m * P - q).
Proof.
  intros HP H3.
  assert (0 < P) as Hpos by lia.
  destruct (get_closest_anchor_cases q P Hpos) as (t & r & Hq & Hr & ->).
  assert (2 * r ≠ P) as Hhalf.
  { intros Hhalf. apply H3. subst q.
    destruct HP as [-> |[-> | ->]].
    - exists (2 * t + 1). lia.
    - exists (10 * t + 5). lia.
    - exists (70 * t + 35). lia. }
  intros m Hm. pose proof (multiple_position m t P Hpos).
  destruct (Z.ltb_spec r (P - r)); lia.
Qed.

Lemma prime_not_multiple_of_3 q : Z.prime q → 7 < q → ¬ (3 | q).
Proof.
  intros Hq Hgt Hdiv.
  assert (3 = q) by (apply Z.divide_prime_prime; [apply Z.prime_3|done..]).
  lia.
Qed.

(** C8.  Nearest primorial multiple.  For a prime [q > 7] and a modulus
    [P] among 6, 30 and 210, [get_closest_anchor q P] is a multiple of
    [P], no multiple of [P] is nearer to [q], and every other multiple of
    [P] is strictly farther from [q]: it is the single closest point of
    the grid. *)
Theorem get_closest_anchor_closest (q P : Z) :
  Z.prime q → 7 < q →
  P = 6 ∨ P = 30 ∨ P = 210 →
  (P | CFR.get_closest_anchor q P)
  ∧ (∀ m, Z.abs (CFR.get_closest_anchor q P - q) ≤ Z.abs (m * P - q))
  ∧ (∀ m, m * P ≠ CFR.get_closest_anchor q P →
          Z.abs (CFR.get_closest_anchor q P - q) < Z.abs (m * P - q)).
Proof.
  intros Hq Hgt HP.
  assert (0 < P) as Hpos by lia.
  destruct (get_closest_anchor_nearest q P Hpos) as [Hdiv Hmin].
  split; [done|]. split; [done|].
  apply get_closest_anchor_unique; [done|].
  by apply prime_not_multiple_of_3.
Qed.

Lemma prime_23 : Z.prime 23.
Proof.
  split; [lia|]. intros n Hn [c Hc].
  assert (n ∈ [2; 3; 4; 5; 6; 7; 8; 9; 10; 11; 12; 13; 14; 15; 16; 17;
               18; 19; 20; 21; 22]) as Hin.
  { rewrite !elem_of_cons. lia. }
  rewrite !elem_of_cons, elem_of_nil in Hin.
  repeat (destruct Hin as [-> |Hin]; [lia|]). done.
Qed.

(** The prime 23 lies between 0 and 30, 7 from the one and 23 from the
    other: its anchor on the 30-grid is 30. *)
Lemma get_closest_anchor_closest_witness :
  Z.prime 23 ∧ 7 < 23 ∧ (30 = 6 ∨ 30 = 30 ∨ 30 = 210)
  ∧ CFR.get_closest_anchor 23 30 = 30
  ∧ ∀ m, Z.abs (CFR.get_closest_anchor 23 30 - 23) ≤ Z.abs (m * 30 - 23).
Proof.
  assert (7 < 23) as Hgt by lia.
  assert (30 = 6 ∨ 30 = 30 ∨ 30 = 210) as HP by (right; left; reflexivity).
  split; [exact prime_23|]. split; [exact Hgt|]. split; [exact HP|].
  split; [reflexivity|].
  exact (proj1 (proj2 (get_closest_anchor_closest 23 30 prime_23 Hgt HP))).
Defined.

(** ** The frequency tally *)

Lemma dd_sum_empty : dd_sum ∅ = 0.
Proof. apply map_fold_empty. Qed.

Lemma dd_sum_insert_fresh (d : gmap Z Z) k x :
  d !! k = None → dd_sum (<[k := x]> d) = x + dd_sum d.
Proof.
  intros Hk. unfold dd_sum.
  rewrite map_fold_insert_L; [done| |done].
  intros. lia.
Qed.

Lemma dd_sum_insert (d : gmap Z Z) k x :
  dd_sum (<[k := x]> d) = x + dd_sum d - dd_get d k.
Proof.
  unfold dd_get. destruct (d !! k) as [v|] eqn:Hk; simpl.
  - rewrite <- (insert_delete_id d k v Hk) at 2.
    rewrite <- (insert_delete_eq d k x).
    rewrite !dd_sum_insert_fresh by apply lookup_delete_eq. lia.
  - rewrite dd_sum_insert_fresh by done. lia.
Qed.

(** [d[k] += 1] adds one to the sum of the counts. *)
Lemma dd_sum_incr d k : dd_sum (dd_incr d k) = dd_sum d + 1.
Proof. unfold dd_incr. rewrite dd_sum_insert. lia. Qed.

(** An invariant of the loop body is an invariant of the loop. *)
Lemma for_range_invariant {St : Type} (I : St → Prop)
    (body : Z → St → option (flow St)) :
  (∀ i st r, I st → body i st = Some r → I (flow_state r)) →
  ∀ n start st r,
    I st → for_range n start body st = Some r → I (flow_state r).
Proof.
  intros Hbody n. induction n as [|n IH]; intros start st r Hst; simpl.
  { by intros [= <-]. }
  destruct (body start st) as [[st1|st1|st1]|] eqn:Hpass; [|intros [= <-]..|done].
  - apply IH. by apply (Hbody _ _ _ Hst Hpass).
  - by apply (Hbody _ _ _ Hst Hpass).
  - by apply (Hbody _ _ _ Hst Hpass).
Qed.

(** One pass of the tally leaves its state alone or counts one failure in
    both places. *)
Lemma kdist_body_steps prime_list prime_set max_prime_in_set i st r :
  KDist.body prime_list prime_set max_prime_in_set i st = Some r →
  flow_state r = st
  ∨ ∃ k, k ≠ 0
         ∧ KDist.is_law_I_success prime_set k = false
         ∧ r = Continue
                 (KDist.mkState (KDist.total_law_I_failures st + 1)
                    (dd_incr (KDist.composite_k_counts st) k)).
Proof.
  unfold KDist.body.
  destruct (py_index prime_list i) as [p_n|]; [|done].
  destruct (py_index prime_list (i + 1)) as [p_n_plus_1|]; [|done].
  cbn [mbind option_bind].
  destruct (p_n + p_n_plus_1 + 2000 >? max_prime_in_set).
  { intros [= <-]. by left. }
  destruct (KDist.find_k_min prime_set 2001 (p_n + p_n_plus_1) 1) as [o|];
    [|done].
  cbn [mbind option_bind].
  destruct (Z.eqb_spec (min_distance_k o) 0).
  { intros [= <-]. by left. }
  destruct (KDist.is_law_I_success prime_set (min_distance_k o)) eqn:Hsucc;
    cbn [negb].
  { intros [= <-]. by left. }
  intros [= <-]. right. by exists (min_distance_k o).
Qed.

(** C9.  Frequency-tally bucket conservation.  When the distribution
    script reaches its report, the per-key counts of [composite_k_counts]
    add up to [total_law_I_failures].  A pass of the loop body either
    leaves both as they were or adds one to the total and one to the
    count of a single key, the non-zero distance that failed Law I;
    nothing else touches either. *)
Theorem tally_conservation (n_pairs : Z) (prime_list : list Z)
    (st : KDist.state) :
  KDist.analyze_k_distribution n_pairs prime_list = Reported st →
  dd_sum (KDist.composite_k_counts st) = KDist.total_law_I_failures st
  ∧ ∀ prime_set max_prime_in_set i st0 r,
      KDist.body prime_list prime_set max_prime_in_set i st0 = Some r →
      flow_state r = st0
      ∨ ∃ k, k ≠ 0
             ∧ KDist.is_law_I_success prime_set k = false
             ∧ r = Continue
                     (KDist.mkState (KDist.total_law_I_failures st0 + 1)
                        (dd_incr (KDist.composite_k_counts st0) k)).
Proof.
  intros Hrun. split; [|by intros; eapply kdist_body_steps].
  unfold KDist.analyze_k_distribution in Hrun.
  destruct (py_len prime_list <? n_pairs + 2); [done|].
  destruct (bool_decide (prime_list = [])); [done|].
  cbv zeta in Hrun.
  set (I := λ s : KDist.state,
         dd_sum (KDist.composite_k_counts s) = KDist.total_law_I_failures s).
  assert (∀ r,
            for_range (Z.to_nat (n_pairs + 1 - 1)) 1
              (KDist.body prime_list (list_to_set prime_list)
                 (KDist.max_prime prime_list)) KDist.init = Some r →
            I (flow_state r)) as Hinv.
  { intros r. apply for_range_invariant; [|exact dd_sum_empty].
    intros i s r' Hs Hpass.
    destruct (kdist_body_steps _ _ _ _ _ _ Hpass) as [-> |(k & _ & _ & ->)];
      [done|].
    unfold I in *. simpl. rewrite dd_sum_incr. lia. }
  destruct (for_range _ _ _ _) as [[s|s|s]|] eqn:Hloop; simpl in Hrun;
    try done; injection Hrun as <-; exact (Hinv _ eq_refl).
Qed.

(** The first 60 anchors of the fixture hold one composite failure, the
    distance 9 at index 55. *)
Lemma tally_conservation_witness :
  ∃ st,
    KDist.analyze_k_distribution 60 primes_below_2600 = Reported st
    ∧ KDist.total_law_I_failures st = 1
    ∧ dd_get (KDist.composite_k_counts st) 9 = 1
    ∧ dd_sum (KDist.composite_k_counts st) = KDist.total_law_I_failures st.
Proof.
  exists (KDist.mkState 1 {[ 9 := 1 ]}).
  assert (KDist.analyze_k_distribution 60 primes_below_2600
          = Reported (KDist.mkState 1 {[ 9 := 1 ]})) as Hrun
    by (vm_compute; reflexivity).
  split; [exact Hrun|]. split; [reflexivity|]. split; [reflexivity|].
  exact (proj1 (tally_conservation 60 primes_below_2600 _ Hrun)).
Defined.

(** ** The two caps of test 4 *)





(** The same situation 6 above a multiple of 2310: the anchor 6936, with
    its only neighbour 8941 at distance 2005 = 5 * 401, is skipped. *)
Example imperfect_anchor_skipped :
  P5.body imperfect_hole_primes (list_to_set imperfect_hole_primes) 2 P5.init
  = Some (Continue P5.init)
  ∧ nearest_prime (in_set (list_to_set imperfect_hole_primes))
      (in_set (list_to_set imperfect_hole_primes)) 3000 (3467 + 3469)
    = Some (mkOutcome 2005 8941)
  ∧ is_k_composite (list_to_set imperfect_hole_primes) 2005 = true.
Proof. split; [|split]; vm_compute; reflexivity. Qed.

Example perfect_anchor_counted :
  P5.body perfect_hole_primes (list_to_set perfect_hole_primes) 2 P5.init
  = Some (Continue
            (P5.mkState 1 1 {[ 2501 := 1 ]} [])).
Proof. vm_compute; reflexivity. Qed.

(** ** What is verified before the main loop *)

Lemma for_range_no_return {St : Type} (body : Z → St → option (flow St)) :
  (∀ i st st', body i st ≠ Some (Return st')) →
  ∀ n start st st', for_range n start body st ≠ Some (Return st').
Proof.
  intros Hbody n. induction n as [|n IH]; intros start st st'; simpl; [done|].
  destruct (body start st) as [[st1|st1|st1]|] eqn:Hpass; [apply IH|done| |done].
  by apply Hbody in Hpass.
Qed.


Ltac no_return :=
  intros; repeat case_match; simplify_eq; try done.








(** The distribution script on the same list makes its coverage test in
    the first pass of the loop and returns there. *)
Example distribution_script_aborts_in_loop :
  KDist.analyze_k_distribution 6 first_27_primes = Aborted
  ∧ 6 + 2 ≤ py_len first_27_primes
  ∧ KDist.body first_27_primes (list_to_set first_27_primes)
      (KDist.max_prime first_27_primes) 1 KDist.init
    = Some (Return KDist.init).
Proof. split; [|split]; vm_compute; done. Qed.

(** * Further properties of the scripts *)

(** ** Loops: invariants that follow the index *)

(** A property of the index reached and of the way the pass ended, kept by
    every pass that starts from a [continue], holds of the loop. *)
Lemma for_range_ind {St : Type} (P : Z → flow St → Prop)
    (body : Z → St → option (flow St)) :
  (∀ i st r, P i (Continue st) → body i st = Some r → P (i + 1) r) →
  ∀ n start st r,
    P start (Continue st) →
    for_range n start body st = Some r →
    ∃ m, (m ≤ n)%nat ∧ P (start + Z.of_nat m) r
         ∧ (∀ st', r = Continue st' → m = n).
Proof.
  intros Hbody n. induction n as [|n IH]; intros start st r Hst; simpl.
  { intros [= <-]. exists 0%nat. rewrite Z.add_0_r. by repeat split. }
  destruct (body start st) as [[st1|st1|st1]|] eqn:Hpass; [| | |done].
  - intros Hloop.
    destruct (IH (start + 1) st1 r (Hbody _ _ _ Hst Hpass) Hloop)
      as (m & Hm & HP & Hcont).
    exists (S m). split; [lia|]. split.
    + by replace (start + Z.of_nat (S m)) with (start + 1 + Z.of_nat m) by lia.
    + intros st' Hr. by rewrite (Hcont st' Hr).
  - intros [= <-]. exists 1%nat. split; [lia|]. split; [|done].
    apply (Hbody _ _ _ Hst Hpass).
  - intros [= <-]. exists 1%nat. split; [lia|]. split; [|done].
    apply (Hbody _ _ _ Hst Hpass).
Qed.

(** A loop whose passes never raise, as long as an invariant that each
    [continue] re-establishes holds, does not raise. *)
Lemma for_range_safe {St : Type} (I : Z → St → Prop)
    (body : Z → St → option (flow St)) n start st :
  I start st →
  (∀ i s, start ≤ i < start + Z.of_nat n → I i s →
     ∃ r, body i s = Some r ∧ ∀ s', r = Continue s' → I (i + 1) s') →
  is_Some (for_range n start body st).
Proof.
  revert start st. induction n as [|n IH]; intros start st Hst Hbody; simpl.
  { by eexists. }
  destruct (Hbody start st) as (r & -> & Hr); [lia|done|].
  destruct r as [st1|st1|st1]; [|by eexists..].
  apply (IH (start + 1)); [by apply Hr|].
  intros i s Hi Hs. apply Hbody; [lia|done].
Qed.

Lemma after_loop_crashed {St : Type} (r : option (flow St)) :
  after_loop r = Crashed ↔ r = None.
Proof. by destruct r as [[st|st|st]|]. Qed.

(** ** No run dies on an index *)

Section body_returns.
Context (prime_list : list Z) (prime_set : gset Z) (i : Z).
Context (Hlow : 0 ≤ i) (Hhigh : i + 1 < py_len prime_list).

Lemma lookups_in_range :
  ∃ p_n p_n_plus_1,
    py_index prime_list i = Some p_n
    ∧ py_index prime_list (i + 1) = Some p_n_plus_1.
Proof.
  destruct (py_index_in_range prime_list i) as [a Ha]; [lia|].
  destruct (py_index_in_range prime_list (i + 1)) as [b Hb]; [lia|].
  by exists a, b.
Qed.




Lemma kdist_body_returns max_prime_in_set st :
  ∃ r, KDist.body prime_list prime_set max_prime_in_set i st = Some r.
Proof.
  destruct lookups_in_range as (a & b & Ha & Hb).
  unfold KDist.body. rewrite Ha, Hb. cbn [mbind option_bind].
  rewrite find_k_min_nearest.
  destruct (nearest_prime_total (λ q, KDist.is_prime q prime_set)
              (λ q, KDist.is_prime q prime_set) 2000 (a + b)) as [o ->].
  cbn [mbind option_bind]. repeat case_match; by eexists.
Qed.

End body_returns.

(** A table built over [range(modulus)] has every residue as a key. *)
Lemma lookup_range_table {A : Type} (x : A) modulus r :
  0 ≤ r < modulus →
  (list_to_map ((λ i, (i, x)) <$> seqZ 0 modulus) : gmap Z A) !! r = Some x.
Proof.
  intros Hr. apply elem_of_list_to_map_1.
  - rewrite <- list_fmap_compose.
    replace (fst ∘ (λ i : Z, (i, x))) with (@id Z) by done.
    rewrite list_fmap_id. apply NoDup_seqZ.
  - apply list_elem_of_fmap. exists r. split; [done|].
    apply elem_of_seqZ. lia.
Qed.

Lemma lookup_range_table_None {A : Type} (x : A) modulus r :
  ¬ (0 ≤ r < modulus) →
  (list_to_map ((λ i, (i, x)) <$> seqZ 0 modulus) : gmap Z A) !! r = None.
Proof.
  intros Hr. apply not_elem_of_list_to_map_1.
  rewrite <- list_fmap_compose.
  replace (fst ∘ (λ i : Z, (i, x))) with (@id Z) by done.
  rewrite list_fmap_id, elem_of_seqZ. lia.
Qed.

Lemma has_residues_init {A : Type} (x : A) modulus :
  has_residues modulus
    (list_to_map ((λ i, (i, x)) <$> seqZ 0 modulus) : gmap Z A).
Proof.
  intros r. destruct (decide (0 ≤ r < modulus)) as [Hr|Hr].
  - rewrite lookup_range_table by done. split; [done|by eexists].
  - rewrite lookup_range_table_None by done. split; [|done].
    by intros [? [=]].
Qed.

Lemma has_residues_insert {A : Type} modulus (d : gmap Z A) r x :
  0 ≤ r < modulus → has_residues modulus d →
  has_residues modulus (<[r := x]> d).
Proof.
  intros Hr Hd r'. rewrite lookup_insert_is_Some. split.
  - intros [-> |[_ H]]; [done|by apply Hd].
  - intros ?. destruct (decide (r = r')); [by left|].
    right. split; [done|by apply Hd].
Qed.


Lemma add_gap_returns gap_stats modulus anchor g :
  0 < modulus → has_residues modulus gap_stats →
  ∃ gap_stats', GapResidue.add_gap gap_stats (anchor mod modulus) g
                = Some gap_stats'
                ∧ has_residues modulus gap_stats'.
Proof.
  intros Hm Hkeys. unfold GapResidue.add_gap.
  pose proof (Z.mod_pos_bound anchor modulus Hm) as Hres.
  destruct (proj2 (Hkeys (anchor mod modulus)) Hres) as [e ->].
  cbn [mbind option_bind]. eexists. split; [done|].
  by apply has_residues_insert.
Qed.

Lemma gapresidue_body_returns prime_list i st :
  0 ≤ i → i + 1 < py_len prime_list →
  gap_tables_keyed st →
  ∃ st', GapResidue.body prime_list i st = Some (Continue st')
         ∧ gap_tables_keyed st'.
Proof.
  intros Hlow Hhigh (H6 & H30 & H210).
  destruct (lookups_in_range prime_list i Hlow Hhigh) as (a & b & Ha & Hb).
  unfold GapResidue.body. rewrite Ha, Hb. cbn [mbind option_bind].
  destruct (add_gap_returns _ 6 (a + b) (b - a) ltac:(lia) H6)
    as (s6 & -> & ?).
  destruct (add_gap_returns _ 30 (a + b) (b - a) ltac:(lia) H30)
    as (s30 & -> & ?).
  destruct (add_gap_returns _ 210 (a + b) (b - a) ltac:(lia) H210)
    as (s210 & -> & ?).
  cbn [mbind option_bind]. eexists. split; [done|].
  split; [assumption|split; assumption].
Qed.


Lemma gapresidue_body_no_return prime_list i st st' :
  GapResidue.body prime_list i st ≠ Some (Return st').
Proof.
  unfold GapResidue.body, GapResidue.add_gap.
  destruct (py_index prime_list i); [|done].
  destruct (py_index prime_list (i + 1)); [|done].
  cbn [mbind option_bind].
  destruct (GapResidue.gap_stats_mod6 st !! _); [|done].
  cbn [mbind option_bind].
  destruct (GapResidue.gap_stats_mod30 st !! _); [|done].
  cbn [mbind option_bind].
  destruct (GapResidue.gap_stats_mod210 st !! _); done.
Qed.


(** Runs over six pairs on the first 27 primes. *)
Lemma first_27_classifier_run :
  ∃ st, Classifier.run_PAC_classifier_suite 6 first_27_primes = Reported st.
Proof. eexists. vm_compute. reflexivity. Qed.

Lemma first_27_gapcorr_run :
  ∃ st, GapCorr.run_PAC_failure_gap_correlation 6 first_27_primes
        = Reported st.
Proof. eexists. vm_compute. reflexivity. Qed.

Lemma first_27_gapresidue_run :
  ∃ st, GapResidue.run_PAC_gap_residue_correlation 6 first_27_primes
        = Reported st.
Proof. eexists. vm_compute. reflexivity. Qed.


Lemma law3_body_returns prime_list prime_set i st :
  Law3.MAX_LAW_III_RADIUS ≤ i →
  i + Law3.MAX_LAW_III_RADIUS + 1 < py_len prime_list →
  ∃ r, Law3.body prime_list prime_set i st = Some r.
Proof.
  intros Hlow Hhigh. pose proof Hlow as Hlow'. pose proof Hhigh as Hhigh'.
  unfold Law3.MAX_LAW_III_RADIUS in Hlow', Hhigh'.
  destruct (lookups_in_range prime_list i) as (a & b & Ha & Hb); [lia..|].
  unfold Law3.body. rewrite Ha, Hb. cbn [mbind option_bind].
  destruct (nearest_prime_total
              (λ q_lower, (q_lower >? 1) && in_set prime_set q_lower)
              (in_set prime_set) 3000 (a + b)) as [o ->].
  cbn [mbind option_bind].
  destruct (min_distance_k o =? 0); [by eexists|].
  destruct (is_k_composite prime_set (min_distance_k o)); [|by eexists].
  destruct (law3_loop_total prime_list prime_set i (found_prime o) 30 1)
    as [f Hf]; [lia..|].
  unfold Law3.law3_search. change (Z.to_nat _) with 30%nat. rewrite Hf.
  cbn [mbind option_bind]. destruct (Law3.fix_found f); by eexists.
Qed.

(** X2.  Test 5 never reads the prime list out of range: with its two
    entry-count checks passed, every index [i - r] and [i + r + 1] of the
    correction search exists, so a run is either aborted by a check or
    ends in its report. *)
Theorem law3_run_never_crashes (n_pairs : Z) (file : list Z) :
  Law3.run_PAC_Law3_correlation_test n_pairs file ≠ Crashed.
Proof.
  unfold Law3.run_PAC_Law3_correlation_test, Law3.load_primes_from_file.
  destruct (py_len file <? _); [done|]. cbv zeta.
  destruct (Z.geb_spec (n_pairs + (START_INDEX + Law3.MAX_LAW_III_RADIUS))
              (py_len file - Law3.MAX_LAW_III_RADIUS - 1)); [done|].
  rewrite after_loop_crashed.
  destruct (for_range_safe (λ _ _, True)
              (Law3.body file (list_to_set file))
              (Z.to_nat (n_pairs + (START_INDEX + Law3.MAX_LAW_III_RADIUS)
                         - (START_INDEX + Law3.MAX_LAW_III_RADIUS)))
              (START_INDEX + Law3.MAX_LAW_III_RADIUS) Law3.init I)
    as [r Hr]; [|by rewrite Hr].
  intros i s Hi _.
  destruct (law3_body_returns file (list_to_set file) i s) as [r Hr].
  - unfold START_INDEX, Law3.MAX_LAW_III_RADIUS in *. lia.
  - unfold START_INDEX, Law3.MAX_LAW_III_RADIUS in *. lia.
  - by exists r.
Qed.

(** X3.  The distribution script never reads the prime list out of range:
    a list with [n_pairs + 2] entries holds every [prime_list[i + 1]] the
    loop asks for, so a run is aborted or ends in its report. *)
Theorem distribution_run_never_crashes (n_pairs : Z) (prime_list : list Z) :
  KDist.analyze_k_distribution n_pairs prime_list ≠ Crashed.
Proof.
  unfold KDist.analyze_k_distribution.
  destruct (Z.ltb_spec (py_len prime_list) (n_pairs + 2)); [done|].
  destruct (bool_decide (prime_list = [])); [done|]. cbv zeta.
  rewrite after_loop_crashed.
  destruct (for_range_safe (λ _ _, True)
              (KDist.body prime_list (list_to_set prime_list)
                 (KDist.max_prime prime_list))
              (Z.to_nat (n_pairs + 1 - 1)) 1 KDist.init I)
    as [r Hr]; [|by rewrite Hr].
  intros i s Hi _.
  destruct (kdist_body_returns prime_list (list_to_set prime_list) i)
    with (KDist.max_prime prime_list) s as [r Hr]; [lia..|].
  by exists r.
Qed.

(** X4.  The gap-residue script reports whenever the prime file has
    [n_pairs + START_INDEX + 1] entries: no index is out of range and no
    residue misses from the three tables, since [S_n % modulus] always
    lies in [range(modulus)]. *)
Theorem gap_residue_run_reports (n_pairs : Z) (file : list Z) :
  n_pairs + START_INDEX + 1 ≤ py_len file →
  ∃ st, GapResidue.run_PAC_gap_residue_correlation n_pairs file = Reported st
        ∧ gap_tables_keyed st.
Proof.
  intros Hlen. unfold GapResidue.run_PAC_gap_residue_correlation,
    GapResidue.load_primes_from_file.
  destruct (Z.ltb_spec (py_len file) (n_pairs + START_INDEX + 1)); [lia|].
  assert (gap_tables_keyed GapResidue.init) as Hinit.
  { split; [|split]; apply has_residues_init. }
  destruct (for_range_safe (λ _ s, gap_tables_keyed s)
              (GapResidue.body file)
              (Z.to_nat (n_pairs + START_INDEX - START_INDEX)) START_INDEX
              GapResidue.init Hinit) as [r Hr].
  { intros i s Hi Hs.
    destruct (gapresidue_body_returns file i s) as (st' & -> & ?);
      [unfold START_INDEX in *; lia..|done|].
    eexists. split; [done|]. by intros ? [= <-]. }
  rewrite Hr.
  assert (gap_tables_keyed (flow_state r)) as Hkeys.
  { revert Hr. apply (for_range_invariant gap_tables_keyed); [|done].
    intros i s r' Hs Hpass. unfold GapResidue.body in Hpass.
    destruct (py_index file i) as [a|]; [|done].
    destruct (py_index file (i + 1)) as [b|]; [|done].
    cbn [mbind option_bind] in Hpass. destruct Hs as (H6 & H30 & H210).
    destruct (add_gap_returns _ 6 (a + b) (b - a) ltac:(lia) H6)
      as (s6 & Hs6 & ?).
    destruct (add_gap_returns _ 30 (a + b) (b - a) ltac:(lia) H30)
      as (s30 & Hs30 & ?).
    destruct (add_gap_returns _ 210 (a + b) (b - a) ltac:(lia) H210)
      as (s210 & Hs210 & ?).
    rewrite Hs6, Hs30, Hs210 in Hpass. cbn [mbind option_bind] in Hpass.
    injection Hpass as <-. split; [assumption|split; assumption]. }
  destruct r as [st|st|st]; simpl; [by eexists..|].
  exfalso. by eapply for_range_no_return, Hr;
    intros; apply gapresidue_body_no_return.
Qed.

Lemma gap_residue_run_reports_witness :
  6 + START_INDEX + 1 ≤ py_len first_27_primes
  ∧ ∃ st, GapResidue.run_PAC_gap_residue_correlation 6 first_27_primes
          = Reported st
          ∧ gap_tables_keyed st.
Proof.
  assert (6 + START_INDEX + 1 ≤ py_len first_27_primes) as Hlen
    by (vm_compute; discriminate).
  split; [exact Hlen|].
  exact (gap_residue_run_reports 6 first_27_primes Hlen).
Defined.

(** ** Gap statistics *)

Arguments GapResidue.empty_stats : simpl never.

Lemma stat_total_empty field : stat_total field ∅ = 0.
Proof. apply map_fold_empty. Qed.

Lemma stat_total_insert_fresh field (d : gmap Z GapCorr.gap_stat) k e :
  d !! k = None → stat_total field (<[k := e]> d) = field e + stat_total field d.
Proof.
  intros Hk. unfold stat_total.
  rewrite map_fold_insert_L; [done| |done].
  intros. lia.
Qed.

Lemma stat_total_insert field (d : gmap Z GapCorr.gap_stat) k e :
  stat_total field (<[k := e]> d) =
  field e + stat_total field d - default 0 (field <$> d !! k).
Proof.
  destruct (d !! k) as [e0|] eqn:Hk; simpl.
  - rewrite <- (insert_delete_id d k e0 Hk) at 2.
    rewrite <- (insert_delete_eq d k e).
    rewrite !stat_total_insert_fresh by apply lookup_delete_eq. lia.
  - rewrite stat_total_insert_fresh by done. lia.
Qed.

Lemma stat_total_zero field (d : gmap Z GapCorr.gap_stat) :
  (∀ k e, d !! k = Some e → field e = 0) → stat_total field d = 0.
Proof.
  unfold stat_total.
  apply (map_fold_weak_ind
           (λ r (m : gmap Z GapCorr.gap_stat),
              (∀ k e, m !! k = Some e → field e = 0) → r = 0)).
  - done.
  - intros k e m r Hk IH Hall.
    rewrite (Hall k e) by apply lookup_insert_eq.
    rewrite IH; [done|]. intros k' e' Hk'. apply (Hall k').
    rewrite lookup_insert_ne; [done|]. intros ->. congruence.
Qed.

Lemma stat_total_empty_stats field modulus :
  field (GapCorr.mkStat 0 0) = 0 →
  stat_total field (GapResidue.empty_stats modulus) = 0.
Proof.
  intros Hfield. apply stat_total_zero. intros k e Hk.
  unfold GapResidue.empty_stats in Hk.
  destruct (decide (0 ≤ k < modulus)) as [Hr|Hr].
  - rewrite lookup_range_table in Hk by done. by injection Hk as <-.
  - by rewrite lookup_range_table_None in Hk.
Qed.

Lemma add_gap_totals gap_stats residue g gap_stats' :
  GapResidue.add_gap gap_stats residue g = Some gap_stats' →
  stat_total GapCorr.count gap_stats' = stat_total GapCorr.count gap_stats + 1
  ∧ stat_total GapCorr.gap_sum gap_stats'
    = stat_total GapCorr.gap_sum gap_stats + g.
Proof.
  unfold GapResidue.add_gap.
  destruct (gap_stats !! residue) as [e|] eqn:He; [|done].
  intros [= <-]. rewrite !stat_total_insert, He. simpl. lia.
Qed.

Lemma record_gap_totals gap_stats k g :
  stat_total GapCorr.count (GapCorr.record_gap gap_stats k g)
  = stat_total GapCorr.count gap_stats + 1
  ∧ stat_total GapCorr.gap_sum (GapCorr.record_gap gap_stats k g)
    = stat_total GapCorr.gap_sum gap_stats + g.
Proof.
  unfold GapCorr.record_gap. rewrite !stat_total_insert.
  destruct (gap_stats !! k) as [e|]; simpl; lia.
Qed.

Lemma gapresidue_body_sums prime_list i st r :
  gap_tables_sum prime_list i st →
  GapResidue.body prime_list i st = Some r →
  ∃ st', r = Continue st' ∧ gap_tables_sum prime_list (i + 1) st'.
Proof.
  intros (Htotal & H6 & H30 & H210 & Hgaps). unfold GapResidue.body.
  destruct (py_index prime_list i) as [a|] eqn:Ha; [|done].
  destruct (py_index prime_list (i + 1)) as [b|] eqn:Hb; [|done].
  cbn [mbind option_bind].
  destruct (GapResidue.add_gap (GapResidue.gap_stats_mod6 st) _ _)
    as [s6|] eqn:Hs6; [|done].
  destruct (GapResidue.add_gap (GapResidue.gap_stats_mod30 st) _ _)
    as [s30|] eqn:Hs30; [|done].
  destruct (GapResidue.add_gap (GapResidue.gap_stats_mod210 st) _ _)
    as [s210|] eqn:Hs210; [|done].
  cbn [mbind option_bind]. intros [= <-]. eexists. split; [done|].
  apply add_gap_totals in Hs6 as [Hc6 Hg6].
  apply add_gap_totals in Hs30 as [Hc30 Hg30].
  apply add_gap_totals in Hs210 as [Hc210 Hg210].
  unfold gap_tables_sum. simpl.
  split; [lia|]. split; [lia|]. split; [lia|]. split; [lia|].
  intros first last Hfirst Hlast. rewrite Hb in Hlast. injection Hlast as <-.
  destruct (Hgaps first a Hfirst eq_refl) as (? & ? & ?). lia.
Qed.

(** X5.  Gap-residue tables.  At the report of a run over [n_pairs ≥ 0]
    pairs, each of the three tables has counted every anchor once (its
    counts add up to [total_anchors_analyzed = n_pairs]) and each holds the
    same total gap, which telescopes to
    [prime_list[START_INDEX + n_pairs] - prime_list[START_INDEX]]. *)
Theorem gap_residue_tables_agree (n_pairs : Z) (file : list Z)
    (st : GapResidue.state) :
  0 ≤ n_pairs →
  GapResidue.run_PAC_gap_residue_correlation n_pairs file = Reported st →
  GapResidue.total_anchors_analyzed st = n_pairs
  ∧ stat_total GapCorr.count (GapResidue.gap_stats_mod6 st) = n_pairs
  ∧ stat_total GapCorr.count (GapResidue.gap_stats_mod30 st) = n_pairs
  ∧ stat_total GapCorr.count (GapResidue.gap_stats_mod210 st) = n_pairs
  ∧ ∀ first last,
      py_index file START_INDEX = Some first →
      py_index file (START_INDEX + n_pairs) = Some last →
      stat_total GapCorr.gap_sum (GapResidue.gap_stats_mod6 st) = last - first
      ∧ stat_total GapCorr.gap_sum (GapResidue.gap_stats_mod30 st)
        = last - first
      ∧ stat_total GapCorr.gap_sum (GapResidue.gap_stats_mod210 st)
        = last - first.
Proof.
  intros Hn. unfold GapResidue.run_PAC_gap_residue_correlation,
    GapResidue.load_primes_from_file.
  destruct (py_len file <? n_pairs + START_INDEX + 1); [done|].
  cbv zeta. intros Hrun.
  destruct (for_range _ _ _ _) as [r|] eqn:Hloop; [|done].
  destruct (for_range_ind
              (λ i r, ∃ st', r = Continue st' ∧ gap_tables_sum file i st')
              (GapResidue.body file)) with
    (Z.to_nat (n_pairs + START_INDEX - START_INDEX)) START_INDEX
    GapResidue.init r as (m & _ & (st' & -> & Hsum) & Hm); [| |done|].
  - intros i s r' (s' & [= <-] & Hs) Hpass.
    by apply (gapresidue_body_sums _ _ _ _ Hs).
  - eexists. split; [done|]. unfold gap_tables_sum, GapResidue.init.
    cbn [GapResidue.total_anchors_analyzed GapResidue.gap_stats_mod6
         GapResidue.gap_stats_mod30 GapResidue.gap_stats_mod210].
    rewrite !stat_total_empty_stats by reflexivity.
    split; [lia|]. split; [lia|]. split; [lia|]. split; [lia|].
    intros first last Hfirst Hlast. rewrite Hfirst in Hlast.
    injection Hlast as <-. lia.
  - rewrite (Hm st' eq_refl) in Hsum. simpl in Hrun. injection Hrun as <-.
    replace (START_INDEX + Z.of_nat (Z.to_nat (n_pairs + START_INDEX
                                               - START_INDEX)))
      with (START_INDEX + n_pairs) in Hsum by lia.
    destruct Hsum as (? & ? & ? & ? & Hgaps).
    split; [lia|]. split; [lia|]. split; [lia|]. split; [lia|]. exact Hgaps.
Qed.

(** Six pairs from index 10 on the first 27 primes: the gaps from 31 up
    to 59 add up to 28 in every table. *)
Lemma gap_residue_tables_agree_witness :
  0 ≤ 6
  ∧ ∃ st,
      GapResidue.run_PAC_gap_residue_correlation 6 first_27_primes
        = Reported st
      ∧ stat_total GapCorr.count (GapResidue.gap_stats_mod210 st) = 6
      ∧ stat_total GapCorr.gap_sum (GapResidue.gap_stats_mod6 st) = 59 - 31.
Proof.
  assert (0 ≤ 6) as Hn by lia.
  split; [exact Hn|].
  destruct first_27_gapresidue_run as (st & Hrun).
  exists st. split; [exact Hrun|].
  destruct (gap_residue_tables_agree 6 first_27_primes st Hn Hrun)
    as (_ & _ & _ & Hcount & Hgaps).
  split; [exact Hcount|].
  exact (proj1 (Hgaps 31 59 eq_refl eq_refl)).
Defined.

Lemma gapcorr_body_sums prime_list prime_set i st r :
  START_INDEX ≤ i →
  gap_corr_sum prime_list i st →
  GapCorr.body prime_list prime_set i st = Some r →
  ∃ st', r = Continue st' ∧ gap_corr_sum prime_list (i + 1) st'.
Proof.
  intros Hi (Htotal & Hcount & Hfail & Hgaps). unfold GapCorr.body.
  destruct (py_index prime_list i) as [a|] eqn:Ha; [|done].
  destruct (py_index prime_list (i + 1)) as [b|] eqn:Hb; [|done].
  cbn [mbind option_bind].
  destruct (nearest_prime _ _ _ _) as [o|]; [|done].
  cbn [mbind option_bind].
  assert (∀ first last,
            py_index prime_list START_INDEX = Some first →
            py_index prime_list (i + 1) = Some last →
            GapCorr.total_gap_sum_overall st + (b - a) = last - first)
    as Hgaps'.
  { intros first last Hfirst Hlast. rewrite Hb in Hlast.
    injection Hlast as <-.
    rewrite (Hgaps first a Hfirst eq_refl). lia. }
  destruct (min_distance_k o =? 0).
  { intros [= <-]. eexists. split; [done|].
    unfold gap_corr_sum. simpl. split; [lia|]. split; [done|].
    split; [lia|done]. }
  destruct (is_k_composite prime_set (min_distance_k o)).
  - intros [= <-]. eexists. split; [done|].
    destruct (record_gap_totals (GapCorr.gap_stats_by_k st)
                (min_distance_k o) (b - a)) as [Hc _].
    unfold gap_corr_sum. simpl. split; [lia|]. split; [lia|].
    split; [lia|done].
  - intros [= <-]. eexists. split; [done|].
    unfold gap_corr_sum. simpl. split; [lia|]. split; [done|].
    split; [lia|done].
Qed.

(** X6.  Test 6 at its report, after a run over [n_pairs ≥ 0] pairs:
    every anchor of the range has been counted in
    [total_anchors_analyzed], skipped or not; the overall gap sum
    telescopes to [prime_list[START_INDEX + n_pairs] -
    prime_list[START_INDEX]]; the per-distance counts add up to
    [total_law_I_failures], which lies between 0 and [n_pairs]. *)
Theorem gap_correlation_totals (n_pairs : Z) (file : list Z)
    (st : GapCorr.state) :
  0 ≤ n_pairs →
  GapCorr.run_PAC_failure_gap_correlation n_pairs file = Reported st →
  GapCorr.total_anchors_analyzed st = n_pairs
  ∧ stat_total GapCorr.count (GapCorr.gap_stats_by_k st)
    = GapCorr.total_law_I_failures st
  ∧ 0 ≤ GapCorr.total_law_I_failures st ≤ n_pairs
  ∧ ∀ first last,
      py_index file START_INDEX = Some first →
      py_index file (START_INDEX + n_pairs) = Some last →
      GapCorr.total_gap_sum_overall st = last - first.
Proof.
  intros Hn. unfold GapCorr.run_PAC_failure_gap_correlation,
    GapCorr.load_primes_from_file.
  destruct (py_len file <? n_pairs + START_INDEX + 10); [done|].
  cbv zeta. intros Hrun.
  destruct (for_range _ _ _ _) as [r|] eqn:Hloop; [|done].
  destruct (for_range_ind
              (λ i r, START_INDEX ≤ i
                      ∧ ∃ st', r = Continue st' ∧ gap_corr_sum file i st')
              (GapCorr.body file (list_to_set file))) with
    (Z.to_nat (n_pairs + START_INDEX - START_INDEX)) START_INDEX
    GapCorr.init r as (m & _ & (_ & st' & -> & Hsum) & Hm); [| |done|].
  - intros i s r' (Hi & s' & [= <-] & Hs) Hpass. split; [lia|].
    by apply (gapcorr_body_sums _ _ _ _ _ Hi Hs Hpass).
  - split; [done|]. eexists. split; [done|].
    unfold gap_corr_sum. simpl. rewrite stat_total_empty.
    split; [lia|]. split; [done|]. split; [lia|].
    intros first last Hfirst Hlast. rewrite Hfirst in Hlast.
    injection Hlast as <-. lia.
  - rewrite (Hm st' eq_refl) in Hsum. simpl in Hrun. injection Hrun as <-.
    replace (START_INDEX + Z.of_nat (Z.to_nat (n_pairs + START_INDEX
                                               - START_INDEX)))
      with (START_INDEX + n_pairs) in Hsum by lia.
    destruct Hsum as (? & ? & ? & Hgaps).
    split; [lia|]. split; [done|]. split; [lia|]. exact Hgaps.
Qed.

Lemma gap_correlation_totals_witness :
  0 ≤ 6
  ∧ ∃ st,
      GapCorr.run_PAC_failure_gap_correlation 6 first_27_primes = Reported st
      ∧ GapCorr.total_anchors_analyzed st = 6
      ∧ GapCorr.total_gap_sum_overall st = 59 - 31.
Proof.
  assert (0 ≤ 6) as Hn by lia.
  split; [exact Hn|].
  destruct first_27_gapcorr_run as (st & Hrun).
  exists st. split; [exact Hrun|].
  destruct (gap_correlation_totals 6 first_27_primes st Hn Hrun)
    as (Htotal & _ & _ & Hgaps).
  split; [exact Htotal|]. exact (Hgaps 31 59 eq_refl eq_refl).
Defined.

(** ** Test 2 over a whole run *)

(** A pass of test 2 leaves the state alone or classifies one failure. *)
Lemma classifier_body_cases prime_list prime_set i st r :
  Classifier.body prime_list prime_set i st = Some r →
  ∃ a b o,
    py_index prime_list i = Some a
    ∧ py_index prime_list (i + 1) = Some b
    ∧ nearest_prime (in_set prime_set) (in_set prime_set) 2000 (a + b)
      = Some o
    ∧ ((r = Continue st
        ∧ (min_distance_k o = 0
           ∨ is_k_composite prime_set (min_distance_k o) = false))
       ∨ (min_distance_k o ≠ 0
          ∧ is_k_composite prime_set (min_distance_k o) = true
          ∧ r = Continue
                  (Classifier.classify (a + b) (min_distance_k o)
                     (mkEvent i (a + b) (found_prime o) (min_distance_k o))
                     (Classifier.count_failure st)))).
Proof.
  unfold Classifier.body.
  destruct (py_index prime_list i) as [a|]; [|done].
  destruct (py_index prime_list (i + 1)) as [b|]; [|done].
  cbn [mbind option_bind].
  destruct (nearest_prime _ _ _ _) as [o|] eqn:Ho; [|done].
  cbn [mbind option_bind]. intros Hr. exists a, b, o.
  split; [done|]. split; [done|]. split; [done|].
  destruct (Z.eqb_spec (min_distance_k o) 0).
  { injection Hr as <-. left. split; [done|by left]. }
  destruct (is_k_composite prime_set (min_distance_k o)).
  - injection Hr as <-. by right.
  - injection Hr as <-. left. split; [done|by right].
Qed.

Lemma classify_total anchor k ev st :
  Classifier.total_law_I_failures (Classifier.classify anchor k ev st)
  = Classifier.total_law_I_failures st.
Proof.
  unfold Classifier.classify.
  destruct (anchor mod 6 =? 0), (anchor mod 30 =? 0), (anchor mod 210 =? 0);
    done.
Qed.

Lemma classify_p2_failures anchor k ev st :
  Classifier.p2_failures_by_k (Classifier.classify anchor k ev st) =
  if anchor mod 6 =? 0 then dd_incr (Classifier.p2_failures_by_k st) k
  else Classifier.p2_failures_by_k st.
Proof.
  unfold Classifier.classify.
  destruct (anchor mod 6 =? 0), (anchor mod 30 =? 0), (anchor mod 210 =? 0);
    done.
Qed.

Lemma classify_p3_failures anchor k ev st :
  Classifier.p3_failures_by_k (Classifier.classify anchor k ev st) =
  if anchor mod 30 =? 0 then dd_incr (Classifier.p3_failures_by_k st) k
  else Classifier.p3_failures_by_k st.
Proof.
  unfold Classifier.classify.
  destruct (anchor mod 6 =? 0), (anchor mod 30 =? 0), (anchor mod 210 =? 0);
    done.
Qed.

Lemma classify_p4_failures anchor k ev st :
  Classifier.p4_failures_by_k (Classifier.classify anchor k ev st) =
  if anchor mod 210 =? 0 then dd_incr (Classifier.p4_failures_by_k st) k
  else Classifier.p4_failures_by_k st.
Proof.
  unfold Classifier.classify.
  destruct (anchor mod 6 =? 0), (anchor mod 30 =? 0), (anchor mod 210 =? 0);
    done.
Qed.

(** An anchor that 210 divides is divided by 30, one that 30 divides by
    6. *)
Lemma perfect_nesting anchor :
  (anchor mod 210 = 0 → anchor mod 30 = 0)
  ∧ (anchor mod 30 = 0 → anchor mod 6 = 0).
Proof.
  split; intros H.
  - apply Z.mod_divide in H; [|done]. apply Z.mod_divide; [done|].
    destruct H as [c ->]. exists (7 * c). lia.
  - apply Z.mod_divide in H; [|done]. apply Z.mod_divide; [done|].
    destruct H as [c ->]. exists (5 * c). lia.
Qed.

Lemma classifier_body_counts prime_list prime_set i st r :
  classifier_counts i st →
  Classifier.body prime_list prime_set i st = Some r →
  ∃ st', r = Continue st' ∧ classifier_counts (i + 1) st'.
Proof.
  intros (Hv2 & Hv3 & Hv4 & H43 & H32 & H2 & Htotal) Hpass.
  destruct (classifier_body_cases _ _ _ _ _ Hpass)
    as (a & b & o & _ & _ & _ & [[-> _]|(_ & _ & ->)]).
  { eexists. split; [done|]. unfold classifier_counts. lia. }
  eexists. split; [done|]. unfold classifier_counts.
  rewrite classify_violations_p2, classify_violations_p3,
    classify_violations_p4, classify_p2_failures, classify_p3_failures,
    classify_p4_failures, classify_total.
  destruct (perfect_nesting (a + b)) as [H210 H30].
  destruct (Z.eqb_spec ((a + b) mod 6) 0) as [E6|E6];
    destruct (Z.eqb_spec ((a + b) mod 30) 0) as [E30|E30];
    destruct (Z.eqb_spec ((a + b) mod 210) 0) as [E210|E210];
    try (exfalso; auto; fail);
    cbn [andb];
    repeat match goal with
      | |- context [if ?c then _ else _] => destruct c
      end;
    rewrite ?length_app, ?dd_sum_incr; simpl; lia.
Qed.

(** X7.  Counts of test 2 at its report, after a run over [n_pairs ≥ 0]
    pairs.  No violation list is longer than the failure total of its
    filter; the failure totals are nested, 210 within 30 within 6, since
    an anchor that 210 divides is also divided by 30 and 6; and all lie
    within [total_law_I_failures ≤ n_pairs]. *)
Theorem classifier_counts_nested (n_pairs : Z) (file : list Z)
    (st : Classifier.state) :
  0 ≤ n_pairs →
  Classifier.run_PAC_classifier_suite n_pairs file = Reported st →
  Z.of_nat (length (Classifier.violations_p2 st))
    ≤ dd_sum (Classifier.p2_failures_by_k st)
  ∧ Z.of_nat (length (Classifier.violations_p3 st))
    ≤ dd_sum (Classifier.p3_failures_by_k st)
  ∧ Z.of_nat (length (Classifier.violations_p4 st))
    ≤ dd_sum (Classifier.p4_failures_by_k st)
  ∧ dd_sum (Classifier.p4_failures_by_k st)
    ≤ dd_sum (Classifier.p3_failures_by_k st)
  ∧ dd_sum (Classifier.p3_failures_by_k st)
    ≤ dd_sum (Classifier.p2_failures_by_k st)
  ∧ dd_sum (Classifier.p2_failures_by_k st)
    ≤ Classifier.total_law_I_failures st
  ∧ Classifier.total_law_I_failures st ≤ n_pairs.
Proof.
  intros Hn. unfold Classifier.run_PAC_classifier_suite,
    Classifier.load_primes_from_file.
  destruct (py_len file <? n_pairs + START_INDEX + 10); [done|].
  cbv zeta. intros Hrun.
  destruct (for_range _ _ _ _) as [r|] eqn:Hloop; [|done].
  destruct (for_range_ind
              (λ i r, ∃ st', r = Continue st' ∧ classifier_counts i st')
              (Classifier.body file (list_to_set file))) with
    (Z.to_nat (n_pairs + START_INDEX - START_INDEX)) START_INDEX
    Classifier.init r as (m & _ & (st' & -> & Hsum) & Hm); [| |done|].
  - intros i s r' (s' & [= <-] & Hs) Hpass.
    by apply (classifier_body_counts _ _ _ _ _ Hs Hpass).
  - eexists. split; [done|]. unfold classifier_counts. simpl.
    rewrite dd_sum_empty. lia.
  - rewrite (Hm st' eq_refl) in Hsum. simpl in Hrun. injection Hrun as <-.
    unfold classifier_counts in Hsum.
    replace (START_INDEX + Z.of_nat (Z.to_nat (n_pairs + START_INDEX
                                               - START_INDEX)) - START_INDEX)
      with n_pairs in Hsum by lia.
    exact Hsum.
Qed.

Lemma classifier_counts_nested_witness :
  0 ≤ 6
  ∧ ∃ st,
      Classifier.run_PAC_classifier_suite 6 first_27_primes = Reported st
      ∧ dd_sum (Classifier.p2_failures_by_k st)
        ≤ Classifier.total_law_I_failures st.
Proof.
  assert (0 ≤ 6) as Hn by lia.
  split; [exact Hn|].
  destruct first_27_classifier_run as (st & Hrun).
  exists st. split; [exact Hrun|].
  destruct (classifier_counts_nested 6 first_27_primes st Hn Hrun)
    as (_ & _ & _ & _ & _ & H & _).
  exact H.
Defined.

Lemma anchor_at_lookups prime_list i a b :
  py_index prime_list i = Some a →
  py_index prime_list (i + 1) = Some b →
  anchor_at prime_list i = Some (a + b).
Proof. intros Ha Hb. unfold anchor_at. by rewrite Ha, Hb. Qed.

(** The search result decides whether there is a failure at an index. *)
Lemma failure_at_search prime_list prime_set cap i a b o S k :
  py_index prime_list i = Some a →
  py_index prime_list (i + 1) = Some b →
  nearest_prime (in_set prime_set) (in_set prime_set) cap (a + b) = Some o →
  failure_at prime_list prime_set cap i S k →
  S = a + b ∧ min_distance_k o = k ∧ k ≠ 0
  ∧ is_k_composite prime_set (min_distance_k o) = true
  ∧ found_prime o = if in_set prime_set (S - k) then S - k else S + k.
Proof.
  intros Ha Hb Ho (HS & Hleast & Hcomp).
  rewrite (anchor_at_lookups _ _ _ _ Ha Hb) in HS. injection HS as <-.
  rewrite (nearest_prime_found _ _ _ _ _ Hleast) in Ho. injection Ho as <-.
  simpl. destruct Hleast as [? _]. repeat split; (done || lia).
Qed.

Lemma search_failure_at prime_list prime_set cap i a b o :
  1 ≤ cap →
  py_index prime_list i = Some a →
  py_index prime_list (i + 1) = Some b →
  nearest_prime (in_set prime_set) (in_set prime_set) cap (a + b) = Some o →
  min_distance_k o ≠ 0 →
  is_k_composite prime_set (min_distance_k o) = true →
  records_failure prime_list prime_set cap
    (mkEvent i (a + b) (found_prime o) (min_distance_k o)).
Proof.
  intros Hcap Ha Hb Ho Hk Hcomp.
  destruct (nearest_prime_spec _ _ _ _ _ Hcap Ho) as [[-> _]|[Hleast Hq]];
    [done|].
  split; [|done]. split; [by apply anchor_at_lookups|]. by split.
Qed.

Section violations_exact.
Context (prime_list : list Z) (prime_set : gset Z).
Context (viol : Classifier.state → list failure_event) (c : Z → Z → bool).
Context (viol_count : ∀ st, viol (Classifier.count_failure st) = viol st).
Context (viol_classify : ∀ S k ev st,
           viol (Classifier.classify S k ev st)
           = if c S k then viol st ++ [ev] else viol st).

Lemma classifier_body_exact i st r :
  START_INDEX ≤ i →
  exact_upto prime_list prime_set viol c i st →
  Classifier.body prime_list prime_set i st = Some r →
  ∃ st', r = Continue st'
         ∧ exact_upto prime_list prime_set viol c (i + 1) st'.
Proof.
  intros Hi Hexact Hpass.
  destruct (classifier_body_cases _ _ _ _ _ Hpass)
    as (a & b & o & Ha & Hb & Ho & Hcases).
  assert (∀ ev, n_index ev = i →
                records_failure prime_list prime_set 2000 ev →
                min_distance_k o ≠ 0
                ∧ is_k_composite prime_set (min_distance_k o) = true
                ∧ ev = mkEvent i (a + b) (found_prime o) (min_distance_k o))
    as Hat.
  { intros [n S q k] Hn [Hfail Hq]. simpl in *. subst n.
    destruct (failure_at_search _ _ _ _ _ _ _ _ _ Ha Hb Ho Hfail)
      as (-> & Hk & Hk0 & Hcomp & Hfound).
    split; [lia|]. split; [done|]. rewrite Hfound, Hk. by rewrite Hq. }
  destruct Hcases as [[-> Hnone]|(Hk & Hcomp & ->)].
  - eexists. split; [done|]. intros ev. rewrite (Hexact ev). split.
    + intros (? & ? & ?). split; [lia|done].
    + intros (Hrange & Hrec & Hc).
      destruct (decide (n_index ev = i)) as [Hn|Hn]; [|split; [lia|done]].
      destruct (Hat ev Hn Hrec) as (? & ? & _).
      destruct Hnone; congruence.
  - eexists. split; [done|]. intros ev.
    rewrite viol_classify, viol_count.
    pose proof (search_failure_at _ _ 2000 _ _ _ _ ltac:(lia) Ha Hb Ho Hk Hcomp)
      as Hrec_i.
    destruct (c (a + b) (min_distance_k o)) eqn:Hc.
    + rewrite elem_of_app, list_elem_of_singleton, (Hexact ev). split.
      * intros [(? & ? & ?)| ->]; [split; [lia|done]|].
        simpl. split; [lia|]. split; [done|done].
      * intros (Hrange & Hrec & Hcev).
        destruct (decide (n_index ev = i)) as [Hn|Hn];
          [|left; split; [lia|done]].
        right. by destruct (Hat ev Hn Hrec) as (_ & _ & ->).
    + rewrite (Hexact ev). split.
      * intros (? & ? & ?). split; [lia|done].
      * intros (Hrange & Hrec & Hcev).
        destruct (decide (n_index ev = i)) as [Hn|Hn]; [|split; [lia|done]].
        destruct (Hat ev Hn Hrec) as (_ & _ & ->). simpl in Hcev. congruence.
Qed.

Lemma classifier_run_exact n_pairs st :
  0 ≤ n_pairs →
  viol Classifier.init = [] →
  Classifier.run_PAC_classifier_suite n_pairs prime_list = Reported st →
  prime_set = list_to_set prime_list →
  exact_upto prime_list prime_set viol c (START_INDEX + n_pairs) st.
Proof.
  intros Hn Hinit Hrun Hps. revert Hrun.
  unfold Classifier.run_PAC_classifier_suite,
    Classifier.load_primes_from_file.
  destruct (py_len prime_list <? n_pairs + START_INDEX + 10); [done|].
  cbv zeta. rewrite <- Hps. intros Hrun.
  destruct (for_range _ _ _ _) as [r|] eqn:Hloop; [|done].
  destruct (for_range_ind
              (λ i r, START_INDEX ≤ i
                      ∧ ∃ st', r = Continue st'
                               ∧ exact_upto prime_list prime_set viol c i st')
              (Classifier.body prime_list prime_set)) with
    (Z.to_nat (n_pairs + START_INDEX - START_INDEX)) START_INDEX
    Classifier.init r as (m & _ & (_ & st' & -> & Hex) & Hm); [| |done|].
  - intros i s r' (Hi & s' & [= <-] & Hs) Hpass. split; [lia|].
    by apply (classifier_body_exact _ _ _ Hi Hs Hpass).
  - split; [done|]. eexists. split; [done|]. intros ev. rewrite Hinit.
    split; [by intros ?%elem_of_nil|]. intros (? & _). lia.
  - rewrite (Hm st' eq_refl) in Hex. simpl in Hrun. injection Hrun as <-.
    by replace (START_INDEX + Z.of_nat (Z.to_nat (n_pairs + START_INDEX
                                                  - START_INDEX)))
      with (START_INDEX + n_pairs) in Hex by lia.
Qed.

End violations_exact.

(** X8.  The violation lists of test 2 at its report are exact.  After a
    run over [n_pairs ≥ 0] pairs an event is in the list of a filter if
    and only if its index lies in the range of the run, it describes the
    composite failure at that index (anchor, least distance within 2000,
    neighbour with the lower candidate preferred), the modulus divides
    the anchor and one of its odd prime factors divides the distance. *)
Theorem violation_lists_exact (n_pairs : Z) (file : list Z)
    (st : Classifier.state) (ev : failure_event) :
  0 ≤ n_pairs →
  Classifier.run_PAC_classifier_suite n_pairs file = Reported st →
  let in_run :=
    START_INDEX ≤ n_index ev < START_INDEX + n_pairs
    ∧ records_failure file (list_to_set file) 2000 ev in
  (ev ∈ Classifier.violations_p2 st
   ↔ in_run ∧ S_n ev mod 6 = 0 ∧ (3 | k_composite ev))
  ∧ (ev ∈ Classifier.violations_p3 st
     ↔ in_run ∧ S_n ev mod 30 = 0
       ∧ ((3 | k_composite ev) ∨ (5 | k_composite ev)))
  ∧ (ev ∈ Classifier.violations_p4 st
     ↔ in_run ∧ S_n ev mod 210 = 0
       ∧ ((3 | k_composite ev) ∨ (5 | k_composite ev)
          ∨ (7 | k_composite ev))).
Proof.
  intros Hn Hrun in_run. split; [|split].
  - rewrite (classifier_run_exact file (list_to_set file)
               Classifier.violations_p2
               (λ S k, (S mod 6 =? 0) && (k mod 3 =? 0))
               (λ _, eq_refl) classify_violations_p2
               n_pairs st Hn eq_refl Hrun eq_refl ev).
    rewrite andb_true_iff, Z.eqb_eq, mod_eqb_divide by done.
    unfold in_run. tauto.
  - rewrite (classifier_run_exact file (list_to_set file)
               Classifier.violations_p3
               (λ S k, (S mod 30 =? 0) && ((k mod 3 =? 0) || (k mod 5 =? 0)))
               (λ _, eq_refl) classify_violations_p3
               n_pairs st Hn eq_refl Hrun eq_refl ev).
    rewrite andb_true_iff, orb_true_iff, Z.eqb_eq, !mod_eqb_divide by done.
    unfold in_run. tauto.
  - rewrite (classifier_run_exact file (list_to_set file)
               Classifier.violations_p4
               (λ S k, (S mod 210 =? 0)
                       && ((k mod 3 =? 0) || (k mod 5 =? 0)
                           || (k mod 7 =? 0)))
               (λ _, eq_refl) classify_violations_p4
               n_pairs st Hn eq_refl Hrun eq_refl ev).
    rewrite andb_true_iff, !orb_true_iff, Z.eqb_eq, !mod_eqb_divide by done.
    unfold in_run. tauto.
Qed.

(** The one failure of the run over six pairs, 9 below 112 at index 15, is
    in no list: 6 does not divide 112. *)
Lemma violation_lists_exact_witness :
  0 ≤ 6
  ∧ ∃ st,
      Classifier.run_PAC_classifier_suite 6 first_27_primes = Reported st
      ∧ mkEvent 15 112 103 9 ∉ Classifier.violations_p2 st.
Proof.
  assert (0 ≤ 6) as Hn by lia.
  split; [exact Hn|].
  destruct first_27_classifier_run as (st & Hrun).
  exists st. split; [exact Hrun|].
  destruct (violation_lists_exact 6 first_27_primes st (mkEvent 15 112 103 9)
              Hn Hrun) as (Hp2 & _).
  intros Hin. apply Hp2 in Hin. destruct Hin as (_ & Hmod & _).
  vm_compute in Hmod. discriminate Hmod.
Defined.

(** ** The same failures in every script *)

(** Two loops whose passes keep a relation between their states, the
    first one only ever continuing, end related. *)
Lemma for_range_sim {A B : Type} (R : A → B → Prop)
    (body_a : Z → A → option (flow A)) (body_b : Z → B → option (flow B)) :
  (∀ i a b r, R a b → body_a i a = Some r →
     ∃ a' b', r = Continue a' ∧ body_b i b = Some (Continue b') ∧ R a' b') →
  ∀ n start a b r,
    R a b → for_range n start body_a a = Some r →
    ∃ a' b', r = Continue a'
             ∧ for_range n start body_b b = Some (Continue b') ∧ R a' b'.
Proof.
  intros Hstep n. induction n as [|n IH]; intros start a b r HR; simpl.
  { intros [= <-]. by exists a, b. }
  destruct (body_a start a) as [ra|] eqn:Ha; [|done].
  destruct (Hstep _ _ _ _ HR Ha) as (a' & b' & -> & -> & HR').
  by apply IH.
Qed.

(** A hit within 2000 is found again when the cap is 3000. *)
Lemma nearest_prime_cap_mono lo hi anchor o :
  nearest_prime lo hi 2000 anchor = Some o →
  min_distance_k o ≠ 0 →
  nearest_prime lo hi 3000 anchor = Some o.
Proof.
  intros Ho Hk.
  destruct (nearest_prime_spec lo hi 2000 anchor o ltac:(lia) Ho)
    as [[-> _]|[(Hr & Hhit & Hmiss) Hq]]; [by elim Hk|].
  rewrite (nearest_prime_found lo hi 3000 anchor (min_distance_k o)).
  - rewrite <- Hq. by destruct o.
  - split; [lia|]. by split.
Qed.

Section same_failures.
Context (prime_list : list Z) (prime_set : gset Z) (i : Z).

Lemma classifier_residue_step s2 s3 r :
  Classifier.total_law_I_failures s2 = Residue.total_law_I_failures s3
  ∧ Residue.failures_by_residue s3 !! 0
    = Some (Classifier.p3_failures_by_k s2)
  ∧ has_residues 30 (Residue.failures_by_residue s3) →
  Classifier.body prime_list prime_set i s2 = Some r →
  ∃ s2' s3',
    r = Continue s2'
    ∧ Residue.body prime_list prime_set i s3 = Some (Continue s3')
    ∧ (Classifier.total_law_I_failures s2' = Residue.total_law_I_failures s3'
       ∧ Residue.failures_by_residue s3' !! 0
         = Some (Classifier.p3_failures_by_k s2')
       ∧ has_residues 30 (Residue.failures_by_residue s3')).
Proof.
  intros (Htotal & Hzero & Hkeys) Hpass.
  destruct (classifier_body_cases _ _ _ _ _ Hpass)
    as (a & b & o & Ha & Hb & Ho & Hcases).
  unfold Residue.body. rewrite Ha, Hb. cbn [mbind option_bind].
  rewrite Ho. cbn [mbind option_bind].
  destruct Hcases as [[-> Hnone]|(Hk & Hcomp & ->)].
  - exists s2, s3. split; [done|]. split; [|done].
    destruct Hnone as [-> | Hnot]; [done|].
    rewrite Hnot. by destruct (min_distance_k o =? 0).
  - destruct (Z.eqb_spec (min_distance_k o) 0); [done|]. rewrite Hcomp.
    pose proof (Z.mod_pos_bound (a + b) 30 ltac:(lia)) as Hres.
    destruct (proj2 (Hkeys ((a + b) mod 30)) Hres) as [failure_data Hdata].
    rewrite Hdata. cbn [mbind option_bind].
    do 2 eexists. split; [done|]. split; [done|]. simpl.
    rewrite classify_total, classify_p3_failures. simpl.
    split; [lia|]. split; [|by apply has_residues_insert].
    destruct (Z.eqb_spec ((a + b) mod 30) 0) as [E|E].
    + rewrite E in *. rewrite lookup_insert_eq. congruence.
    + by rewrite lookup_insert_ne.
Qed.

Lemma classifier_gapcorr_step s2 s6 r :
  Classifier.total_law_I_failures s2 = GapCorr.total_law_I_failures s6 →
  Classifier.body prime_list prime_set i s2 = Some r →
  ∃ s2' s6',
    r = Continue s2'
    ∧ GapCorr.body prime_list prime_set i s6 = Some (Continue s6')
    ∧ Classifier.total_law_I_failures s2' = GapCorr.total_law_I_failures s6'.
Proof.
  intros Htotal Hpass.
  destruct (classifier_body_cases _ _ _ _ _ Hpass)
    as (a & b & o & Ha & Hb & Ho & Hcases).
  unfold GapCorr.body. rewrite Ha, Hb. cbn [mbind option_bind].
  rewrite Ho. cbn [mbind option_bind].
  destruct Hcases as [[-> Hnone]|(Hk & Hcomp & ->)].
  - destruct Hnone as [-> | Hnot].
    + do 2 eexists. split; [done|]. split; [done|]. done.
    + rewrite Hnot. destruct (min_distance_k o =? 0);
        (do 2 eexists; split; [done|]; split; [done|]; done).
  - destruct (Z.eqb_spec (min_distance_k o) 0); [done|]. rewrite Hcomp.
    do 2 eexists. split; [done|]. split; [done|]. simpl.
    rewrite classify_total. simpl. lia.
Qed.

Lemma classifier_p5_step s2 s4 r :
  Classifier.total_law_I_failures s2 ≤ P5.total_law_I_failures s4 →
  Classifier.body prime_list prime_set i s2 = Some r →
  ∃ s2' s4',
    r = Continue s2'
    ∧ P5.body prime_list prime_set i s4 = Some (Continue s4')
    ∧ Classifier.total_law_I_failures s2' ≤ P5.total_law_I_failures s4'.
Proof.
  intros Htotal Hpass.
  destruct (classifier_body_cases _ _ _ _ _ Hpass)
    as (a & b & o & Ha & Hb & Ho & Hcases).
  destruct (decide ((a + b) mod 2310 = 0)) as [Hperfect|Himperfect].
  - destruct Hcases as [[-> Hnone]|(Hk & Hcomp & ->)].
    + assert (∃ s4', P5.body prime_list prime_set i s4 = Some (Continue s4')
                     ∧ P5.total_law_I_failures s4
                       ≤ P5.total_law_I_failures s4') as (s4' & Hs4' & Hle).
      { unfold P5.body. rewrite Ha, Hb. cbn [mbind option_bind].
        rewrite Hperfect. cbn [Z.eqb].
        destruct (nearest_prime_total (in_set prime_set) (in_set prime_set)
                    3000 (a + b)) as [o3 ->].
        cbn [mbind option_bind].
        repeat case_match; (eexists; split; [done|]; simpl; lia). }
      exists s2, s4'. split; [done|]. split; [done|]. lia.
    + pose proof (nearest_prime_cap_mono _ _ _ _ Ho Hk) as Ho3.
      destruct (p5_body_failure _ _ _ _ _ _ s4 Ha Hb Hperfect Ho3 Hk Hcomp)
        as (s4' & Hs4' & Ht & _).
      do 2 eexists. split; [done|]. split; [done|].
      rewrite classify_total. simpl. lia.
  - destruct (p5_body_imperfect _ prime_set _ _ _ s4 Ha Hb Himperfect)
      as (k & Hk2 & Hs4').
    rewrite search_either_eq, Ho in Hk2. injection Hk2 as <-.
    destruct Hcases as [[-> Hnone]|(Hk & Hcomp & ->)].
    + do 2 eexists. split; [done|]. split; [exact Hs4'|]. simpl.
      repeat case_match; lia.
    + do 2 eexists. split; [done|]. split; [exact Hs4'|]. simpl.
      rewrite classify_total, Hcomp. simpl.
      pose proof (search_loop_spec _ _ _ _ _ _ _ Ho) as Hspec.
      destruct Hspec as [[-> _]|(? & _)]; [by elim Hk|].
      destruct (Z.gtb_spec (min_distance_k o) 0); simpl; lia.
Qed.

End same_failures.

(** Test 3 run beside test 2: same total, and its table for residue 0 is
    the table of test 2 for anchors that 30 divides. *)
Lemma residue_run_matches n_pairs file s2 :
  Classifier.run_PAC_classifier_suite n_pairs file = Reported s2 →
  ∃ s3,
    Residue.run_PAC_residue_analysis_mod30 n_pairs file = Reported s3
    ∧ Residue.total_law_I_failures s3 = Classifier.total_law_I_failures s2
    ∧ Residue.failures_by_residue s3 !! 0
      = Some (Classifier.p3_failures_by_k s2).
Proof.
  unfold Classifier.run_PAC_classifier_suite,
    Classifier.load_primes_from_file,
    Residue.run_PAC_residue_analysis_mod30, Residue.load_primes_from_file.
  destruct (py_len file <? n_pairs + START_INDEX + 10); [done|].
  cbv zeta. intros Hrun.
  destruct (for_range _ _ (Classifier.body _ _) _) as [r|] eqn:Hloop;
    [|done].
  destruct (for_range_sim
              (λ a b,
                 Classifier.total_law_I_failures a
                 = Residue.total_law_I_failures b
                 ∧ Residue.failures_by_residue b !! 0
                   = Some (Classifier.p3_failures_by_k a)
                 ∧ has_residues 30 (Residue.failures_by_residue b))
              _ (Residue.body file (list_to_set file))
              (classifier_residue_step file (list_to_set file))
              (Z.to_nat (n_pairs + START_INDEX - START_INDEX)) START_INDEX
              Classifier.init Residue.init r) as
    (s2' & s3 & -> & Hloop3 & Htotal & Hzero & _); [|exact Hloop|].
  { split; [done|]. split; [|apply has_residues_init].
    unfold Residue.init.
    cbn [Residue.failures_by_residue Classifier.p3_failures_by_k
         Classifier.init].
    by apply lookup_range_table. }
  simpl in Hrun. injection Hrun as <-.
  exists s3. rewrite Hloop3. by repeat split.
Qed.

(** X9.  The scripts agree on the failures.  On the same prime file and
    run size, tests 2, 3 and 6 end with the same [total_law_I_failures];
    the table test 3 keeps for residue 0 is the table test 2 keeps for
    anchors that 30 divides; and test 4, which searches its perfect
    anchors up to 3000, counts at least as many failures as test 2. *)
Theorem scripts_agree_on_failures (n_pairs : Z) (file : list Z)
    (s2 : Classifier.state) :
  Classifier.run_PAC_classifier_suite n_pairs file = Reported s2 →
  (∃ s3,
     Residue.run_PAC_residue_analysis_mod30 n_pairs file = Reported s3
     ∧ Residue.total_law_I_failures s3 = Classifier.total_law_I_failures s2
     ∧ Residue.failures_by_residue s3 !! 0
       = Some (Classifier.p3_failures_by_k s2))
  ∧ (∃ s6,
       GapCorr.run_PAC_failure_gap_correlation n_pairs file = Reported s6
       ∧ GapCorr.total_law_I_failures s6
         = Classifier.total_law_I_failures s2)
  ∧ (∃ s4,
       P5.run_PAC_mod2310_verification n_pairs file = Reported s4
       ∧ Classifier.total_law_I_failures s2 ≤ P5.total_law_I_failures s4).
Proof.
  intros Hrun0. split; [exact (residue_run_matches n_pairs file s2 Hrun0)|].
  revert Hrun0.
  unfold Classifier.run_PAC_classifier_suite,
    Classifier.load_primes_from_file,
    GapCorr.run_PAC_failure_gap_correlation, GapCorr.load_primes_from_file,
    P5.run_PAC_mod2310_verification, P5.load_primes_from_file.
  destruct (py_len file <? n_pairs + START_INDEX + 10); [done|].
  cbv zeta. intros Hrun.
  destruct (for_range _ _ (Classifier.body _ _) _) as [r|] eqn:Hloop;
    [|done].
  split.
  - destruct (for_range_sim
                (λ a b,
                   Classifier.total_law_I_failures a
                   = GapCorr.total_law_I_failures b)
                _ (GapCorr.body file (list_to_set file))
                (classifier_gapcorr_step file (list_to_set file))
                (Z.to_nat (n_pairs + START_INDEX - START_INDEX)) START_INDEX
                Classifier.init GapCorr.init r) as
      (s2' & s6 & -> & Hloop6 & Htotal); [done|exact Hloop|].
    simpl in Hrun. injection Hrun as <-.
    exists s6. rewrite Hloop6. by split.
  - destruct (for_range_sim
                (λ a b,
                   Classifier.total_law_I_failures a
                   ≤ P5.total_law_I_failures b)
                _ (P5.body file (list_to_set file))
                (classifier_p5_step file (list_to_set file))
                (Z.to_nat (n_pairs + START_INDEX - START_INDEX)) START_INDEX
                Classifier.init P5.init r) as
      (s2' & s4 & -> & Hloop4 & Htotal); [done|exact Hloop|].
    simpl in Hrun. injection Hrun as <-.
    exists s4. rewrite Hloop4. by split.
Qed.

Lemma scripts_agree_on_failures_witness :
  ∃ s2,
    Classifier.run_PAC_classifier_suite 6 first_27_primes = Reported s2
    ∧ ∃ s6,
        GapCorr.run_PAC_failure_gap_correlation 6 first_27_primes
          = Reported s6
        ∧ GapCorr.total_law_I_failures s6
          = Classifier.total_law_I_failures s2.
Proof.
  destruct first_27_classifier_run as (s2 & Hrun).
  exists s2. split; [exact Hrun|].
  exact (proj1 (proj2 (scripts_agree_on_failures 6 first_27_primes s2 Hrun))).
Defined.

(** ** The residue-0 check of test 3 *)

Lemma forbidden_k_found_empty (failure_data : gmap Z Z) :
  Residue.forbidden_k_found failure_data = ∅
  ↔ ∀ k, is_Some (failure_data !! k) → ¬ (k mod 3 = 0 ∨ k mod 5 = 0).
Proof.
  unfold Residue.forbidden_k_found.
  rewrite dom_empty_iff_L, map_empty_filter. unfold map_Forall. split.
  - intros Hall k [c Hc]. exact (Hall k c Hc).
  - intros Hall k c Hc. apply (Hall k). by eexists.
Qed.

Lemma classifier_body_forbidden_keys prime_list prime_set i st r :
  forbidden_keys_logged st →
  Classifier.body prime_list prime_set i st = Some r →
  forbidden_keys_logged (flow_state r).
Proof.
  intros Hinv Hpass.
  destruct (classifier_body_cases _ _ _ _ _ Hpass)
    as (a & b & o & _ & _ & _ & [[-> _]|(_ & _ & ->)]); [done|].
  intros k. specialize (Hinv k). simpl.
  rewrite classify_p3_failures, classify_violations_p3. simpl.
  destruct ((a + b) mod 30 =? 0); [|apply Hinv]. cbn [andb].
  unfold dd_incr. rewrite lookup_insert_is_Some.
  destruct ((min_distance_k o mod 3 =? 0) || (min_distance_k o mod 5 =? 0))
    eqn:Hforb.
  - apply orb_true_iff in Hforb. rewrite !Z.eqb_eq in Hforb.
    setoid_rewrite elem_of_app. setoid_rewrite list_elem_of_singleton.
    split.
    + intros [[<- |[_ Hsome]] Hk].
      * eexists. split; [by right|done].
      * destruct (proj1 Hinv) as (ev & ? & ?); [done|].
        exists ev. split; [by left|done].
    + intros (ev & [Hev | ->] & Hk).
      * destruct (proj2 Hinv) as [? ?]; [by exists ev|].
        split; [|done].
        destruct (decide (min_distance_k o = k)); [by left|by right].
      * simpl in Hk. subst k. split; [by left|done].
  - apply orb_false_iff in Hforb. rewrite !Z.eqb_neq in Hforb. split.
    + intros [[<- |[_ Hsome]] Hk]; [destruct Hk, Hforb; done|].
      by apply Hinv.
    + intros Hev. destruct (proj2 Hinv Hev) as [? ?]. split; [|done].
      destruct (decide (min_distance_k o = k)); [by left|by right].
Qed.

(** X10.  Test 3 and test 2 give the same verdict on perfect anchors
    mod 30.  Run on the same file and run size, the set
    [forbidden_k_found] that test 3 computes from its table for residue 0
    is empty exactly when test 2 ends with an empty [violations_p3]. *)
Theorem residue_zero_verdict_matches (n_pairs : Z) (file : list Z)
    (s2 : Classifier.state) (s3 : Residue.state) :
  Classifier.run_PAC_classifier_suite n_pairs file = Reported s2 →
  Residue.run_PAC_residue_analysis_mod30 n_pairs file = Reported s3 →
  ∃ failure_data,
    Residue.failures_by_residue s3 !! 0 = Some failure_data
    ∧ (Residue.forbidden_k_found failure_data = ∅
       ↔ Classifier.violations_p3 s2 = []).
Proof.
  intros Hrun2 Hrun3.
  destruct (residue_run_matches _ _ _ Hrun2) as (s3' & Hrun3' & _ & Hzero).
  rewrite Hrun3 in Hrun3'. injection Hrun3' as <-.
  exists (Classifier.p3_failures_by_k s2). split; [done|].
  assert (forbidden_keys_logged s2) as Hinv.
  { revert Hrun2. unfold Classifier.run_PAC_classifier_suite,
      Classifier.load_primes_from_file.
    destruct (py_len file <? n_pairs + START_INDEX + 10); [done|].
    cbv zeta. intros Hrun2.
    destruct (for_range _ _ _ _) as [r|] eqn:Hloop; [|done].
    assert (forbidden_keys_logged (flow_state r)) as Hr.
    { revert Hloop. apply (for_range_invariant forbidden_keys_logged).
      - intros i st r' Hst Hpass.
        by apply (classifier_body_forbidden_keys _ _ _ _ _ Hst Hpass).
      - intros k. simpl. rewrite lookup_empty. split.
        + by intros [[? [=]] _].
        + by intros (ev & ?%elem_of_nil & _). }
    destruct r as [st|st|st]; simpl in Hrun2; [| |done];
      by injection Hrun2 as <-. }
  rewrite forbidden_k_found_empty. split.
  - intros Hnone. destruct (Classifier.violations_p3 s2) as [|ev l] eqn:Hv;
      [done|].
    exfalso. destruct (proj2 (Hinv (k_composite ev))) as [Hsome Hforb].
    { exists ev. rewrite Hv. split; [by left|done]. }
    exact (Hnone _ Hsome Hforb).
  - intros Hempty k Hsome Hforb.
    destruct (proj1 (Hinv k)) as (ev & Hev & _); [done|].
    rewrite Hempty in Hev. by apply elem_of_nil in Hev.
Qed.

Lemma first_27_residue_run :
  ∃ st, Residue.run_PAC_residue_analysis_mod30 6 first_27_primes
        = Reported st.
Proof. eexists. vm_compute. reflexivity. Qed.

Lemma residue_zero_verdict_matches_witness :
  ∃ s2 s3,
    Classifier.run_PAC_classifier_suite 6 first_27_primes = Reported s2
    ∧ Residue.run_PAC_residue_analysis_mod30 6 first_27_primes = Reported s3
    ∧ ∃ failure_data,
        Residue.failures_by_residue s3 !! 0 = Some failure_data
        ∧ (Residue.forbidden_k_found failure_data = ∅
           ↔ Classifier.violations_p3 s2 = []).
Proof.
  destruct first_27_classifier_run as (s2 & Hrun2).
  destruct first_27_residue_run as (s3 & Hrun3).
  exists s2, s3. split; [exact Hrun2|]. split; [exact Hrun3|].
  exact (residue_zero_verdict_matches 6 first_27_primes s2 s3 Hrun2 Hrun3).
Defined.

(** ** Test 3: the residue tables *)

Lemma class_totals_insert_fresh (t : gmap Z (gmap Z Z)) r d :
  t !! r = None → class_totals (<[r := d]> t) = dd_sum d + class_totals t.
Proof.
  intros Hr. unfold class_totals.
  rewrite map_fold_insert_L; [done| |done].
  intros. lia.
Qed.

Lemma class_totals_insert (t : gmap Z (gmap Z Z)) r d d0 :
  t !! r = Some d0 →
  class_totals (<[r := d]> t) = dd_sum d + class_totals t - dd_sum d0.
Proof.
  intros Hr.
  rewrite <- (insert_delete_id t r d0 Hr) at 2.
  rewrite <- (insert_delete_eq t r d).
  rewrite !class_totals_insert_fresh by apply lookup_delete_eq. lia.
Qed.

Lemma class_totals_zero (t : gmap Z (gmap Z Z)) :
  (∀ r d, t !! r = Some d → dd_sum d = 0) → class_totals t = 0.
Proof.
  unfold class_totals.
  apply (map_fold_weak_ind
           (λ acc (m : gmap Z (gmap Z Z)),
              (∀ r d, m !! r = Some d → dd_sum d = 0) → acc = 0)).
  - done.
  - intros r d m acc Hr IH Hall.
    rewrite (Hall r d) by apply lookup_insert_eq.
    rewrite IH; [done|]. intros r' d' Hr'. apply (Hall r').
    rewrite lookup_insert_ne; [done|]. intros ->. congruence.
Qed.

Lemma residue_body_sums prime_list prime_set i st r :
  residue_tables_sum i st →
  Residue.body prime_list prime_set i st = Some r →
  ∃ st', r = Continue st' ∧ residue_tables_sum (i + 1) st'.
Proof.
  intros (Hkeys & Hsum & Hrange). unfold Residue.body.
  destruct (py_index prime_list i) as [a|]; [|done].
  destruct (py_index prime_list (i + 1)) as [b|]; [|done].
  cbn [mbind option_bind].
  destruct (nearest_prime _ _ _ _) as [o|]; [|done].
  cbn [mbind option_bind].
  destruct (min_distance_k o =? 0).
  { intros [= <-]. eexists. split; [done|]. split; [done|]. split; [done|lia]. }
  destruct (is_k_composite prime_set (min_distance_k o)).
  - destruct (Residue.failures_by_residue st !! _) as [d0|] eqn:Hd0; [|done].
    cbn [mbind option_bind]. intros [= <-]. eexists. split; [done|].
    unfold residue_tables_sum. simpl. split; [|split; [|lia]].
    + apply has_residues_insert; [|done]. apply Z.mod_pos_bound. lia.
    + rewrite (class_totals_insert _ _ _ d0 Hd0), dd_sum_incr. lia.
  - intros [= <-]. eexists. split; [done|]. split; [done|]. split; [done|lia].
Qed.

(** X11.  Test 3 at its report, after a run over [n_pairs ≥ 0] pairs:
    the table still has exactly the keys 0 to 29, and the failures of all
    residue classes add up to [total_law_I_failures], which lies between
    0 and [n_pairs]. *)
Theorem residue_tables_partition (n_pairs : Z) (file : list Z)
    (st : Residue.state) :
  0 ≤ n_pairs →
  Residue.run_PAC_residue_analysis_mod30 n_pairs file = Reported st →
  has_residues 30 (Residue.failures_by_residue st)
  ∧ class_totals (Residue.failures_by_residue st)
    = Residue.total_law_I_failures st
  ∧ 0 ≤ Residue.total_law_I_failures st ≤ n_pairs.
Proof.
  intros Hn. unfold Residue.run_PAC_residue_analysis_mod30,
    Residue.load_primes_from_file.
  destruct (py_len file <? n_pairs + START_INDEX + 10); [done|].
  cbv zeta. intros Hrun.
  destruct (for_range _ _ _ _) as [r|] eqn:Hloop; [|done].
  destruct (for_range_ind
              (λ i r, ∃ st', r = Continue st' ∧ residue_tables_sum i st')
              (Residue.body file (list_to_set file))) with
    (Z.to_nat (n_pairs + START_INDEX - START_INDEX)) START_INDEX
    Residue.init r as (m & _ & (st' & -> & Hsum) & Hm); [| |done|].
  - intros i s r' (s' & [= <-] & Hs) Hpass.
    by apply (residue_body_sums _ _ _ _ _ Hs Hpass).
  - eexists. split; [done|]. unfold residue_tables_sum, Residue.init.
    cbn [Residue.failures_by_residue Residue.total_law_I_failures].
    split; [apply has_residues_init|]. split; [|lia].
    apply class_totals_zero. intros r0 d Hd.
    destruct (decide (0 ≤ r0 < 30)) as [Hr|Hr].
    + rewrite lookup_range_table in Hd by done. injection Hd as <-.
      apply dd_sum_empty.
    + by rewrite lookup_range_table_None in Hd.
  - rewrite (Hm st' eq_refl) in Hsum. simpl in Hrun. injection Hrun as <-.
    destruct Hsum as (? & ? & ?). split; [done|]. split; [done|]. lia.
Qed.

Lemma residue_tables_partition_witness :
  0 ≤ 6
  ∧ ∃ st,
      Residue.run_PAC_residue_analysis_mod30 6 first_27_primes = Reported st
      ∧ class_totals (Residue.failures_by_residue st)
        = Residue.total_law_I_failures st.
Proof.
  assert (0 ≤ 6) as Hn by lia.
  split; [exact Hn|].
  destruct first_27_residue_run as (st & Hrun).
  exists st. split; [exact Hrun|].
  exact (proj1 (proj2 (residue_tables_partition 6 first_27_primes st Hn Hrun))).
Defined.

(** ** Test 5 over a whole run *)

(** A pass of test 5 leaves the state alone, appends one well-formed row
    and raises the largest radius seen to at least its radius, or records
    the index and breaks. *)
Lemma law3_body_cases prime_list prime_set i st r :
  Law3.body prime_list prime_set i st = Some r →
  r = Continue st
  ∨ (∃ row,
       row_well_formed row
       ∧ r = Continue
               (Law3.mkState (Law3.total_law_I_failures st + 1)
                  (Z.max (Law3.fix_radius_r row) (Law3.max_r_observed st))
                  (Law3.law_III_failures st)
                  (Law3.correlation_data st ++ [row])))
  ∨ r = Break
          (Law3.mkState (Law3.total_law_I_failures st + 1)
             (Law3.max_r_observed st) (Law3.law_III_failures st ++ [i])
             (Law3.correlation_data st)).
Proof.
  unfold Law3.body.
  destruct (py_index prime_list i) as [a|]; [|done].
  destruct (py_index prime_list (i + 1)) as [b|]; [|done].
  cbn [mbind option_bind].
  destruct (nearest_prime _ _ _ _) as [o|]; [|done].
  cbn [mbind option_bind].
  destruct (min_distance_k o =? 0); [intros [= <-]; by left|].
  destruct (is_k_composite prime_set (min_distance_k o));
    [|intros [= <-]; by left].
  destruct (Law3.law3_search _ _ _ _) as [f|] eqn:Hf; [|done].
  cbn [mbind option_bind].
  destruct (Law3.fix_found f) eqn:Hfound; intros [= <-];
    [|by right; right].
  right. left. eexists. split; [|f_equal; f_equal].
  - unfold row_well_formed, Law3.MAX_LAW_III_RADIUS. simpl.
    split; [|done].
    unfold Law3.law3_search, Law3.MAX_LAW_III_RADIUS in Hf.
    destruct (law3_loop_spec _ _ _ _ _ _ _ Hf) as [[-> _]|(_ & Hr & _)];
      [done|]. lia.
  - simpl. destruct (Z.gtb_spec (Law3.fixing_radius_r f)
                       (Law3.max_r_observed st)); lia.
Qed.

Lemma law3_body_consistent prime_list prime_set i st r :
  law3_consistent st → Law3.law_III_failures st = [] →
  Law3.body prime_list prime_set i st = Some r →
  law3_consistent (flow_state r)
  ∧ match r with
    | Continue st' => Law3.law_III_failures st' = []
    | Break st' => Law3.law_III_failures st' = [i]
    | Return _ => False
    end.
Proof.
  intros (Hlen & Hmax & Hrows & Hnone & Hsome) Hfails Hpass.
  destruct (law3_body_cases _ _ _ _ _ Hpass)
    as [-> |[(row & Hrow & ->)| ->]].
  - split; [|exact Hfails]. simpl.
    split; [exact Hlen|]. split; [exact Hmax|]. split; [exact Hrows|].
    split; [exact Hnone|exact Hsome].
  - split; [|done]. unfold law3_consistent. simpl.
    pose proof Hrow as (Hr & _). unfold Law3.MAX_LAW_III_RADIUS in *.
    split; [rewrite length_app; simpl; lia|]. split; [lia|].
    split; [|split].
    + apply Forall_app. split.
      * eapply Forall_impl; [exact Hrows|]. intros row' [? ?].
        split; [done|lia].
      * apply Forall_singleton. split; [done|lia].
    + intros Happ. by apply app_eq_nil in Happ as [_ ?].
    + intros _.
      destruct (Z.max_spec (Law3.fix_radius_r row) (Law3.max_r_observed st))
        as [[Hlt ->]|[Hle ->]].
      * destruct (Law3.correlation_data st) as [|row0 rows] eqn:Hdata.
        { specialize (Hnone eq_refl). lia. }
        destruct Hsome as (row' & Hin & Hr'); [done|].
        exists row'. split; [|done]. apply elem_of_app. by left.
      * exists row. split; [|done]. apply elem_of_app. right. by left.
  - split; [|by rewrite Hfails]. unfold law3_consistent. simpl.
    split; [rewrite length_app; simpl; lia|]. done.
Qed.

(** X12.  The report of test 5 is consistent.  Every Law I failure counted
    is either a row of [correlation_data] or the one index in
    [law_III_failures]; that list is empty or holds the single index at
    which the run stopped; every row has a radius between 1 and 30 and
    residues computed from its own anchors; and [max_r_observed] is the
    largest radius among the rows (0 when there is none). *)
Theorem law3_report_consistent (n_pairs : Z) (file : list Z)
    (st : Law3.state) :
  Law3.run_PAC_Law3_correlation_test n_pairs file = Reported st →
  Z.of_nat (length (Law3.correlation_data st))
  + Z.of_nat (length (Law3.law_III_failures st))
  = Law3.total_law_I_failures st
  ∧ (Law3.law_III_failures st = [] ∨ ∃ i, Law3.law_III_failures st = [i])
  ∧ Forall (λ row, row_well_formed row
                   ∧ Law3.fix_radius_r row ≤ Law3.max_r_observed st)
      (Law3.correlation_data st)
  ∧ (Law3.correlation_data st = [] → Law3.max_r_observed st = 0)
  ∧ (Law3.correlation_data st ≠ [] →
     ∃ row, row ∈ Law3.correlation_data st
            ∧ Law3.fix_radius_r row = Law3.max_r_observed st).
Proof.
  unfold Law3.run_PAC_Law3_correlation_test, Law3.load_primes_from_file.
  destruct (py_len file <? _); [done|]. cbv zeta.
  destruct (_ >=? _); [done|]. intros Hrun.
  destruct (for_range _ _ _ _) as [r|] eqn:Hloop; [|done].
  destruct (for_range_ind
              (λ _ r, law3_consistent (flow_state r)
                      ∧ match r with
                        | Continue st' => Law3.law_III_failures st' = []
                        | Break st' => ∃ i, Law3.law_III_failures st' = [i]
                        | Return _ => False
                        end)
              (Law3.body file (list_to_set file))) with
    (Z.to_nat (n_pairs + (START_INDEX + Law3.MAX_LAW_III_RADIUS)
               - (START_INDEX + Law3.MAX_LAW_III_RADIUS)))
    (START_INDEX + Law3.MAX_LAW_III_RADIUS)
    Law3.init r as (m & _ & (Hcons & Hflow) & _); [| |done|].
  - intros i s r' (Hs & Hfails) Hpass.
    destruct (law3_body_consistent _ _ _ _ _ Hs Hfails Hpass) as [? Hr'].
    split; [done|]. destruct r'; [done|by eexists|done].
  - split; [|done]. unfold law3_consistent, Law3.MAX_LAW_III_RADIUS. simpl.
    split; [done|]. split; [lia|]. split; [by apply Forall_nil|].
    split; [done|]. by intros [].
  - destruct Hcons as (Hlen & _ & Hrows & Hnone & Hsome).
    destruct r as [st'|st'|st']; simpl in Hrun, Hflow; [| |done];
      injection Hrun as <-; simpl in *.
    + split; [done|]. split; [by left|]. done.
    + split; [done|]. split; [by right|]. done.
Qed.

(** Twenty pairs from index 40 of the fixture include the failure at
    index 55, corrected at radius 1. *)
Lemma law3_report_consistent_witness :
  ∃ st,
    Law3.run_PAC_Law3_correlation_test 20 primes_below_2600 = Reported st
    ∧ Law3.total_law_I_failures st = 1
    ∧ Law3.max_r_observed st = 1
    ∧ Z.of_nat (length (Law3.correlation_data st))
      + Z.of_nat (length (Law3.law_III_failures st))
      = Law3.total_law_I_failures st.
Proof.
  assert (∃ st,
            Law3.run_PAC_Law3_correlation_test 20 primes_below_2600
              = Reported st
            ∧ Law3.total_law_I_failures st = 1
            ∧ Law3.max_r_observed st = 1) as (st & Hrun & Htotal & Hmax).
  { eexists. split; [vm_compute; reflexivity|]. split; reflexivity. }
  exists st. split; [exact Hrun|]. split; [exact Htotal|].
  split; [exact Hmax|].
  exact (proj1 (law3_report_consistent 20 primes_below_2600 st Hrun)).
Defined.

(** ** Test 4 over a whole run *)

(** A pass of test 4 changes its counters in one of three ways. *)
Lemma p5_body_cases prime_list prime_set i st r :
  P5.body prime_list prime_set i st = Some r →
  (∃ total,
     (total = P5.total_law_I_failures st
      ∨ total = P5.total_law_I_failures st + 1)
     ∧ r = Continue
             (P5.mkState total (P5.perfect_mod2310_anchors_found st)
                (P5.failures_from_perfect_mod2310 st) (P5.violations_p5 st)))
  ∨ r = Continue
          (P5.mkState (P5.total_law_I_failures st)
             (P5.perfect_mod2310_anchors_found st + 1)
             (P5.failures_from_perfect_mod2310 st) (P5.violations_p5 st))
  ∨ (∃ k violations,
       (violations = P5.violations_p5 st
        ∨ ∃ ev, violations = P5.violations_p5 st ++ [ev])
       ∧ r = Continue
               (P5.mkState (P5.total_law_I_failures st + 1)
                  (P5.perfect_mod2310_anchors_found st + 1)
                  (dd_incr (P5.failures_from_perfect_mod2310 st) k)
                  violations)).
Proof.
  unfold P5.body.
  destruct (py_index prime_list i) as [a|]; [|done].
  destruct (py_index prime_list (i + 1)) as [b|]; [|done].
  cbn [mbind option_bind].
  destruct (_ =? 0).
  - destruct (nearest_prime _ _ _ _) as [o|]; [|done].
    cbn [mbind option_bind].
    destruct (min_distance_k o =? 0); [intros [= <-]; right; by left|].
    destruct (is_k_composite prime_set (min_distance_k o));
      [|intros [= <-]; right; by left].
    intros [= <-]. right. right. do 2 eexists. split; [|done]. simpl.
    destruct (_ || _); [right; by eexists|by left].
  - destruct (search_either _ _) as [k|]; [|done].
    cbn [mbind option_bind].
    destruct (k >? 0); [|intros [= <-]; left; eexists; split;
                         [by left|by destruct st]].
    destruct (is_k_composite prime_set k); intros [= <-]; left; eexists.
    + split; [by right|done].
    + split; [by left|by destruct st].
Qed.

Lemma p5_body_counts prime_list prime_set i st r :
  p5_counts i st →
  P5.body prime_list prime_set i st = Some r →
  ∃ st', r = Continue st' ∧ p5_counts (i + 1) st'.
Proof.
  intros (Hv & Hperfect & Htotal & Hn & Hp) Hpass.
  destruct (p5_body_cases _ _ _ _ _ Hpass)
    as [(total & Ht & ->)|[-> |(k & violations & Hviol & ->)]];
    (eexists; split; [done|]); unfold p5_counts; simpl.
  - lia.
  - lia.
  - rewrite dd_sum_incr.
    destruct Hviol as [-> |[ev ->]]; rewrite ?length_app; simpl; lia.
Qed.

(** X13.  Counts of test 4 at its report, after a run over [n_pairs ≥ 0]
    pairs: there are no more violations than failures from perfect
    anchors, no more of those than perfect anchors or than failures
    overall, and neither the failures nor the perfect anchors outnumber
    the [n_pairs] anchors. *)
Theorem mod2310_counts_nested (n_pairs : Z) (file : list Z)
    (st : P5.state) :
  0 ≤ n_pairs →
  P5.run_PAC_mod2310_verification n_pairs file = Reported st →
  Z.of_nat (length (P5.violations_p5 st))
    ≤ dd_sum (P5.failures_from_perfect_mod2310 st)
  ∧ dd_sum (P5.failures_from_perfect_mod2310 st)
    ≤ P5.perfect_mod2310_anchors_found st
  ∧ dd_sum (P5.failures_from_perfect_mod2310 st)
    ≤ P5.total_law_I_failures st
  ∧ P5.total_law_I_failures st ≤ n_pairs
  ∧ P5.perfect_mod2310_anchors_found st ≤ n_pairs.
Proof.
  intros Hn. unfold P5.run_PAC_mod2310_verification,
    P5.load_primes_from_file.
  destruct (py_len file <? n_pairs + START_INDEX + 10); [done|].
  cbv zeta. intros Hrun.
  destruct (for_range _ _ _ _) as [r|] eqn:Hloop; [|done].
  destruct (for_range_ind
              (λ i r, ∃ st', r = Continue st' ∧ p5_counts i st')
              (P5.body file (list_to_set file))) with
    (Z.to_nat (n_pairs + START_INDEX - START_INDEX)) START_INDEX
    P5.init r as (m & _ & (st' & -> & Hsum) & Hm); [| |done|].
  - intros i s r' (s' & [= <-] & Hs) Hpass.
    by apply (p5_body_counts _ _ _ _ _ Hs Hpass).
  - eexists. split; [done|]. unfold p5_counts. simpl.
    rewrite dd_sum_empty. lia.
  - rewrite (Hm st' eq_refl) in Hsum. simpl in Hrun. injection Hrun as <-.
    unfold p5_counts in Hsum.
    replace (START_INDEX + Z.of_nat (Z.to_nat (n_pairs + START_INDEX
                                               - START_INDEX)) - START_INDEX)
      with n_pairs in Hsum by lia.
    exact Hsum.
Qed.

Lemma first_27_p5_run :
  ∃ st, P5.run_PAC_mod2310_verification 6 first_27_primes = Reported st.
Proof. eexists. vm_compute. reflexivity. Qed.

Lemma mod2310_counts_nested_witness :
  0 ≤ 6
  ∧ ∃ st,
      P5.run_PAC_mod2310_verification 6 first_27_primes = Reported st
      ∧ P5.total_law_I_failures st ≤ 6.
Proof.
  assert (0 ≤ 6) as Hn by lia.
  split; [exact Hn|].
  destruct first_27_p5_run as (st & Hrun).
  exists st. split; [exact Hrun|].
  destruct (mod2310_counts_nested 6 first_27_primes st Hn Hrun)
    as (_ & _ & _ & H & _).
  exact H.
Defined.

(** ** Test 1 over a whole run *)

Lemma for_each_ind {St : Type} (I : list Z → St → Prop)
    (body : Z → St → option St) (l : list Z) (st : St) :
  (∀ done x s, x ∈ l → I done s →
               ∃ s', body x s = Some s' ∧ I (done ++ [x]) s') →
  I [] st →
  ∃ st', for_each body l st = Some st' ∧ I l st'.
Proof.
  intros Hbody Hinit.
  enough (∀ done, I done st →
                  ∃ st', for_each body l st = Some st' ∧ I (done ++ l) st')
    as Hgen by exact (Hgen [] Hinit).
  clear Hinit. revert st.
  induction l as [|x l IH]; intros st done Hdone.
  - exists st. by rewrite app_nil_r.
  - destruct (Hbody done x st) as (s' & Hx & Hs'); [by left|done|].
    simpl. rewrite Hx.
    destruct (IH (λ d y s Hy, Hbody d y s (list_elem_of_further _ _ _ Hy))
                s' (done ++ [x]) Hs') as (st' & Hrun & Hst').
    exists st'. split; [done|]. by rewrite <- app_assoc in Hst'.
Qed.

(** [get_closest_anchor] lands in the half-open window of one modulus
    centred on [q], closed above: on a tie it returns the multiple above.
    No other multiple lies in that window. *)
Lemma get_closest_anchor_window q P :
  0 < P →
  - P < 2 * (CFR.get_closest_anchor q P - q) ≤ P
  ∧ ∀ m, - P < 2 * (m * P - q) ≤ P → m * P = CFR.get_closest_anchor q P.
Proof.
  intros HP.
  destruct (get_closest_anchor_cases q P HP) as (t & r & -> & Hr & ->).
  split.
  - destruct (Z.ltb_spec r (P - r)); lia.
  - intros m Hm. pose proof (multiple_position m t P HP).
    destruct (Z.ltb_spec r (P - r)); lia.
Qed.

(** X14.  For a positive modulus, [get_closest_anchor q P] is the one
    multiple [A] of [P] with [-P/2 < A - q ≤ P/2]: a point midway between
    two multiples is given the one above it. *)
Theorem get_closest_anchor_tie_goes_up (q P : Z) :
  0 < P →
  (P | CFR.get_closest_anchor q P)
  ∧ - P < 2 * (CFR.get_closest_anchor q P - q) ≤ P
  ∧ ∀ m, - P < 2 * (m * P - q) ≤ P → m * P = CFR.get_closest_anchor q P.
Proof.
  intros HP. split.
  - exact (proj1 (get_closest_anchor_nearest q P HP)).
  - exact (get_closest_anchor_window q P HP).
Qed.

Lemma get_closest_anchor_tie_goes_up_witness :
  0 < 30
  ∧ CFR.get_closest_anchor 15 30 = 30
  ∧ - 30 < 2 * (CFR.get_closest_anchor 15 30 - 15) ≤ 30.
Proof.
  assert (0 < 30) as HP by lia.
  split; [exact HP|]. split; [reflexivity|].
  exact (proj1 (proj2 (get_closest_anchor_tie_goes_up 15 30 HP))).
Defined.

(** The number of entries of [l] that fail on the grid of [primorial]. *)
Lemma grid_failures_snoc prime_set primorial done q :
  grid_failures prime_set primorial (done ++ [q])
  = grid_failures prime_set primorial done
    + (if CFR.grid_fails prime_set q primorial then 1 else 0).
Proof.
  unfold grid_failures, py_len.
  rewrite filter_app, length_app, list.filter_singleton by exact done.
  destruct (decide _) as [Hf|Hf].
  - rewrite Hf. simpl. lia.
  - destruct (CFR.grid_fails _ _ _); [done|]. simpl. lia.
Qed.

Lemma grid_failures_bounds prime_set primorial l :
  0 ≤ grid_failures prime_set primorial l ≤ py_len l.
Proof.
  unfold grid_failures, py_len.
  pose proof (length_filter (λ q, CFR.grid_fails prime_set q primorial = true)
                l). lia.
Qed.

(** A pass of the loop of test 1 finds its three keys and adds to each
    the outcome of the test on that grid. *)
Lemma cfr_body_counts prime_set q failure_counts c6 c30 c210 :
  failure_counts !! 6 = Some c6 →
  failure_counts !! 30 = Some c30 →
  failure_counts !! 210 = Some c210 →
  ∃ failure_counts',
    CFR.body prime_set q failure_counts = Some failure_counts'
    ∧ failure_counts' !! 6
      = Some (c6 + if CFR.grid_fails prime_set q 6 then 1 else 0)
    ∧ failure_counts' !! 30
      = Some (c30 + if CFR.grid_fails prime_set q 30 then 1 else 0)
    ∧ failure_counts' !! 210
      = Some (c210 + if CFR.grid_fails prime_set q 210 then 1 else 0).
Proof.
  intros H6 H30 H210. unfold CFR.body, CFR.grid_fails, dict_incr.
  cbv zeta.
  destruct (_ && _); destruct (_ && _); destruct (_ && _).
  all: cbn [mbind option_bind].
  all: rewrite ?H6; cbn [mbind option_bind].
  all: rewrite ?lookup_insert_ne by done.
  all: rewrite ?H30; cbn [mbind option_bind].
  all: rewrite ?lookup_insert_ne by done.
  all: rewrite ?H210; cbn [mbind option_bind].
  all: eexists; (split; [reflexivity|]).
  all: rewrite ?Z.add_0_r.
  all: repeat split.
  all: repeat (rewrite lookup_insert_eq || rewrite lookup_insert_ne by done).
  all: done.
Qed.

Lemma cfr_loop_counts prime_set l :
  ∃ failure_counts,
    for_each (CFR.body prime_set) l CFR.failure_counts_init
    = Some failure_counts
    ∧ failure_counts !! 6 = Some (grid_failures prime_set 6 l)
    ∧ failure_counts !! 30 = Some (grid_failures prime_set 30 l)
    ∧ failure_counts !! 210 = Some (grid_failures prime_set 210 l).
Proof.
  apply (for_each_ind
           (λ done fc,
              fc !! 6 = Some (grid_failures prime_set 6 done)
              ∧ fc !! 30 = Some (grid_failures prime_set 30 done)
              ∧ fc !! 210 = Some (grid_failures prime_set 210 done))).
  - intros done q fc _ (H6 & H30 & H210).
    destruct (cfr_body_counts prime_set q fc _ _ _ H6 H30 H210)
      as (fc' & Hpass & H6' & H30' & H210').
    exists fc'. split; [done|]. by rewrite !grid_failures_snoc.
  - done.
Qed.

(** X15.  What test 1 reports.  With no entry above 7 among the lines it
    loads the run ends in the division by [total_primes_tested = 0];
    otherwise it reports, for each of the grids 6, 30 and 210, the number
    of tested entries [q] whose distance [k] to the nearest multiple has
    [k > 1] and [k] outside the loaded set, a number between 0 and the
    number of entries tested. *)
Theorem cfr_run_outcome (max_primes : Z) (file : list Z) :
  let prime_list := take (Z.to_nat max_primes) file in
  let prime_set : gset Z := list_to_set prime_list in
  let primes_to_test := filter (λ p, 7 < p) prime_list in
  match primes_to_test with
  | [] => CFR.run_PAC_CFR_test max_primes file = Crashed
  | _ :: _ =>
      CFR.run_PAC_CFR_test max_primes file
      = Reported
          (CFR.mkReport (grid_failures prime_set 6 primes_to_test)
             (grid_failures prime_set 30 primes_to_test)
             (grid_failures prime_set 210 primes_to_test)
             (py_len primes_to_test))
      ∧ 0 ≤ grid_failures prime_set 6 primes_to_test
          ≤ py_len primes_to_test
      ∧ 0 ≤ grid_failures prime_set 30 primes_to_test
          ≤ py_len primes_to_test
      ∧ 0 ≤ grid_failures prime_set 210 primes_to_test
          ≤ py_len primes_to_test
  end.
Proof.
  cbv zeta. unfold CFR.run_PAC_CFR_test, CFR.load_primes_from_file.
  set (prime_list := take (Z.to_nat max_primes) file).
  set (prime_set := list_to_set prime_list : gset Z).
  set (primes_to_test := filter (λ p, 7 < p) prime_list).
  destruct (cfr_loop_counts prime_set primes_to_test)
    as (fc & -> & -> & -> & ->).
  destruct primes_to_test as [|q l] eqn:Hl; [done|].
  rewrite <- Hl.
  replace (py_len primes_to_test =? 0) with false.
  - split; [done|]. repeat split; apply grid_failures_bounds.
  - symmetry. apply Z.eqb_neq. rewrite Hl. unfold py_len. simpl. lia.
Qed.

(** ** Test 1 on a list of primes *)

Lemma trial_division_prime n : trial_division n = true ↔ Z.prime n.
Proof.
  unfold trial_division. rewrite andb_true_iff, Z.ltb_lt, forallb_forall.
  split.
  - intros [Hn Hall]. split; [done|]. intros d Hd Hdiv.
    assert (In d (seqZ 2 (n - 2))) as Hin.
    { apply list_elem_of_In, elem_of_seqZ. lia. }
    apply Hall in Hin. apply negb_true_iff, Z.eqb_neq in Hin.
    apply Hin, Z.mod_divide; [lia|done].
  - intros [Hn Hprime]. split; [done|]. intros d Hin.
    apply list_elem_of_In, elem_of_seqZ in Hin.
    apply negb_true_iff, Z.eqb_neq. intros Hmod.
    apply (Hprime d); [lia|]. apply Z.mod_divide; [lia|done].
Qed.

(** The residue of a prime by a modulus shares no smaller factor with the
    modulus. *)
Lemma prime_residue_coprime q P p :
  Z.prime q → 1 < p < q → (p | P) → ¬ (p | q mod P).
Proof.
  intros [_ Hq] Hp HpP Hpr.
  apply (Hq p); [lia|].
  destruct (Z.eq_dec P 0) as [-> |HP].
  - by rewrite Z.mod_0_r in Hpr.
  - rewrite (Z.div_mod q P HP).
    apply Z.divide_add_r; [|done]. by apply Z.divide_mul_l.
Qed.

(** All residues of a modulus among 6, 30 and 210, one by one: a residue
    that shares no factor 2, 3, 5 or 7 with the modulus is at distance 1
    or at a prime distance from the nearer multiple. *)
Lemma residues_enumerated P :
  P = 6 ∨ P = 30 ∨ P = 210 →
  forallb
    (λ r, existsb (λ p, (P mod p =? 0) && (r mod p =? 0)) [2; 3; 5; 7]
          || (let k := if r <? P - r then r else P - r in
              (k =? 1) || trial_division k && (7 <=? k) && (2 * k <? P)))
    (seqZ 0 P) = true.
Proof. intros [-> |[-> | ->]]; vm_compute; reflexivity. Qed.

Lemma grid_distance_checked (q P : Z) :
  Z.prime q → 7 < q →
  P = 6 ∨ P = 30 ∨ P = 210 →
  let k := Z.abs (CFR.get_closest_anchor q P - q) in
  (k =? 1) || trial_division k && (7 <=? k) && (2 * k <? P) = true.
Proof.
  intros Hq Hgt HP.
  assert (0 < P) as Hpos by lia.
  pose proof (residues_enumerated P HP) as Hall.
  rewrite forallb_forall in Hall.
  specialize (Hall (q mod P)).
  pose proof (Z.mod_pos_bound q P Hpos) as Hr.
  assert (In (q mod P) (seqZ 0 P)) as Hin
    by (apply list_elem_of_In, elem_of_seqZ; lia).
  apply Hall in Hin. clear Hall.
  assert (Z.abs (CFR.get_closest_anchor q P - q)
          = if q mod P <? P - q mod P then q mod P else P - q mod P) as ->.
  { unfold CFR.get_closest_anchor.
    pose proof (Z.div_mod q P ltac:(lia)).
    replace (q - q / P * P) with (q mod P) by lia.
    replace (q / P * P + P - q) with (P - q mod P) by lia.
    destruct (Z.ltb_spec (q mod P) (P - q mod P)); lia. }
  apply orb_true_iff in Hin as [Hshared|Hk]; [|exact Hk].
  exfalso. apply existsb_exists in Hshared as (p & Hp & Hboth).
  apply andb_true_iff in Hboth as [HpP Hpr].
  apply Z.eqb_eq in HpP, Hpr.
  assert (1 < p ≤ 7) as Hrange.
  { apply list_elem_of_In in Hp. rewrite !elem_of_cons, elem_of_nil in Hp.
    lia. }
  apply (prime_residue_coprime q P p Hq); [lia| |].
  - apply Z.mod_divide; [lia|done].
  - apply Z.mod_divide; [lia|done].
Qed.

(** X16.  For a prime [q > 7] and a modulus [P] among 6, 30 and 210, the
    distance [k = abs(A - q)] that test 1 computes is 1 or a prime from 7
    up to [P/2]: always 1 on the grid of 6, one of 1, 7, 11, 13 on the
    grid of 30, 1 or a prime below 105 on the grid of 210. *)
Theorem grid_distance_one_or_prime (q P : Z) :
  Z.prime q → 7 < q →
  P = 6 ∨ P = 30 ∨ P = 210 →
  Z.abs (CFR.get_closest_anchor q P - q) = 1
  ∨ (Z.prime (Z.abs (CFR.get_closest_anchor q P - q))
     ∧ 7 ≤ Z.abs (CFR.get_closest_anchor q P - q)
     ∧ 2 * Z.abs (CFR.get_closest_anchor q P - q) < P).
Proof.
  intros Hq Hgt HP.
  pose proof (grid_distance_checked q P Hq Hgt HP) as Hk. cbv zeta in Hk.
  apply orb_true_iff in Hk as [Hone|Hprime].
  - left. by apply Z.eqb_eq.
  - right. apply andb_true_iff in Hprime as [Hprime Hhalf].
    apply andb_true_iff in Hprime as [Hprime Hlow].
    split; [by apply trial_division_prime|].
    split; [by apply Z.leb_le|by apply Z.ltb_lt].
Qed.

Lemma grid_distance_one_or_prime_witness :
  Z.prime 23 ∧ 7 < 23 ∧ (30 = 6 ∨ 30 = 30 ∨ 30 = 210)
  ∧ Z.abs (CFR.get_closest_anchor 23 30 - 23) = 7
  ∧ (Z.abs (CFR.get_closest_anchor 23 30 - 23) = 1
     ∨ Z.prime (Z.abs (CFR.get_closest_anchor 23 30 - 23))).
Proof.
  assert (7 < 23) as Hgt by lia.
  assert (30 = 6 ∨ 30 = 30 ∨ 30 = 210) as HP by (right; left; reflexivity).
  split; [exact prime_23|]. split; [exact Hgt|]. split; [exact HP|].
  split; [reflexivity|].
  destruct (grid_distance_one_or_prime 23 30 prime_23 Hgt HP)
    as [Hone|[Hprime _]].
  - left. exact Hone.
  - right. exact Hprime.
Defined.

(** With the primes up to 103 in the set, no prime above 7 fails on any
    of the three grids. *)
Lemma grid_never_fails (prime_set : gset Z) q P :
  (∀ p, Z.prime p → p ≤ 103 → p ∈ prime_set) →
  Z.prime q → 7 < q →
  P = 6 ∨ P = 30 ∨ P = 210 →
  CFR.grid_fails prime_set q P = false.
Proof.
  intros Hsmall Hq Hgt HP. unfold CFR.grid_fails, in_set. cbv zeta.
  pose proof (grid_distance_checked q P Hq Hgt HP) as Hk. cbv zeta in Hk.
  apply orb_true_iff in Hk as [->%Z.eqb_eq|Hk]; [done|].
  apply andb_true_iff in Hk as [Hk Hhalf%Z.ltb_lt].
  apply andb_true_iff in Hk as [Hprime%trial_division_prime _].
  rewrite bool_decide_eq_true_2; [by rewrite andb_false_r|].
  apply Hsmall; [done|].
  assert (Z.abs (CFR.get_closest_anchor q P - q) ≠ 104) as Hodd.
  { intros Heq. rewrite Heq in Hprime.
    by apply trial_division_prime in Hprime. }
  lia.
Qed.

Lemma grid_failures_none prime_set primorial l :
  Forall (λ q, CFR.grid_fails prime_set q primorial = false) l →
  grid_failures prime_set primorial l = 0.
Proof.
  unfold grid_failures, py_len. induction 1 as [|q l Hq _ IH]; [done|].
  rewrite filter_cons_False; [done|]. by rewrite Hq.
Qed.

(** X17.  Test 1 on a list of primes.  When the loaded lines are all
    prime and include every prime up to 103, the run reports zero
    failures on each of the three grids, 6, 30 and 210. *)
Theorem cfr_reports_no_failure (max_primes : Z) (file : list Z) :
  Forall Z.prime (take (Z.to_nat max_primes) file) →
  (∀ p, Z.prime p → p ≤ 103 → p ∈ take (Z.to_nat max_primes) file) →
  CFR.run_PAC_CFR_test max_primes file
  = Reported
      (CFR.mkReport 0 0 0
         (py_len (filter (λ p, 7 < p) (take (Z.to_nat max_primes) file)))).
Proof.
  intros Hprimes Hsmall.
  unfold CFR.run_PAC_CFR_test, CFR.load_primes_from_file.
  set (prime_list := take (Z.to_nat max_primes) file) in *.
  set (prime_set := list_to_set prime_list : gset Z).
  set (primes_to_test := filter (λ p, 7 < p) prime_list).
  assert (∀ P, P = 6 ∨ P = 30 ∨ P = 210 →
               grid_failures prime_set P primes_to_test = 0) as Hzero.
  { intros P HP. apply grid_failures_none, Forall_forall.
    intros q [Hgt Hin]%list_elem_of_filter.
    apply grid_never_fails; [|by eapply Forall_forall|done..].
    intros p Hp Hle. apply elem_of_list_to_set. by apply Hsmall. }
  destruct (cfr_loop_counts prime_set primes_to_test)
    as (fc & -> & -> & -> & ->).
  rewrite (Hzero 6), (Hzero 30), (Hzero 210)
    by (rewrite <- !Z.eqb_eq; vm_compute; tauto).
  assert (11 ∈ primes_to_test) as H11.
  { apply list_elem_of_filter. split; [lia|].
    apply Hsmall; [|lia]. by apply trial_division_prime. }
  replace (py_len primes_to_test =? 0) with false; [done|].
  symmetry. apply Z.eqb_neq. unfold py_len.
  destruct primes_to_test; [by apply elem_of_nil in H11|simpl; lia].
Qed.

Lemma first_27_all_prime : Forall Z.prime first_27_primes.
Proof.
  apply Forall_forall. intros p Hp. apply trial_division_prime.
  assert (forallb trial_division first_27_primes = true) as Hall
    by (vm_compute; reflexivity).
  rewrite forallb_forall in Hall. by apply Hall, list_elem_of_In.
Qed.

Lemma first_27_complete p : Z.prime p → p ≤ 103 → p ∈ first_27_primes.
Proof.
  intros Hp Hle.
  assert (forallb (λ n, existsb (Z.eqb n) first_27_primes
                        || negb (trial_division n)) (seqZ 2 102) = true)
    as Hall by (vm_compute; reflexivity).
  rewrite forallb_forall in Hall.
  assert (In p (seqZ 2 102)) as Hin.
  { apply list_elem_of_In, elem_of_seqZ. destruct Hp. lia. }
  apply Hall, orb_true_iff in Hin as [Hin|Hnot].
  - apply existsb_exists in Hin as (x & Hx & ->%Z.eqb_eq).
    by apply list_elem_of_In.
  - apply trial_division_prime in Hp. by rewrite Hp in Hnot.
Qed.

Lemma cfr_reports_no_failure_witness :
  Forall Z.prime (take (Z.to_nat 27) first_27_primes)
  ∧ (∀ p, Z.prime p → p ≤ 103 → p ∈ take (Z.to_nat 27) first_27_primes)
  ∧ CFR.run_PAC_CFR_test 27 first_27_primes
    = Reported (CFR.mkReport 0 0 0 23).
Proof.
  split; [exact first_27_all_prime|].
  split; [exact first_27_complete|].
  exact (cfr_reports_no_failure 27 first_27_primes first_27_all_prime
           first_27_complete).
Defined.

(** ** The coverage test of the distribution script *)

Lemma foldl_max_largest (ps : list Z) (p : Z) :
  foldl Z.max p ps ∈ p :: ps
  ∧ ∀ x, x ∈ p :: ps → x ≤ foldl Z.max p ps.
Proof.
  revert p. induction ps as [|a ps IH]; intros p; simpl.
  - split; [by left|]. intros x ->%list_elem_of_singleton. lia.
  - destruct (IH (Z.max p a)) as [Hin Hle]. split.
    + apply elem_of_cons in Hin as [Heq|Hin]; [|by do 2 right].
      rewrite Heq. destruct (Z.max_spec p a) as [[_ ->]|[_ ->]];
        [right|]; by left.
    + intros x Hx.
      assert (Z.max p a ≤ foldl Z.max (Z.max p a) ps) as Hmax
        by (apply Hle; by left).
      rewrite !elem_of_cons in Hx. destruct Hx as [-> |[-> |Hx]]; [lia..|].
      apply Hle. by right.
Qed.

(** X18.  [max(prime_list)] of the distribution script: for a list that
    is not empty the value compared with [anchor_sum + 2000] is an entry
    of the list and no entry exceeds it, wherever in the list it stands. *)
Theorem max_prime_is_largest (prime_list : list Z) :
  prime_list ≠ [] →
  KDist.max_prime prime_list ∈ prime_list
  ∧ ∀ x, x ∈ prime_list → x ≤ KDist.max_prime prime_list.
Proof.
  destruct prime_list as [|p ps]; [done|]. intros _.
  apply foldl_max_largest.
Qed.

Lemma max_prime_is_largest_witness :
  [7; 2; 11; 3] ≠ []
  ∧ KDist.max_prime [7; 2; 11; 3] = 11
  ∧ ∀ x, x ∈ [7; 2; 11; 3] → x ≤ KDist.max_prime [7; 2; 11; 3].
Proof.
  assert ([7; 2; 11; 3] ≠ @nil Z) as Hne by discriminate.
  split; [exact Hne|]. split; [reflexivity|].
  exact (proj2 (max_prime_is_largest [7; 2; 11; 3] Hne)).
Defined.

(** A pass of the distribution script goes on to the next index exactly
    when its anchor exists and passes the coverage test. *)
Lemma kdist_body_continues prime_list prime_set max_prime_in_set i st :
  (∃ st', KDist.body prime_list prime_set max_prime_in_set i st
          = Some (Continue st'))
  ↔ ∃ anchor_sum, anchor_at prime_list i = Some anchor_sum
                  ∧ anchor_sum + 2000 ≤ max_prime_in_set.
Proof.
  unfold KDist.body, anchor_at.
  destruct (py_index prime_list i) as [p_n|];
    [|split; [by intros [? ?]|by intros (? & [=] & _)]].
  destruct (py_index prime_list (i + 1)) as [p_n_plus_1|];
    [|split; [by intros [? ?]|by intros (? & [=] & _)]].
  cbn [mbind option_bind].
  destruct (Z.gtb_spec (p_n + p_n_plus_1 + 2000) max_prime_in_set).
  - split; [by intros [? ?]|intros (? & [= <-] & ?); lia].
  - split; [intros _; eexists; split; [done|lia]|intros _].
    rewrite find_k_min_nearest.
    destruct (nearest_prime_total (λ q, KDist.is_prime q prime_set)
                (λ q, KDist.is_prime q prime_set) 2000 (p_n + p_n_plus_1))
      as [o ->].
    cbn [mbind option_bind]. repeat case_match; by eexists.
Qed.

Lemma kdist_body_no_break prime_list prime_set max_prime_in_set i st st' :
  KDist.body prime_list prime_set max_prime_in_set i st ≠ Some (Break st').
Proof.
  unfold KDist.body.
  destruct (py_index prime_list i); [|done].
  destruct (py_index prime_list (i + 1)); [|done].
  cbn [mbind option_bind].
  destruct (_ >? _); [done|].
  destruct (KDist.find_k_min _ _ _ _); [|done].
  cbn [mbind option_bind]. no_return.
Qed.

Lemma kdist_loop_continues prime_list prime_set max_prime_in_set n start st :
  (∃ st', for_range n start
            (KDist.body prime_list prime_set max_prime_in_set) st
          = Some (Continue st'))
  ↔ ∀ i, start ≤ i < start + Z.of_nat n →
         ∃ anchor_sum, anchor_at prime_list i = Some anchor_sum
                       ∧ anchor_sum + 2000 ≤ max_prime_in_set.
Proof.
  revert start st. induction n as [|n IH]; intros start st.
  { split; [intros _ i Hi; lia|intros _; by eexists]. }
  cbn [for_range]. split.
  - intros [st' Hloop] i Hi.
    destruct (KDist.body _ _ _ start st) as [[st1|st1|st1]|] eqn:Hpass;
      [|done..].
    destruct (Z.eq_dec i start) as [-> |Hne].
    + apply (kdist_body_continues prime_list prime_set max_prime_in_set
               start st). by exists st1.
    + apply (proj1 (IH (start + 1) st1)); [by exists st'|lia].
  - intros Hall.
    destruct (proj2 (kdist_body_continues prime_list prime_set
                       max_prime_in_set start st)) as [st1 ->];
      [apply Hall; lia|].
    apply IH. intros i Hi. apply Hall. lia.
Qed.

Lemma kdist_loop_no_break prime_list prime_set max_prime_in_set n start st
    st' :
  for_range n start (KDist.body prime_list prime_set max_prime_in_set) st
  ≠ Some (Break st').
Proof.
  revert start st. induction n as [|n IH]; intros start st; [done|].
  cbn [for_range].
  destruct (KDist.body _ _ _ start st) as [[st1|st1|st1]|] eqn:Hpass;
    [apply IH| |done..].
  intros [= ->]. by apply kdist_body_no_break in Hpass.
Qed.

(** X19.  The distribution script ends in its report exactly when the
    list has [n_pairs + 2] entries, is not empty, and the anchor of every
    index from 1 to [n_pairs] passes the coverage test,
    [anchor_sum + 2000 ≤ max(prime_list)]; one anchor above that bound
    ends the whole run without a report. *)
Theorem distribution_run_reports_iff (n_pairs : Z) (prime_list : list Z) :
  (∃ st, KDist.analyze_k_distribution n_pairs prime_list = Reported st)
  ↔ n_pairs + 2 ≤ py_len prime_list
    ∧ prime_list ≠ []
    ∧ ∀ i, 1 ≤ i ≤ n_pairs →
           ∃ anchor_sum, anchor_at prime_list i = Some anchor_sum
                         ∧ covers prime_list anchor_sum 2000.
Proof.
  unfold KDist.analyze_k_distribution, covers.
  destruct (Z.ltb_spec (py_len prime_list) (n_pairs + 2));
    [split; [by intros [? ?]|lia]|].
  destruct (bool_decide_reflect (prime_list = []));
    [split; [by intros [? ?]|by intros (_ & ? & _)]|].
  cbv zeta.
  pose proof (kdist_loop_continues prime_list (list_to_set prime_list)
                (KDist.max_prime prime_list) (Z.to_nat (n_pairs + 1 - 1)) 1
                KDist.init) as Hloop.
  split.
  - intros [st Hrun]. split; [done|]. split; [done|].
    intros i Hi. apply (proj1 Hloop); [|lia].
    destruct (for_range _ _ _ _) as [[s|s|s]|] eqn:Hr; [by exists s| |done..].
    by apply kdist_loop_no_break in Hr.
  - intros (_ & _ & Hall).
    destruct (proj2 Hloop) as [st ->]; [|by exists st].
    intros i Hi. apply Hall. lia.
Qed.

(** ** The keys of the tallies *)

Lemma nearest_prime_distance lo hi cap anchor o :
  1 ≤ cap →
  nearest_prime lo hi cap anchor = Some o →
  min_distance_k o ≠ 0 →
  1 ≤ min_distance_k o ≤ cap.
Proof.
  intros Hcap Hrun Hk.
  destruct (nearest_prime_spec lo hi cap anchor o Hcap Hrun)
    as [[-> _]|[(Hrange & _) _]]; [done|exact Hrange].
Qed.

Lemma is_k_composite_outside prime_set k :
  is_k_composite prime_set k = true → 1 < k ∧ k ∉ prime_set.
Proof.
  unfold is_k_composite, in_set.
  intros [Hk Hout]%andb_true_iff. split; [by apply Z.gtb_lt|].
  by apply negb_true_iff, bool_decide_eq_false in Hout.
Qed.

Lemma record_gap_keys prime_set d k g :
  composite_keys prime_set GapCorr.count d →
  2 ≤ k ≤ 2000 → k ∉ prime_set →
  composite_keys prime_set GapCorr.count (GapCorr.record_gap d k g).
Proof.
  intros Hd Hk Hout k' e. unfold GapCorr.record_gap.
  destruct (decide (k' = k)) as [-> |Hne].
  - rewrite lookup_insert_eq. intros [= <-]. split; [done|]. split; [done|].
    simpl. destruct (d !! k) as [e|] eqn:He; simpl; [|lia].
    destruct (Hd k e He) as (_ & _ & ?). lia.
  - rewrite lookup_insert_ne by done. apply Hd.
Qed.

Lemma dd_incr_keys prime_set d k :
  composite_keys prime_set id d →
  2 ≤ k ≤ 2000 → k ∉ prime_set →
  composite_keys prime_set id (dd_incr d k).
Proof.
  intros Hd Hk Hout k' c. unfold dd_incr, dd_get.
  destruct (decide (k' = k)) as [-> |Hne].
  - rewrite lookup_insert_eq. intros [= <-]. split; [done|]. split; [done|].
    unfold id. destruct (d !! k) as [c|] eqn:Hc; simpl; [|lia].
    destruct (Hd k c Hc) as (_ & _ & ?). unfold id in *. lia.
  - rewrite lookup_insert_ne by done. apply Hd.
Qed.

Lemma gapcorr_body_keys prime_list prime_set i st r :
  composite_keys prime_set GapCorr.count (GapCorr.gap_stats_by_k st) →
  GapCorr.body prime_list prime_set i st = Some r →
  composite_keys prime_set GapCorr.count
    (GapCorr.gap_stats_by_k (flow_state r)).
Proof.
  intros Hst. unfold GapCorr.body.
  destruct (py_index prime_list i) as [a|]; [|done].
  destruct (py_index prime_list (i + 1)) as [b|]; [|done].
  cbn [mbind option_bind].
  destruct (nearest_prime _ _ _ _) as [o|] eqn:Ho; [|done].
  cbn [mbind option_bind].
  destruct (Z.eqb_spec (min_distance_k o) 0) as [|Hk]; [by intros [= <-]|].
  destruct (is_k_composite prime_set (min_distance_k o)) eqn:Hcomp;
    [|by intros [= <-]].
  intros [= <-]. simpl.
  apply is_k_composite_outside in Hcomp as [Hgt Hout].
  pose proof (nearest_prime_distance _ _ 2000 _ _ ltac:(lia) Ho Hk).
  apply record_gap_keys; [done|lia|done].
Qed.

Lemma kdist_body_keys prime_list prime_set max_prime_in_set i st r :
  composite_keys prime_set id (KDist.composite_k_counts st) →
  KDist.body prime_list prime_set max_prime_in_set i st = Some r →
  composite_keys prime_set id (KDist.composite_k_counts (flow_state r)).
Proof.
  intros Hst. unfold KDist.body.
  destruct (py_index prime_list i) as [a|]; [|done].
  destruct (py_index prime_list (i + 1)) as [b|]; [|done].
  cbn [mbind option_bind].
  destruct (_ >? _); [by intros [= <-]|].
  rewrite find_k_min_nearest.
  destruct (nearest_prime _ _ _ _) as [o|] eqn:Ho; [|done].
  cbn [mbind option_bind].
  destruct (Z.eqb_spec (min_distance_k o) 0) as [|Hk]; [by intros [= <-]|].
  destruct (KDist.is_law_I_success prime_set (min_distance_k o)) eqn:Hsucc;
    cbn [negb]; [by intros [= <-]|].
  intros [= <-]. simpl.
  pose proof (nearest_prime_distance _ _ 2000 _ _ ltac:(lia) Ho Hk).
  unfold KDist.is_law_I_success, KDist.is_prime, in_set in Hsucc.
  apply orb_false_iff in Hsucc as [Hone Hprime].
  apply Z.eqb_neq in Hone.
  destruct (Z.ltb_spec (min_distance_k o) 2); [lia|].
  apply bool_decide_eq_false in Hprime.
  apply dd_incr_keys; [done|lia|done].
Qed.

(** X20.  The keys of [gap_stats_by_k].  At the report of test 6 every
    entry sits under a distance [k] from 2 to 2000 that is not in the
    prime set, and counts at least one failure: the report's test for an
    entry of count zero never fires. *)
Theorem gap_stats_keys_are_failures (n_pairs : Z) (file : list Z)
    (st : GapCorr.state) (k : Z) (e : GapCorr.gap_stat) :
  GapCorr.run_PAC_failure_gap_correlation n_pairs file = Reported st →
  GapCorr.gap_stats_by_k st !! k = Some e →
  2 ≤ k ≤ 2000 ∧ (k ∉ file) ∧ 1 ≤ GapCorr.count e.
Proof.
  unfold GapCorr.run_PAC_failure_gap_correlation,
    GapCorr.load_primes_from_file.
  destruct (py_len file <? n_pairs + START_INDEX + 10); [done|].
  cbv zeta. intros Hrun He.
  destruct (for_range _ _ _ _) as [r|] eqn:Hloop; [|done].
  apply (for_range_invariant
           (λ s, composite_keys (list_to_set file) GapCorr.count
                   (GapCorr.gap_stats_by_k s))) in Hloop.
  - assert (flow_state r = st) as Hst
      by (destruct r; simpl in Hrun; by simplify_eq).
    rewrite Hst in Hloop. destruct (Hloop k e He) as (? & Hout & ?).
    split; [done|]. split; [|done].
    intros Hin. apply Hout. by apply elem_of_list_to_set.
  - intros i s r'. apply gapcorr_body_keys.
  - intros k' e'. simpl. by rewrite lookup_empty.
Qed.

Lemma first_27_gapcorr_entry :
  ∃ st e,
    GapCorr.run_PAC_failure_gap_correlation 6 first_27_primes = Reported st
    ∧ GapCorr.gap_stats_by_k st !! 9 = Some e.
Proof. do 2 eexists. split; vm_compute; reflexivity. Qed.

Lemma gap_stats_keys_are_failures_witness :
  ∃ st e,
    GapCorr.run_PAC_failure_gap_correlation 6 first_27_primes = Reported st
    ∧ GapCorr.gap_stats_by_k st !! 9 = Some e
    ∧ (9 ∉ first_27_primes) ∧ 1 ≤ GapCorr.count e.
Proof.
  destruct first_27_gapcorr_entry as (st & e & Hrun & He).
  exists st, e. split; [exact Hrun|]. split; [exact He|].
  exact (proj2 (gap_stats_keys_are_failures 6 first_27_primes st 9 e
                  Hrun He)).
Defined.

(** X21.  The keys of [composite_k_counts].  At the report of the
    distribution script every key of the tally is a distance [k] from 2
    to 2000 that is not in the prime set, and its count is at least 1. *)
Theorem tally_keys_are_failures (n_pairs : Z) (prime_list : list Z)
    (st : KDist.state) (k c : Z) :
  KDist.analyze_k_distribution n_pairs prime_list = Reported st →
  KDist.composite_k_counts st !! k = Some c →
  2 ≤ k ≤ 2000 ∧ (k ∉ prime_list) ∧ 1 ≤ c.
Proof.
  unfold KDist.analyze_k_distribution.
  destruct (py_len prime_list <? n_pairs + 2); [done|].
  destruct (bool_decide (prime_list = [])); [done|].
  cbv zeta. intros Hrun Hc.
  destruct (for_range _ _ _ _) as [r|] eqn:Hloop; [|done].
  apply (for_range_invariant
           (λ s, composite_keys (list_to_set prime_list) id
                   (KDist.composite_k_counts s))) in Hloop.
  - assert (flow_state r = st) as Hst
      by (destruct r; simpl in Hrun; by simplify_eq).
    rewrite Hst in Hloop. destruct (Hloop k c Hc) as (? & Hout & ?).
    split; [done|]. split; [|done].
    intros Hin. apply Hout. by apply elem_of_list_to_set.
  - intros i s r'. apply kdist_body_keys.
  - intros k' c'. simpl. by rewrite lookup_empty.
Qed.

Lemma spaced_list_entry :
  ∃ st c,
    KDist.analyze_k_distribution 1 [2; 60; 100; 150; 3000] = Reported st
    ∧ KDist.composite_k_counts st !! 10 = Some c.
Proof. do 2 eexists. split; vm_compute; reflexivity. Qed.

(** On the list 2, 60, 100, 150, 3000 the anchor 60 + 100 finds 150 at
    distance 10, which the list does not hold. *)
Lemma tally_keys_are_failures_witness :
  ∃ st c,
    KDist.analyze_k_distribution 1 [2; 60; 100; 150; 3000] = Reported st
    ∧ KDist.composite_k_counts st !! 10 = Some c
    ∧ (10 ∉ [2; 60; 100; 150; 3000]) ∧ 1 ≤ c.
Proof.
  destruct spaced_list_entry as (st & c & Hrun & Hc).
  exists st, c. split; [exact Hrun|]. split; [exact Hc|].
  exact (proj2 (tally_keys_are_failures 1 [2; 60; 100; 150; 3000] st 10 c
                  Hrun Hc)).
Defined.

(** ** The residues test 3 expects *)

Lemma prime_residue_mod30 p :
  Z.prime p → 5 < p → p mod 30 ∈ Residue.prime_residues.
Proof.
  intros Hp Hgt.
  assert (forallb
            (λ r, existsb (λ d, r mod d =? 0) [2; 3; 5]
                  || existsb (Z.eqb r) Residue.prime_residues)
            (seqZ 0 30) = true) as Hall by (vm_compute; reflexivity).
  rewrite forallb_forall in Hall.
  pose proof (Z.mod_pos_bound p 30 ltac:(lia)) as Hr.
  assert (In (p mod 30) (seqZ 0 30)) as Hin
    by (apply list_elem_of_In, elem_of_seqZ; lia).
  apply Hall, orb_true_iff in Hin as [Hshared|Hin].
  - exfalso. apply existsb_exists in Hshared as (d & Hd & Hmod).
    apply Z.eqb_eq in Hmod.
    apply list_elem_of_In in Hd. rewrite !elem_of_cons, elem_of_nil in Hd.
    apply (prime_residue_coprime p 30 d Hp); [lia| |].
    + destruct Hd as [-> |[-> |[-> |[]]]];
        [by exists 15|by exists 10|by exists 6].
    + apply Z.mod_divide; [lia|done].
  - apply existsb_exists in Hin as (x & Hx & ->%Z.eqb_eq).
    by apply list_elem_of_In.
Qed.

Lemma possible_residues_closed r1 r2 :
  r1 ∈ Residue.prime_residues → r2 ∈ Residue.prime_residues →
  (r1 + r2) mod 30 ∈ Residue.possible_S_n_residues.
Proof.
  intros H1 H2.
  assert (forallb
            (λ r1, forallb
                     (λ r2, existsb (Z.eqb ((r1 + r2) mod 30))
                              Residue.possible_S_n_residues)
                     Residue.prime_residues)
            Residue.prime_residues = true) as Hall
    by (vm_compute; reflexivity).
  rewrite forallb_forall in Hall.
  apply list_elem_of_In, Hall in H1. rewrite forallb_forall in H1.
  apply list_elem_of_In, H1 in H2.
  apply existsb_exists in H2 as (x & Hx & ->%Z.eqb_eq).
  by apply list_elem_of_In.
Qed.

Lemma anchor_residue_expected p p' :
  Z.prime p → Z.prime p' → 5 < p → 5 < p' →
  (p + p') mod 30 ∈ Residue.possible_S_n_residues.
Proof.
  intros Hp Hp' Hgt Hgt'. rewrite Z.add_mod by lia.
  apply possible_residues_closed; by apply prime_residue_mod30.
Qed.

(** X22.  The list [possible_S_n_residues] that the report of test 3
    builds, sorted and without repetition, holds exactly the even
    residues modulo 30, and the residue of the sum of any two primes
    above 5 is among them. *)
Theorem possible_residues_cover_anchors (p p' : Z) :
  Z.prime p → Z.prime p' → 5 < p → 5 < p' →
  (p + p') mod 30 ∈ Residue.possible_S_n_residues
  ∧ StronglySorted Z.lt Residue.possible_S_n_residues
  ∧ ∀ r, r ∈ Residue.possible_S_n_residues ↔ 0 ≤ r < 30 ∧ r mod 2 = 0.
Proof.
  intros Hp Hp' Hgt Hgt'.
  split; [by apply anchor_residue_expected|].
  assert (Residue.possible_S_n_residues
          = [0; 2; 4; 6; 8; 10; 12; 14; 16; 18; 20; 22; 24; 26; 28]) as ->
    by (vm_compute; reflexivity).
  split.
  - repeat (constructor; [|repeat (constructor; [lia|]); constructor]).
    constructor.
  - intros r. rewrite !elem_of_cons, elem_of_nil. split.
    + intros Hr. repeat (destruct Hr as [-> |Hr]; [by split|]). done.
    + intros [Hr Heven].
      assert (r = 2 * (r / 2)) as Hhalf
        by (pose proof (Z.div_mod r 2 ltac:(lia)); lia).
      lia.
Qed.

Lemma prime_31 : Z.prime 31.
Proof. by apply trial_division_prime. Qed.

Lemma prime_37 : Z.prime 37.
Proof. by apply trial_division_prime. Qed.

Lemma possible_residues_cover_anchors_witness :
  Z.prime 31 ∧ Z.prime 37 ∧ 5 < 31 ∧ 5 < 37
  ∧ (31 + 37) mod 30 = 8
  ∧ (31 + 37) mod 30 ∈ Residue.possible_S_n_residues.
Proof.
  assert (5 < 31) as H31 by lia.
  assert (5 < 37) as H37 by lia.
  split; [exact prime_31|]. split; [exact prime_37|].
  split; [exact H31|]. split; [exact H37|]. split; [reflexivity|].
  exact (proj1 (possible_residues_cover_anchors 31 37 prime_31 prime_37
                  H31 H37)).
Defined.

Lemma classes_expected_init :
  classes_expected (Residue.failures_by_residue Residue.init).
Proof.
  intros r d. unfold Residue.init. cbn [Residue.failures_by_residue].
  destruct (decide (0 ≤ r < 30)) as [Hr|Hr].
  - rewrite lookup_range_table by done. by intros [= <-].
  - by rewrite lookup_range_table_None.
Qed.

Lemma residue_body_expected prime_list prime_set i st r :
  (∀ j p, START_INDEX ≤ j → py_index prime_list j = Some p →
          Z.prime p ∧ 5 < p) →
  START_INDEX ≤ i →
  classes_expected (Residue.failures_by_residue st) →
  Residue.body prime_list prime_set i st = Some r →
  ∃ st', r = Continue st'
         ∧ classes_expected (Residue.failures_by_residue st').
Proof.
  intros Hprimes Hi Hst. unfold Residue.body.
  destruct (py_index prime_list i) as [a|] eqn:Ha; [|done].
  destruct (py_index prime_list (i + 1)) as [b|] eqn:Hb; [|done].
  cbn [mbind option_bind].
  destruct (nearest_prime _ _ _ _) as [o|]; [|done].
  cbn [mbind option_bind].
  destruct (min_distance_k o =? 0); [intros [= <-]; by exists st|].
  destruct (is_k_composite prime_set (min_distance_k o));
    [|intros [= <-]; by exists st].
  destruct (Residue.failures_by_residue st !! _) as [d0|]; [|done].
  cbn [mbind option_bind]. intros [= <-]. eexists. split; [done|].
  cbn [Residue.failures_by_residue]. intros r d.
  destruct (decide (r = (a + b) mod 30)) as [-> |Hne].
  - intros _ _.
    destruct (Hprimes i a Hi Ha) as [Hpa Hga].
    destruct (Hprimes (i + 1) b ltac:(lia) Hb) as [Hpb Hgb].
    by apply anchor_residue_expected.
  - rewrite lookup_insert_ne by done. apply Hst.
Qed.

(** X23.  Test 3 on primes.  When the entries of the file from index
    [START_INDEX] on are primes above 5, every residue class that holds a
    failure at the report is one of [possible_S_n_residues]: a class the
    report calls not expected is empty. *)
Theorem residue_classes_expected (n_pairs : Z) (file : list Z)
    (st : Residue.state) (r : Z) (failure_data : gmap Z Z) :
  (∀ j p, START_INDEX ≤ j → py_index file j = Some p → Z.prime p ∧ 5 < p) →
  Residue.run_PAC_residue_analysis_mod30 n_pairs file = Reported st →
  Residue.failures_by_residue st !! r = Some failure_data →
  failure_data ≠ ∅ →
  r ∈ Residue.possible_S_n_residues.
Proof.
  intros Hprimes. unfold Residue.run_PAC_residue_analysis_mod30,
    Residue.load_primes_from_file.
  destruct (py_len file <? n_pairs + START_INDEX + 10); [done|].
  cbv zeta. intros Hrun.
  destruct (for_range _ _ _ _) as [res|] eqn:Hloop; [|done].
  destruct (for_range_ind
              (λ i res,
                 START_INDEX ≤ i
                 ∧ ∃ st', res = Continue st'
                          ∧ classes_expected (Residue.failures_by_residue st'))
              (Residue.body file (list_to_set file))) with
    (Z.to_nat (n_pairs + START_INDEX - START_INDEX)) START_INDEX
    Residue.init res as (m & _ & (_ & st' & -> & Hexp) & _); [| |done|].
  - intros i s r' (Hi & s' & [= <-] & Hs) Hpass. split; [lia|].
    by apply (residue_body_expected _ _ _ _ _ Hprimes Hi Hs Hpass).
  - split; [done|]. eexists. split; [done|]. apply classes_expected_init.
  - simpl in Hrun. injection Hrun as <-. apply Hexp.
Qed.

Lemma first_27_tail_primes j p :
  START_INDEX ≤ j → py_index first_27_primes j = Some p →
  Z.prime p ∧ 5 < p.
Proof.
  unfold START_INDEX, py_index. intros Hj.
  destruct (Z.leb_spec 0 j); [|lia]. intros Hp.
  assert (p ∈ drop 10 first_27_primes) as Hin.
  { apply (list_elem_of_lookup_2 _ (Z.to_nat j - 10)%nat).
    rewrite lookup_drop. rewrite <- Hp. f_equal. lia. }
  assert (forallb (λ p, trial_division p && (5 <? p))
            (drop 10 first_27_primes) = true) as Hall
    by (vm_compute; reflexivity).
  rewrite forallb_forall in Hall.
  apply list_elem_of_In, Hall, andb_true_iff in Hin as [Hprime Hgt].
  split; [by apply trial_division_prime|by apply Z.ltb_lt].
Qed.

Lemma first_27_residue_entry :
  ∃ st failure_data,
    Residue.run_PAC_residue_analysis_mod30 6 first_27_primes = Reported st
    ∧ Residue.failures_by_residue st !! 22 = Some failure_data
    ∧ failure_data !! 9 = Some 1.
Proof. do 2 eexists. repeat split; vm_compute; reflexivity. Qed.

(** The run over 6 pairs on the first 27 primes files its one failure,
    at the anchor 53 + 59 = 112, in the class of 22. *)
Lemma residue_classes_expected_witness :
  ∃ st failure_data,
    Residue.run_PAC_residue_analysis_mod30 6 first_27_primes = Reported st
    ∧ Residue.failures_by_residue st !! 22 = Some failure_data
    ∧ failure_data ≠ ∅
    ∧ 22 ∈ Residue.possible_S_n_residues.
Proof.
  destruct first_27_residue_entry as (st & d & Hrun & Hd & H9).
  assert (d ≠ ∅) as Hne.
  { intros Heq. rewrite Heq, lookup_empty in H9. discriminate H9. }
  exists st, d. split; [exact Hrun|]. split; [exact Hd|].
  split; [exact Hne|].
  exact (residue_classes_expected 6 first_27_primes st 22 d
           first_27_tail_primes Hrun Hd Hne).
Defined.
